(** * google-search: fingerprint generation, result extraction and the
      search orchestrator of [search.ts], as a shallow embedding.

    The browser runtime (Playwright), the file system, the JavaScript engine
    and the host clock are external; they appear here as explicit state and
    as a [World] that fixes how each runtime call answers.  Everything else
    is translated from the TypeScript source function by function.

    Conventions.

    - A JavaScript string is the [string] of its UTF-8 bytes (a lone
      surrogate as the three bytes of its generalised encoding).  Searching,
      comparing and replacing ASCII patterns agree on bytes and on UTF-16
      code units; where the code counts characters ([length]) or strips
      white space ([trim], [\s]) the definitions below count code units and
      recognise the white space of ECMAScript on the encoded form.
    - JavaScript numbers that the code only uses as integers (offsets,
      hours) are [Z].  The result limit is a [JsNumber]: it reaches the
      extraction untouched, and nothing makes it an integer.
    - What [JSON.parse] returns is a [Json] value; the saved state in memory
      is such a value, read and assigned through the property rules of the
      language (a read on [null] and, in a module, an assignment to a
      primitive raise a [TypeError]).
    - The file system is a finite map from the path strings the program
      uses to what they name; a regular file is represented by what
      [JSON.parse] makes of its text.  [path.dirname] is the POSIX one.
    - The double quotes inside the CSS selectors of the source are written
      as single quotes.  Every awaited call, and every synchronous call
      that can throw, is a [Site] at which the [World] decides whether it
      throws.  Launch arguments, time-outs, log lines, the bodies of the
      init scripts and the random delays have no effect on what is proved
      and are left out.  The built-in objects of the page ([Set], [Array],
      [String]) are the engine's own. *)

From Stdlib Require Import ZArith QArith Lia Bool Ascii String List.
From stdpp Require Import base option list gmap strings.

Local Open Scope string_scope.

(* ===================================================================== *)
(** ** JavaScript string helpers *)
(* ===================================================================== *)

Module JsString.

(** [s.startsWith(p)] *)
Fixpoint startsWith (p s : string) : bool :=
  match p, s with
  | EmptyString, _ => true
  | String a p', String b s' => if Ascii.eqb a b then startsWith p' s' else false
  | String _ _, EmptyString => false
  end.

(** [s.includes(p)] *)
Fixpoint includes (p s : string) : bool :=
  startsWith p s ||
  match s with
  | EmptyString => false
  | String _ s' => includes p s'
  end.

(** JS truthiness of a string: only the empty string is falsy. *)
Definition truthy (s : string) : bool :=
  match s with EmptyString => false | String _ _ => true end.

(** [s.replace(pat, rep)] with a string pattern: the first occurrence only. *)
Fixpoint dropn (n : nat) (s : string) : string :=
  match n, s with
  | O, _ => s
  | S n', String _ s' => dropn n' s'
  | S _, EmptyString => EmptyString
  end.

Fixpoint replace (pat rep s : string) : string :=
  if startsWith pat s then rep ++ dropn (String.length pat) s
  else match s with
       | EmptyString => EmptyString
       | String c s' => String c (replace pat rep s')
       end.

(** [s.length]: the number of UTF-16 code units.  A byte that continues a
    character counts for nothing, the first byte of a four-byte character
    (one outside the basic plane, a surrogate pair) for two, any other byte
    for one. *)
Fixpoint jsLength (s : string) : nat :=
  match s with
  | EmptyString => 0
  | String c s' =>
      let n := nat_of_ascii c in
      (if (128 <=? n)%nat && (n <? 192)%nat then 0
       else if (240 <=? n)%nat then 2 else 1) + jsLength s'
  end.

(** The white space of ECMAScript ([WhiteSpace] and [LineTerminator]), by
    the bytes of its encoding: U+0009 to U+000D and U+0020; U+00A0; U+1680,
    U+2000 to U+200A, U+2028, U+2029, U+202F, U+205F, U+3000 and U+FEFF. *)
Definition isSpace1 (a : ascii) : bool :=
  let a := nat_of_ascii a in
  (a =? 32)%nat || ((9 <=? a)%nat && (a <=? 13)%nat).

Definition isSpace2 (a b : ascii) : bool :=
  (nat_of_ascii a =? 194)%nat && (nat_of_ascii b =? 160)%nat.

Definition isSpace3 (a b c : ascii) : bool :=
  let a := nat_of_ascii a in
  let b := nat_of_ascii b in
  let c := nat_of_ascii c in
  ((a =? 225) && (b =? 154) && (c =? 128)
   || (a =? 226) && (b =? 128)
      && ((128 <=? c) && (c <=? 138) || (c =? 168) || (c =? 169) || (c =? 175))
   || (a =? 226) && (b =? 129) && (c =? 159)
   || (a =? 227) && (b =? 128) && (c =? 128)
   || (a =? 239) && (b =? 187) && (c =? 191))%nat.

(** The number of bytes of the white-space character a string begins with;
    [0] when it begins with none. *)
Definition spaceLength (s : string) : nat :=
  match s with
  | String a (String b (String c _)) =>
      if isSpace1 a then 1 else if isSpace2 a b then 2
      else if isSpace3 a b c then 3 else 0
  | String a (String b EmptyString) =>
      if isSpace1 a then 1 else if isSpace2 a b then 2 else 0
  | String a EmptyString => if isSpace1 a then 1 else 0
  | EmptyString => 0
  end.

Fixpoint trimStart (s : string) : string :=
  match s with
  | String a r1 =>
      if isSpace1 a then trimStart r1
      else match r1 with
           | String b r2 =>
               if isSpace2 a b then trimStart r2
               else match r2 with
                    | String c r3 => if isSpace3 a b c then trimStart r3 else s
                    | EmptyString => s
                    end
           | EmptyString => s
           end
  | EmptyString => s
  end.

(** The same from the other end, on the reversed bytes. *)
Fixpoint trimStartReversed (s : string) : string :=
  match s with
  | String a r1 =>
      if isSpace1 a then trimStartReversed r1
      else match r1 with
           | String b r2 =>
               if isSpace2 b a then trimStartReversed r2
               else match r2 with
                    | String c r3 =>
                        if isSpace3 c b a then trimStartReversed r3 else s
                    | EmptyString => s
                    end
           | EmptyString => s
           end
  | EmptyString => s
  end.

Definition reversed (s : string) : string :=
  string_of_list_ascii (rev (list_ascii_of_string s)).

Definition trimEnd (s : string) : string :=
  reversed (trimStartReversed (reversed s)).

(** [s.trim()] *)
Definition trim (s : string) : string := trimEnd (trimStart s).

#[global] Arguments startsWith : simpl never.
#[global] Arguments includes : simpl never.
#[global] Arguments replace : simpl never.
#[global] Arguments trim : simpl never.
#[global] Arguments jsLength : simpl never.

End JsString.

(* ===================================================================== *)
(** ** JavaScript numbers and JSON values *)
(* ===================================================================== *)

Module JsValue.
Import JsString.

(** A number: a rational (every finite double is one), or one of the three
    values that are none. *)
Inductive JsNumber :=
| Num (q : Q)
| NaN
| PosInfinity
| NegInfinity.

Definition ofZ (z : Z) : JsNumber := Num (inject_Z z).

(** [n >= x] and [n < x] for an array length [n]; every comparison with
    [NaN] is false. *)
Definition lengthGe (n : nat) (x : JsNumber) : bool :=
  match x with
  | Num q => Qle_bool q (inject_Z (Z.of_nat n))
  | NaN => false
  | PosInfinity => false
  | NegInfinity => true
  end.

Definition lengthLt (n : nat) (x : JsNumber) : bool :=
  match x with
  | Num q => negb (Qle_bool q (inject_Z (Z.of_nat n)))
  | NaN => false
  | PosInfinity => true
  | NegInfinity => false
  end.

(** The integer part of a rational, rounding towards zero. *)
Definition truncate (q : Q) : Z := (Qnum q ÷ Zpos (Qden q))%Z.

(** What [JSON.parse] returns.  An array is an object too: it can be given
    named properties, which [JSON.stringify] does not write. *)
#[warnings="-register-all"]
Inductive Json :=
| JNull
| JBool (b : bool)
| JNumber (n : JsNumber)
| JString (s : string)
| JArray (items : list Json) (named : list (string * Json))
| JObject (fields : list (string * Json)).

Definition numberTruthy (n : JsNumber) : bool :=
  match n with
  | Num q => negb (Qnum q =? 0)%Z
  | NaN => false
  | PosInfinity | NegInfinity => true
  end.

(** JS truthiness; [None] stands for [undefined]. *)
Definition truthyJ (v : Json) : bool :=
  match v with
  | JNull => false
  | JBool b => b
  | JNumber n => numberTruthy n
  | JString s => truthy s
  | JArray _ _ | JObject _ => true
  end.

Definition truthyV (v : option Json) : bool :=
  match v with Some j => truthyJ j | None => false end.

(** [null] and the primitive values: no property can be created on them. *)
Definition isPrimitive (v : Json) : bool :=
  match v with
  | JNull | JBool _ | JNumber _ | JString _ => true
  | JArray _ _ | JObject _ => false
  end.

Fixpoint assoc (key : string) (fields : list (string * Json)) : option Json :=
  match fields with
  | [] => None
  | (k, v) :: rest => if String.eqb k key then Some v else assoc key rest
  end.

Fixpoint setField (key : string) (x : Json) (fields : list (string * Json))
  : list (string * Json) :=
  match fields with
  | [] => [(key, x)]
  | (k, v) :: rest =>
      if String.eqb k key then (k, x) :: rest else (k, v) :: setField key x rest
  end.

(** [v.key] for a [v] other than [null], and for a [key] that is neither an
    index nor a member of a prototype (the keys read by the code are
    [fingerprint], [googleDomain] and the six of a fingerprint): an own
    property of an object or an array, [undefined] on a primitive. *)
Definition getProp (key : string) (v : Json) : option Json :=
  match v with
  | JObject fields => assoc key fields
  | JArray _ named => assoc key named
  | _ => None
  end.

(** [v.key = x] in strict code; [None]: a [TypeError]. *)
Definition setProp (key : string) (x : Json) (v : Json) : option Json :=
  match v with
  | JObject fields => Some (JObject (setField key x fields))
  | JArray items named => Some (JArray items (setField key x named))
  | _ => None
  end.

(** [JSON.parse(JSON.stringify(v, null, 2))]: what a file written from [v]
    holds.  The named properties of arrays are not written; a number that
    is not finite is written as [null]. *)
Fixpoint stringified (v : Json) : Json :=
  match v with
  | JNumber (Num q) => JNumber (Num q)
  | JNumber _ => JNull
  | JArray items _ => JArray (map stringified items) []
  | JObject fields =>
      JObject (map (fun kv => match kv with (k, x) => (k, stringified x) end)
                   fields)
  | other => other
  end.

End JsValue.

(* ===================================================================== *)
(** ** Fingerprint generation: [getHostMachineConfig] *)
(* ===================================================================== *)

Inductive ColorScheme := dark | light.
Inductive ReducedMotion := reduce | no_preference.
Inductive ForcedColors := active | none.

Record FingerprintConfig := {
  deviceName : string;
  locale : string;
  timezoneId : string;
  colorScheme : ColorScheme;
  reducedMotion : ReducedMotion;
  forcedColors : ForcedColors;
}.

(** The host signals the generator reads: [new Date().getTimezoneOffset()],
    [new Date().getHours()], [process.env.LANG] and [os.platform()]. *)
Record Host := {
  timezoneOffset : Z;
  hour : Z;
  envLANG : option string;
  platform : string;
}.

(** [a || b] on possibly-undefined strings. *)
Definition orElse (a : option string) (b : option string) : option string :=
  match a with
  | Some s => if JsString.truthy s then Some s else b
  | None => b
  end.

Section Timezone.
Local Open Scope Z_scope.

(** The conditions of the [if]/[else if] chain, in source order, each with
    the zone its branch assigns. *)
Definition offsetRanges : list ((Z -> bool) * string) :=
  [ (fun o => (o <=? -480) && (o >? -600), "Asia/Shanghai");
    (fun o => (o <=? -540),                "Asia/Seoul");
    (fun o => (o <=? -420) && (o >? -480), "Asia/Bangkok");
    (fun o => (o <=? 0) && (o >? -60),     "Europe/London");
    (fun o => (o <=? 60) && (o >? 0),      "Europe/Berlin");
    (fun o => (o <=? 300) && (o >? 240),   "America/New_York") ].

Definition inferTimezone (timezoneOffset : Z) : string :=
  let timezoneId := "Asia/Seoul" in
  if (timezoneOffset <=? -480) && (timezoneOffset >? -600) then "Asia/Shanghai"
  else if timezoneOffset <=? -540 then "Asia/Seoul"
  else if (timezoneOffset <=? -420) && (timezoneOffset >? -480) then "Asia/Bangkok"
  else if (timezoneOffset <=? 0) && (timezoneOffset >? -60) then "Europe/London"
  else if (timezoneOffset <=? 60) && (timezoneOffset >? 0) then "Europe/Berlin"
  else if (timezoneOffset <=? 300) && (timezoneOffset >? 240) then "America/New_York"
  else timezoneId.

(** First matching entry of a range table. *)
Fixpoint firstMatch (tbl : list ((Z -> bool) * string)) (o : Z) : option string :=
  match tbl with
  | [] => None
  | (c, tz) :: tbl' => if c o then Some tz else firstMatch tbl' o
  end.

(** The zones of all the ranges an offset satisfies, in source order. *)
Definition matchingRanges (o : Z) : list string :=
  map snd (List.filter (fun e => fst e o) offsetRanges).

Definition inferColorScheme (hour : Z) : ColorScheme :=
  if (hour >=? 19) || (hour <? 7) then dark else light.
End Timezone.

Definition getHostMachineConfig (host : Host) (userLocale : option string)
  : FingerprintConfig :=
  let systemLocale :=
    default "ko-KR" (orElse (orElse userLocale (envLANG host)) (Some "ko-KR")) in
  let timezoneId := inferTimezone (timezoneOffset host) in
  let colorScheme := inferColorScheme (hour host) in
  let reducedMotion := no_preference in
  let forcedColors := none in
  let deviceName := "Desktop Chrome" in
  let deviceName :=
    if String.eqb (platform host) "darwin" then "Desktop Safari"
    else if String.eqb (platform host) "win32" then "Desktop Edge"
    else if String.eqb (platform host) "linux" then "Desktop Firefox"
    else deviceName in
  let deviceName := "Desktop Chrome" in
  {| deviceName := deviceName;
     locale := systemLocale;
     timezoneId := timezoneId;
     colorScheme := colorScheme;
     reducedMotion := reducedMotion;
     forcedColors := forcedColors |}.

(** The object [getHostMachineConfig] returns, as a value: its six
    properties in the order of the object literal. *)
Definition fingerprintJson (fp : FingerprintConfig) : JsValue.Json :=
  JsValue.JObject
    [ ("deviceName", JsValue.JString (deviceName fp));
      ("locale", JsValue.JString (locale fp));
      ("timezoneId", JsValue.JString (timezoneId fp));
      ("colorScheme",
       JsValue.JString match colorScheme fp with dark => "dark" | light => "light" end);
      ("reducedMotion",
       JsValue.JString match reducedMotion fp with
                       | reduce => "reduce"
                       | no_preference => "no-preference"
                       end);
      ("forcedColors",
       JsValue.JString match forcedColors fp with
                       | active => "active"
                       | none => "none"
                       end) ].


(* ===================================================================== *)
(** ** Result extraction: the callback handed to [page.evaluate] *)
(* ===================================================================== *)

Record SearchResult := {
  title : string;
  link : string;
  snippet : string;
}.

Module Extract.
Import JsString JsValue.

(** *** The part of the rendered document the callback looks at *)

(** The [href] property of an element named [a].  On an HTML anchor it is a
    string, the resolved URL; on an SVG anchor it is an [SVGAnimatedString]
    object; an element of any other namespace has none. *)
Inductive HrefValue :=
| HrefString (url : string)
| HrefAnimated
| HrefUndefined.

(** An ancestor met while walking [parentElement] from the title node. *)
Record Ancestor := {
  tagName : string;
  isHTMLAnchorElement : bool;
  ancestorHref : string;       (* read only when it is an HTML anchor *)
}.

(** The node [container.querySelector(selectors.title)] returns.  It is
    matched by the selector [h3], so the upward walk for a tag [A] starts
    effectively at its parent. *)
Record TitleElement := {
  titleTextContent : string;
  linkInTitle : option HrefValue;   (* [titleElement.querySelector('a')], its [href] *)
  ancestors : list Ancestor;        (* parent first *)
}.

Record DivElement := {
  containsH3 : bool;             (* [el.querySelector('h3')] is non-null *)
  divTextContent : string;
}.

Record Container := {
  queryTitle : string -> option TitleElement;  (* [querySelector(sel)] for a title selector *)
  containerLink : option HrefValue;            (* [querySelector('a')], its [href] *)
  queryText : string -> option string;         (* [querySelector(sel)], its [textContent] *)
  divs : list DivElement;                      (* [querySelectorAll('div')] *)
}.

(** An element of [document.querySelectorAll("a[href^='http']")]; its
    [href] is read only when it is an HTML anchor. *)
Record AnchorElement := {
  isHTMLAnchor : bool;             (* [el instanceof HTMLAnchorElement] *)
  href : string;
  anchorTextContent : string;
  parentTexts : list string;       (* [textContent] of parent, grandparent, ... *)
}.

Record Page := {
  querySelectorAll : string -> list Container;
  anchorElements : list AnchorElement;
}.

(** *** Configuration captured by the callback *)

Record SelectorSet := {
  container : string;
  titleSel : string;
  snippetSel : string;
}.

Definition selectorSets : list SelectorSet :=
  [ {| container := "#search div[data-hveid]"; titleSel := "h3"; snippetSel := ".VwiC3b" |};
    {| container := "#rso div[data-hveid]"; titleSel := "h3"; snippetSel := "[data-sncf='1']" |};
    {| container := ".g"; titleSel := "h3"; snippetSel := "div[style*='webkit-line-clamp']" |};
    {| container := "div[jscontroller][data-hveid]"; titleSel := "h3"; snippetSel := "div[role='text']" |} ].

Definition alternativeSnippetSelectors : list string :=
  [ ".VwiC3b"; "[data-sncf='1']"; "div[style*='webkit-line-clamp']"; "div[role='text']" ].

(** *** Loop state: the [results] array and the [seenUrls] set *)

Record Acc := {
  results : list SearchResult;
  seenUrls : gset string;
}.

Definition emptyAcc : Acc := {| results := []; seenUrls := ∅ |}.

Definition push (r : SearchResult) (acc : Acc) : Acc :=
  {| results := results acc ++ [r]; seenUrls := {[ link r ]} ∪ seenUrls acc |}.

(** [results.length >= maxResults] *)
Definition full (maxResults : JsNumber) (acc : Acc) : bool :=
  lengthGe (length (results acc)) maxResults.

(** *** Primary pass *)

(** [while (current && current.tagName !== 'A') current = current.parentElement] *)
Fixpoint walkUp (chain : list Ancestor) : option Ancestor :=
  match chain with
  | [] => None
  | current :: up => if String.eqb (tagName current) "A" then Some current else walkUp up
  end.

(** [containerLink ? containerLink.href : ''] *)
Definition containerHref (c : Container) : HrefValue :=
  match containerLink c with
  | Some h => h
  | None => HrefString ""
  end.

Definition findLink (titleElement : TitleElement) (c : Container) : HrefValue :=
  match linkInTitle titleElement with
  | Some h => h
  | None =>
      match walkUp (ancestors titleElement) with
      | Some current =>
          if isHTMLAnchorElement current then HrefString (ancestorHref current)
          else containerHref c
      | None => containerHref c
      end
  end.

(** The [for (const altSelector of alternativeSnippetSelectors)] loop: the
    first selector that matches an element decides, also when its text
    trims to the empty string. *)
Fixpoint altSnippet (c : Container) (sels : list string) : string :=
  match sels with
  | [] => ""
  | altSelector :: rest =>
      match queryText c altSelector with
      | Some text => trim text
      | None => altSnippet c rest
      end
  end.

Definition genericSnippet (c : Container) : string :=
  let textNodes :=
    List.filter (fun el => negb (containsH3 el) &&
                          (20 <? jsLength (trim (divTextContent el)))%nat)
                (divs c) in
  match textNodes with
  | el :: _ => trim (divTextContent el)
  | [] => ""
  end.

Definition findSnippet (selectors : SelectorSet) (c : Container) : string :=
  match queryText c (snippetSel selectors) with
  | Some text => trim text
  | None =>
      let snippet := altSnippet c alternativeSnippetSelectors in
      if negb (truthy snippet) then genericSnippet c else snippet
  end.

(** One iteration of the inner loop, after its [break] test.  [None]: the
    callback throws, on [link.startsWith] of a link that is no string. *)
Definition visitContainer (selectors : SelectorSet) (c : Container) (acc : Acc)
  : option Acc :=
  match queryTitle c (titleSel selectors) with
  | None => Some acc
  | Some titleElement =>
      let title := trim (titleTextContent titleElement) in
      match findLink titleElement c with
      | HrefUndefined => Some acc
      | HrefAnimated => None
      | HrefString link =>
          if negb (truthy link) || negb (startsWith "http" link)
             || bool_decide (link ∈ seenUrls acc)
          then Some acc
          else
            let snippet := findSnippet selectors c in
            if truthy title && truthy link
            then Some (push {| title := title; link := link; snippet := snippet |} acc)
            else Some acc
      end
  end.

Fixpoint containerLoop (maxResults : JsNumber) (selectors : SelectorSet)
         (containers : list Container) (acc : Acc) : option Acc :=
  match containers with
  | [] => Some acc
  | c :: rest =>
      if full maxResults acc then Some acc
      else match visitContainer selectors c acc with
           | Some acc' => containerLoop maxResults selectors rest acc'
           | None => None
           end
  end.

Fixpoint selectorLoop (maxResults : JsNumber) (page : Page)
         (sets : list SelectorSet) (acc : Acc) : option Acc :=
  match sets with
  | [] => Some acc
  | selectors :: rest =>
      if full maxResults acc then Some acc
      else match containerLoop maxResults selectors
                   (querySelectorAll page (container selectors)) acc with
           | Some acc' => selectorLoop maxResults page rest acc'
           | None => None
           end
  end.

Definition primaryPass (maxResults : JsNumber) (page : Page) : option Acc :=
  selectorLoop maxResults page selectorSets emptyAcc.

(** *** Fallback pass *)

(** [for (let i = 0; i < 3 && parent; i++)] *)
Fixpoint surroundingText (i : nat) (title : string) (parents : list string) : string :=
  match i, parents with
  | S i', parent :: up =>
      let text := trim parent in
      if (20 <? jsLength text)%nat && negb (String.eqb text title) then text
      else surroundingText i' title up
  | _, _ => ""
  end.

Definition excludedLink (link : string) : bool :=
  includes "google.com/" link || includes "accounts.google" link
  || includes "support.google" link.

Definition visitAnchor (el : AnchorElement) (acc : Acc) : Acc :=
  if negb (isHTMLAnchor el) then acc
  else
    let link := href el in
    if negb (truthy link) || bool_decide (link ∈ seenUrls acc) || excludedLink link
    then acc
    else
      let title := trim (anchorTextContent el) in
      if negb (truthy title) then acc
      else
        let snippet := surroundingText 3 title (parentTexts el) in
        push {| title := title; link := link; snippet := snippet |} acc.

Fixpoint anchorLoop (maxResults : JsNumber) (els : list AnchorElement) (acc : Acc)
  : Acc :=
  match els with
  | [] => acc
  | el :: rest =>
      if full maxResults acc then acc
      else anchorLoop maxResults rest (visitAnchor el acc)
  end.

Definition fallbackPass (maxResults : JsNumber) (page : Page) (acc : Acc) : Acc :=
  if lengthLt (length (results acc)) maxResults
  then anchorLoop maxResults (anchorElements page) acc
  else acc.

(** [arr.slice(0, end)]: [end] is made an integer by rounding towards zero
    ([NaN] becomes 0); a negative [end] counts from the end of the array. *)
Definition slice0 {A} (l : list A) (e : JsNumber) : list A :=
  let len := Z.of_nat (length l) in
  match e with
  | Num q =>
      let relativeEnd := truncate q in
      let final := if (relativeEnd <? 0)%Z then Z.max (len + relativeEnd) 0
                   else Z.min relativeEnd len in
      take (Z.to_nat final) l
  | NaN => take 0 l
  | PosInfinity => take (length l) l
  | NegInfinity => take 0 l
  end.

(** The whole callback; [None] when it throws. *)
Definition extract (page : Page) (maxResults : JsNumber)
  : option (list SearchResult) :=
  match primaryPass maxResults page with
  | Some acc =>
      let acc := fallbackPass maxResults page acc in
      Some (slice0 (results acc) maxResults)
  | None => None
  end.

(** *** The fallback pass as the specification words it

    Among the anchors, in document order, keep those that are HTML anchors
    with a non-empty link that was not recorded by the primary pass, does
    not contain one of the excluded markers and has non-empty text; keep
    the first anchor of each link; take as many as are missing. *)

Definition eligible (seen : gset string) (el : AnchorElement) : bool :=
  isHTMLAnchor el && truthy (href el)
  && negb (bool_decide (href el ∈ seen))
  && negb (excludedLink (href el))
  && truthy (trim (anchorTextContent el)).

Fixpoint firstPerLink (seen : gset string) (els : list AnchorElement)
  : list AnchorElement :=
  match els with
  | [] => []
  | el :: rest =>
      if eligible seen el
      then el :: firstPerLink ({[ href el ]} ∪ seen) rest
      else firstPerLink seen rest
  end.

Definition recordOfAnchor (el : AnchorElement) : SearchResult :=
  let title := trim (anchorTextContent el) in
  {| title := title; link := href el;
     snippet := surroundingText 3 title (parentTexts el) |}.

(** The least array length at which [results.length >= maxResults] holds:
    the limit rounded up; [None] when no length reaches it. *)
Definition cap (maxResults : JsNumber) : option nat :=
  match maxResults with
  | Num q => Some (Z.to_nat (- ((- Qnum q) / Zpos (Qden q))))
  | NaN => None
  | PosInfinity => None
  | NegInfinity => Some 0
  end.

(** How many records a loop may still add. *)
Definition room (maxResults : JsNumber) (acc : Acc) : option nat :=
  (fun c => c - length (results acc)) <$> cap maxResults.

Definition takeUpTo {A} (n : option nat) (l : list A) : list A :=
  match n with
  | Some n => take n l
  | None => l
  end.

Definition fallbackRecords (maxResults : JsNumber) (page : Page) (primary : Acc)
  : list SearchResult :=
  map recordOfAnchor
      (takeUpTo (room maxResults primary)
                (firstPerLink (seenUrls primary) (anchorElements page))).

(** *** The whole extraction as the specification words it

    Every container and every anchor offers at most one record; the offers
    are taken in visiting order, an offer whose link was taken before is
    dropped (first occurrence wins), and the first [maxResults] remain. *)

(** What a container offers under a selector set. *)
Definition candidate (selectors : SelectorSet) (c : Container) : option SearchResult :=
  match queryTitle c (titleSel selectors) with
  | None => None
  | Some titleElement =>
      let title := trim (titleTextContent titleElement) in
      match findLink titleElement c with
      | HrefString link =>
          if truthy link && startsWith "http" link && truthy title
          then Some {| title := title; link := link;
                       snippet := findSnippet selectors c |}
          else None
      | _ => None
      end
  end.

(** A container at which the callback throws: the first [a] under its title,
    or else under the container, is an SVG anchor. *)
Definition throwsAtContainer (selectors : SelectorSet) (c : Container) : bool :=
  match queryTitle c (titleSel selectors) with
  | None => false
  | Some titleElement =>
      match findLink titleElement c with
      | HrefAnimated => true
      | _ => false
      end
  end.

(** What an anchor offers. *)
Definition anchorCandidate (el : AnchorElement) : option SearchResult :=
  if isHTMLAnchor el && truthy (href el) && negb (excludedLink (href el))
     && truthy (trim (anchorTextContent el))
  then Some (recordOfAnchor el)
  else None.

Definition primaryCandidates (page : Page) : list SearchResult :=
  concat (map (fun selectors =>
                 omap (candidate selectors)
                      (querySelectorAll page (container selectors)))
              selectorSets).

Definition candidates (page : Page) : list SearchResult :=
  (primaryCandidates page ++ omap anchorCandidate (anchorElements page))%list.

(** Drop every record whose link is among [have] or belongs to an earlier
    record of the list. *)
Fixpoint keepFirst (have : list string) (rs : list SearchResult)
  : list SearchResult :=
  match rs with
  | [] => []
  | r :: rest =>
      if bool_decide (link r ∈ have) then keepFirst have rest
      else r :: keepFirst (have ++ [link r]) rest
  end.

(** How many records [slice] keeps: the limit rounded down; [None] for all
    of them. *)
Definition kept (maxResults : JsNumber) : option nat :=
  match maxResults with
  | Num q => Some (Z.to_nat (Qnum q / Zpos (Qden q)))
  | NaN => Some 0
  | PosInfinity => None
  | NegInfinity => Some 0
  end.

(** No container of the page has an SVG anchor where its link is looked
    for. *)
Definition htmlLinksOnly (page : Page) : Prop :=
  forall selectors c,
    selectors ∈ selectorSets ->
    c ∈ querySelectorAll page (container selectors) ->
    throwsAtContainer selectors c = false.

(** What [document.querySelectorAll("a[href^='http']")] guarantees in a
    document served over HTTP(S): the resolved [href] of every element it
    returns begins with [http]. *)
Definition anchorsAbsolute (page : Page) : Prop :=
  Forall (fun el => startsWith "http" (href el) = true) (anchorElements page).

End Extract.


(* ===================================================================== *)
(** ** Cleaning the markup: the three [replace] calls of
       [performSearchAndGetHtml] *)
(* ===================================================================== *)

(** Each call is [html.replace(re, '')] with a global, case-insensitive
    regular expression without the [u] flag: the matches are looked for
    from left to right in the string as it is, each search starting where
    the last match ended, and every match is taken out.  A letter of a
    pattern matches its two ASCII cases and nothing else. *)
Module Markup.
Import JsString.

Definition lower (c : ascii) : ascii :=
  let n := nat_of_ascii c in
  if (65 <=? n)%nat && (n <=? 90)%nat then ascii_of_nat (n + 32) else c.

(** [s] begins with the lower-case pattern [p], whatever the case of its
    letters. *)
Fixpoint startsWithCI (p s : string) : bool :=
  match p, s with
  | EmptyString, _ => true
  | String a p', String b s' =>
      if Ascii.eqb a (lower b) then startsWithCI p' s' else false
  | String _ _, EmptyString => false
  end.

(** A character of [\w]. *)
Definition isWordChar (c : ascii) : bool :=
  let n := nat_of_ascii c in
  ((97 <=? n) && (n <=? 122) || (65 <=? n) && (n <=? 90)
   || (48 <=? n) && (n <=? 57) || (n =? 95))%nat.

(** [\b] after a letter: what follows is no word character. *)
Definition atWordBoundary (s : string) : bool :=
  match s with
  | EmptyString => true
  | String c _ => negb (isWordChar c)
  end.

(** The number of bytes up to the end of the first occurrence of [p]. *)
Fixpoint endOfFirstCI (p s : string) : option nat :=
  if startsWithCI p s then Some (String.length p)
  else match s with
       | EmptyString => None
       | String _ s' => S <$> endOfFirstCI p s'
       end.

(** The length of the match, at the beginning of [s], of the expression
    for a whole element: the opening name followed by a word boundary, then
    every run without [<] and every [<] that does not begin the closing
    tag, then the closing tag.  So the match ends with the first closing
    tag; without one there is no match. *)
Definition elementLength (tag : string) (s : string) : option nat :=
  let opening := "<" ++ tag in
  if startsWithCI opening s then
    let rest := dropn (String.length opening) s in
    if atWordBoundary rest then
      match endOfFirstCI ("</" ++ tag ++ ">") rest with
      | Some n => Some (String.length opening + n)
      | None => None
      end
    else None
  else None.

Definition isQuote (c : ascii) : bool :=
  (nat_of_ascii c =? 34)%nat || (nat_of_ascii c =? 39)%nat.

(** The attribute [rel] with the value [stylesheet] between two quotes of
    either kind, at the beginning of [s]. *)
Definition relStylesheetAt (s : string) : bool :=
  startsWithCI "rel=" s
  && match dropn 4 s with
     | String q1 rest =>
         isQuote q1 && startsWithCI "stylesheet" rest
         && match dropn 10 rest with
            | String q2 _ => isQuote q2
            | EmptyString => false
            end
     | EmptyString => false
     end.

(** The part of [s] before its first [>], and whether there is one. *)
Fixpoint beforeGreater (s : string) : option string :=
  match s with
  | EmptyString => None
  | String c s' =>
      if (nat_of_ascii c =? 62)%nat then Some EmptyString
      else String c <$> beforeGreater s'
  end.

Fixpoint somewhere (test : string -> bool) (s : string) : bool :=
  test s ||
  match s with
  | EmptyString => false
  | String _ s' => somewhere test s'
  end.

(** The length of the match, at the beginning of [s], of the expression
    for a style sheet link: the name [link], white space, then the [rel]
    attribute somewhere before the first [>], where the match ends. *)
Definition linkLength (s : string) : option nat :=
  if startsWithCI "<link" s then
    let rest := dropn 5 s in
    match spaceLength rest with
    | O => None
    | S k =>
        match beforeGreater (dropn (S k) rest) with
        | Some segment =>
            if somewhere relStylesheetAt segment
            then Some (5 + S k + String.length segment + 1)
            else None
        | None => None
        end
    end
  else None.

(** Take out every match, from left to right; [skip] bytes of the current
    match are still to be passed over. *)
Fixpoint removeMatches (matchLength : string -> option nat) (skip : nat)
         (s : string) : string :=
  match s with
  | EmptyString => EmptyString
  | String c s' =>
      match skip with
      | S k => removeMatches matchLength k s'
      | O =>
          match matchLength s with
          | Some (S n) => removeMatches matchLength n s'
          | _ => String c (removeMatches matchLength 0 s')
          end
      end
  end.

Definition stripStyleAndScript (fullHtml : string) : string :=
  let html := removeMatches (elementLength "style") 0 fullHtml in
  let html := removeMatches linkLength 0 html in
  removeMatches (elementLength "script") 0 html.

End Markup.


(* ===================================================================== *)
(** ** The orchestrator: state, runtime answers and the monad *)
(* ===================================================================== *)

Module Search.
Import JsString JsValue.

Record SearchResponse := {
  query : string;
  results : list SearchResult;
}.

Record HtmlResponse := {
  htmlQuery : string;
  html : string;
  url : string;
  savedPath : option string;
  screenshotPath : option string;
  originalHtmlLength : nat;
}.

(** [CommandOptions]: every key is optional. *)
Record CommandOptions := {
  opt_limit : option JsNumber;
  opt_timeout : option Z;
  opt_stateFile : option string;
  opt_noSaveState : option bool;
  opt_locale : option string;
}.

(** [let savedState: SavedState = {}] *)
Definition emptySavedState : Json := JObject [].

(** [savedState.fingerprint] and [savedState.googleDomain], where the saved
    state is not [null]. *)
Definition fingerprint (saved : Json) : option Json := getProp "fingerprint" saved.
Definition googleDomain (saved : Json) : option Json := getProp "googleDomain" saved.

(** The value a test such as [if (savedState.fingerprint)] lets through. *)
Definition whenTruthy (v : option Json) : option Json :=
  match v with
  | Some j => if truthyJ j then Some j else None
  | None => None
  end.

(** *** The file system

    A path maps to what is stored there: a directory, a regular file whose
    text is JSON (kept as the value [JSON.parse] returns for it), or a
    regular file whose text is no JSON. *)
Inductive FileContent :=
| Directory
| JsonFile (value : Json)
| OtherFile.

(** *** The browser runtime *)

Inductive Browser :=
| Provided (headless : bool)               (* launched by the caller *)
| Launched (id : nat) (headless : bool).   (* launched by this call *)

Definition isHeadless (b : Browser) : bool :=
  match b with Provided h | Launched _ h => h end.

(** The context options the code sets; [device] is the key whose entry of
    [devices] was spread into them, and an identity property that the
    stored identity lacks is [undefined]. *)
Record ContextOptions := {
  device : Json;
  co_locale : option Json;
  co_timezoneId : option Json;
  co_colorScheme : option Json;
  co_reducedMotion : option Json;
  co_forcedColors : option Json;
  co_isMobile : bool;
  co_hasTouch : bool;
  co_storageState : option string;
}.

(** What the call did to the runtime and to the disk, in order. *)
Inductive Event :=
| Launch (b : Browser)
| NewContext (b : Browser) (opts : ContextOptions)
| NewPage (b : Browser)
| Goto (b : Browser) (target : Json)
| WaitForNavigation (b : Browser)
| ClosePage (b : Browser)
| CloseContext (b : Browser)
| CloseBrowser (b : Browser)
| StorageState (path : string)
| WriteFile (path : string)
| Mkdir (path : string).

(** The three places where the page location is tested for a challenge. *)
Inductive Checkpoint := AfterNavigation | AfterSearch | DuringResults.

(** The two copies of the persistence block. *)
Inductive SavePath := OnSuccess | OnError.

(** Every awaited or throwing call of the two operations. *)
Inductive Site :=
| SReadFingerprint
| SLaunch | SNewContext | SContextInitScript | SNewPage | SPageInitScript
| SGoto
| SPageClose (cp : Checkpoint) | SContextClose (cp : Checkpoint)
| SLaunchHeaded (cp : Checkpoint) | STempContext (cp : Checkpoint)
| STempPage (cp : Checkpoint) | SCloseTemp (cp : Checkpoint)
| SCloseTempOnError (cp : Checkpoint) | SCloseOwned (cp : Checkpoint)
| SWaitForNavigation (cp : Checkpoint)
| SQueryInput (selector : string)
| SClick | SType | SWaitBeforeEnter | SPressEnter
| SWaitLoad | SWaitLoadVerified
| SWaitBeforeExtract | SEvaluate
| SMkdir (sp : SavePath) | SStorageState (sp : SavePath)
| SWriteFingerprint (sp : SavePath)
| SCloseFinal | SCloseOnError
| SWaitStable | SWaitLoadStable | SContent
| SMkdirOutput | SMkdirFileDir | SWriteHtml | SScreenshot.

(** How the outside answers during one call.  The first argument of most
    fields is the [headless] flag of the attempt that asks. *)
Record World := {
  host : Host;
  throwsAt : bool -> Site -> option string;   (* the message, if the call throws *)
  randomDevice : bool -> nat;                 (* [Math.random()] in [getDeviceConfig] *)
  randomDomain : bool -> nat;                 (* [Math.random()] for the domain *)
  deviceKnown : Json -> bool;                 (* [devices[name]] is truthy *)
  typeErrorMessage : Json -> string;          (* of the [TypeError] for a property
                                                 read on, or assigned to, the value *)
  landingUrl : bool -> string;                (* [page.url()] after [goto] *)
  responseUrl : bool -> option string;        (* [response.url()], no response: [None] *)
  urlAfterSearch : bool -> string;
  urlDuringResults : bool -> string;
  inputPresent : bool -> string -> bool;      (* [page.$(selector)] is non-null *)
  selectorAppears : bool -> bool -> string -> bool; (* second flag: after verification *)
  renderedPage : bool -> Extract.Page;
  callbackError : bool -> string;             (* how [page.evaluate] reports an
                                                 exception of its callback *)
  sessionCookies : bool -> list Json;         (* what [storageState] writes *)
  sessionOrigins : bool -> list Json;
  finalUrl : bool -> string;
  pageContent : bool -> string;
  autoOutputPath : string;                    (* [outputDir/sanitizedQuery-timestamp.html] *)
}.

(** The calls made before a [try] block is entered. *)
Definition beforeTry (site : Site) : bool :=
  match site with
  | SLaunch | SNewContext | SContextInitScript | SNewPage | SPageInitScript => true
  | _ => false
  end.

(** The calls made outside every [try] block: before it, and the release of
    the browser inside the [catch] block. *)
Definition unguarded (site : Site) : bool :=
  match site with
  | SLaunch | SNewContext | SContextInitScript | SNewPage | SPageInitScript
  | SCloseOnError => true
  | _ => false
  end.

(** The calls of the persistence block. *)
Definition persistenceSite (site : Site) : bool :=
  match site with
  | SMkdir _ | SStorageState _ | SWriteFingerprint _ => true
  | _ => false
  end.

(** The same world with other answers to the throwing calls. *)
Definition withThrows (w : World) (answers : bool -> Site -> option string)
  : World :=
  {| host := host w;
     throwsAt := answers;
     randomDevice := randomDevice w;
     randomDomain := randomDomain w;
     deviceKnown := deviceKnown w;
     typeErrorMessage := typeErrorMessage w;
     landingUrl := landingUrl w;
     responseUrl := responseUrl w;
     urlAfterSearch := urlAfterSearch w;
     urlDuringResults := urlDuringResults w;
     inputPresent := inputPresent w;
     selectorAppears := selectorAppears w;
     renderedPage := renderedPage w;
     callbackError := callbackError w;
     sessionCookies := sessionCookies w;
     sessionOrigins := sessionOrigins w;
     finalUrl := finalUrl w;
     pageContent := pageContent w;
     autoOutputPath := autoOutputPath w |}.

Record RunState := {
  fs : gmap string FileContent;
  savedState : Json;
  events : list Event;
  launched : nat;
}.

Inductive Outcome (A : Type) :=
| Ok (a : A)
| Throw (message : string)
| OutOfFuel.
Arguments Ok {A} a.
Arguments Throw {A} message.
Arguments OutOfFuel {A}.

Definition M (A : Type) : Type := RunState -> Outcome A * RunState.

Definition ret {A} (a : A) : M A := fun s => (Ok a, s).

Definition throw {A} (message : string) : M A := fun s => (Throw message, s).

Definition bind {A B} (m : M A) (k : A -> M B) : M B :=
  fun s =>
    match m s with
    | (Ok a, s') => k a s'
    | (Throw e, s') => (Throw e, s')
    | (OutOfFuel, s') => (OutOfFuel, s')
    end.

(** [try { m } catch (error) { handler error }] *)
Definition tryCatch {A} (m : M A) (handler : string -> M A) : M A :=
  fun s =>
    match m s with
    | (Throw e, s') => handler e s'
    | r => r
    end.

Declare Scope search_scope.
Delimit Scope search_scope with search.
Notation "'let*' x ':=' m 'in' k" := (bind m (fun x => k))
  (at level 10, x pattern, m at level 100, k at level 200) : search_scope.
Notation "m ';;' k" := (bind m (fun _ => k))
  (at level 100, k at level 200, right associativity) : search_scope.
Local Open Scope search_scope.

Definition getSavedState : M Json := fun s => (Ok (savedState s), s).

(** What is stored at a path, if anything. *)
Definition lookupPath (path : string) : M (option FileContent) :=
  fun s => (Ok (fs s !! path), s).

Definition emit (e : Event) : M unit :=
  fun s => (Ok tt, {| fs := fs s; savedState := savedState s;
                      events := events s ++ [e]; launched := launched s |}).

Definition setSavedState (saved : Json) : M unit :=
  fun s => (Ok tt, {| fs := fs s; savedState := saved;
                      events := events s; launched := launched s |}).

Definition writePath (path : string) (c : FileContent) : M unit :=
  fun s => (Ok tt, {| fs := <[path := c]> (fs s); savedState := savedState s;
                      events := events s; launched := launched s |}).

Definition freshBrowser (headless : bool) : M Browser :=
  fun s => (Ok (Launched (launched s) headless),
            {| fs := fs s; savedState := savedState s;
               events := events s ++ [Launch (Launched (launched s) headless)];
               launched := S (launched s) |}).

(** [fs.existsSync(path)] *)
Definition existsSync (path : string) : M bool :=
  fun s => (Ok (bool_decide (is_Some (fs s !! path))), s).

(** [p.replace(/\.html$/, '.png')] *)
Fixpoint replaceHtmlSuffix (p : string) : string :=
  if String.eqb p ".html" then ".png"
  else match p with
       | EmptyString => EmptyString
       | String c p' => String c (replaceHtmlSuffix p')
       end.

(** *** [path.dirname], POSIX flavour

    Node scans the path from its end down to its second character: the
    separators at the very end are passed over, then the last component;
    the separator met next is where the directory ends.  The scan below
    runs over the reversed rest of the path. *)

Definition isSlash (c : ascii) : bool := Ascii.eqb c "/".

Fixpoint dropSlashes (s : string) : string :=
  match s with
  | String c s' => if isSlash c then dropSlashes s' else s
  | EmptyString => s
  end.

(** What remains after the component the string begins with and the
    separator that ends it; [None] when no separator follows. *)
Fixpoint afterComponent (s : string) : option string :=
  match s with
  | String c s' => if isSlash c then Some s' else afterComponent s'
  | EmptyString => None
  end.

Definition dirname (p : string) : string :=
  match p with
  | EmptyString => "."
  | String first rest =>
      let hasRoot := isSlash first in
      match afterComponent (dropSlashes (reversed rest)) with
      | None => if hasRoot then "/" else "."
      | Some before =>
          if hasRoot && negb (truthy before) then "//"
          else String first (reversed before)
      end
  end.

(** A directory and the directories above it, up to the one that is its own
    parent. *)
Fixpoint ancestry (fuel : nat) (dir : string) : list string :=
  match fuel with
  | O => [dir]
  | S fuel' =>
      let parent := dirname dir in
      if String.eqb parent dir then [dir] else dir :: ancestry fuel' parent
  end.

(** The disk with a directory at each of the paths that had nothing. *)
Definition withDirectories (dirs : list string) (disk : gmap string FileContent)
  : gmap string FileContent :=
  foldr (fun dir m => match m !! dir with
                      | Some _ => m
                      | None => <[dir := Directory]> m
                      end) disk dirs.

Definition makeDirectories (dirs : list string) : M unit :=
  fun s => (Ok tt, {| fs := withDirectories dirs (fs s); savedState := savedState s;
                      events := events s; launched := launched s |}).

Section Runtime.
Variable w : World.

(** A call that the runtime may reject. *)
Definition call (headless : bool) (site : Site) : M unit :=
  fun s =>
    match throwsAt w headless site with
    | None => (Ok tt, s)
    | Some e => (Throw e, s)
    end.

(** [chromium.launch({ headless: mode, ... })] *)
Definition launch (headless : bool) (site : Site) (mode : bool) : M Browser :=
  call headless site;; freshBrowser mode.

Definition newContext (headless : bool) (site : Site) (b : Browser)
           (opts : ContextOptions) : M unit :=
  emit (NewContext b opts);; call headless site.

Definition newPage (headless : bool) (site : Site) (b : Browser) : M unit :=
  emit (NewPage b);; call headless site.

Definition closePage (headless : bool) (site : Site) (b : Browser) : M unit :=
  emit (ClosePage b);; call headless site.

Definition closeContext (headless : bool) (site : Site) (b : Browser) : M unit :=
  emit (CloseContext b);; call headless site.

Definition closeBrowser (headless : bool) (site : Site) (b : Browser) : M unit :=
  emit (CloseBrowser b);; call headless site.

(** [fs.mkdirSync(dir, { recursive: true })]: the directory and every
    missing directory above it. *)
Definition mkdirSync (headless : bool) (site : Site) (dir : string) : M unit :=
  emit (Mkdir dir);; call headless site;;
  makeDirectories (ancestry (S (String.length dir)) dir).

(** The session Playwright serialises: an object with the cookies and the
    origins of the context. *)
Definition sessionJson (headless : bool) : Json :=
  JObject [ ("cookies", JArray (sessionCookies w headless) []);
            ("origins", JArray (sessionOrigins w headless) []) ].

(** [context.storageState({ path })] *)
Definition storageState (headless : bool) (site : Site) (path : string) : M unit :=
  emit (StorageState path);; call headless site;;
  writePath path (JsonFile (sessionJson headless)).

(** [fs.writeFileSync(path, JSON.stringify(savedState, null, 2), "utf8")] *)
Definition writeSavedState (headless : bool) (site : Site) (path : string) : M unit :=
  emit (WriteFile path);; call headless site;;
  let* saved := getSavedState in
  writePath path (JsonFile (stringified saved)).

(** Writing markup or an image: text that is no JSON. *)
Definition writeOther (headless : bool) (site : Site) (path : string) : M unit :=
  emit (WriteFile path);; call headless site;; writePath path OtherFile.

End Runtime.

(* =================================================================== *)
(** ** [googleSearch] *)
(* =================================================================== *)

(** [return value] or [return performSearch(false)] out of the [try] block:
    the second is not awaited, so the enclosing [catch] never sees what the
    restarted run throws. *)
Inductive Step (A : Type) :=
| Done (a : A)
| Restart.
Arguments Done {A} a.
Arguments Restart {A}.

(** What the enclosing function holds when the [try] block is entered. *)
Record Session := {
  browser : Browser;
  browserWasProvided : bool;
  contextOptions : ContextOptions;
}.

Definition deviceList : list string :=
  [ "Desktop Chrome"; "Desktop Edge"; "Desktop Firefox"; "Desktop Safari" ].

Definition googleDomains : list string :=
  [ "https://www.google.com"; "https://www.google.co.uk";
    "https://www.google.ca"; "https://www.google.com.au" ].

Definition sorryPatterns : list string :=
  [ "google.com/sorry/index"; "google.com/sorry"; "recaptcha"; "captcha";
    "unusual traffic" ].

Definition searchInputSelectors : list string :=
  [ "textarea[name='q']"; "input[name='q']"; "textarea[title='Search']";
    "input[title='Search']"; "textarea[aria-label='Search']";
    "input[aria-label='Search']"; "textarea" ].

Definition searchResultSelectors : list string :=
  [ "#search"; "#rso"; ".g"; "[data-sokoban-container]"; "div[role='main']" ].

(** [sorryPatterns.some((pattern) => url.includes(pattern))] *)
Definition isBlocked (url : string) : bool :=
  existsb (fun pattern => includes pattern url) sorryPatterns.

Definition isBlockedPage (currentUrl : string) (response : option string) : bool :=
  existsb (fun pattern =>
             includes pattern currentUrl
             || match response with
                | Some r => includes pattern r
                | None => false
                end) sorryPatterns.

(** The synthetic record of the [catch] block of [performSearch]. *)
Definition failureRecord (message : string) : SearchResult :=
  {| title := "搜索失败"; link := "";
     snippet := "无法完成搜索，错误信息: " ++ message |}.

(** The message of the error [performSearchAndGetHtml] rethrows. *)
Definition wrapHtmlError (message : string) : string :=
  "Google 검색 페이지 HTML 가져오기 실패: " ++ message.

(** The context options that present the identity [fp]: each of its five
    properties as it is read, and the desktop overrides. *)
Definition optionsOf (device : Json) (fp : Json) : ContextOptions :=
  {| device := device;
     co_locale := getProp "locale" fp;
     co_timezoneId := getProp "timezoneId" fp;
     co_colorScheme := getProp "colorScheme" fp;
     co_reducedMotion := getProp "reducedMotion" fp;
     co_forcedColors := getProp "forcedColors" fp;
     co_isMobile := false; co_hasTouch := false;
     co_storageState := None |}.

Section Operations.
Variable w : World.
Variable searchQuery : string.        (* the parameter [query] *)
Variable options : CommandOptions.

Definition limit : JsNumber := default (ofZ 10) (opt_limit options).
Definition stateFile : string := default "./browser-state.json" (opt_stateFile options).
Definition noSaveState : bool := default false (opt_noSaveState options).
Definition userLocale : string := default "ko-KR" (opt_locale options).

Definition fingerprintFile : string :=
  replace ".json" "-fingerprint.json" stateFile.

(** The prologue shared by both operations: which session file to hand
    to the context, and the stored identity, if any.  Whatever
    [JSON.parse] returns becomes the saved state.  Returns the
    [storageState] variable. *)
Definition loadSavedState : M (option string) :=
  let* present := existsSync stateFile in
  if present then
    (let* fpPresent := existsSync fingerprintFile in
     if fpPresent then
       tryCatch
         (call w true SReadFingerprint;;
          let* fingerprintData := lookupPath fingerprintFile in
          match fingerprintData with
          | Some (JsonFile value) => setSavedState value
          | Some OtherFile => throw "SyntaxError"
          | Some Directory => throw "EISDIR"
          | None => throw "ENOENT"
          end)
         (fun _ => ret tt)
     else ret tt);;
    ret (Some stateFile)
  else ret None.

(** [getDeviceConfig]: the key of the device descriptor.  The read of
    [savedState.fingerprint] throws when the saved state is [null]. *)
Definition getDeviceConfig (headless : bool) : M Json :=
  let* saved := getSavedState in
  match saved with
  | JNull => throw (typeErrorMessage w saved)
  | _ =>
      let storedName :=
        match fingerprint saved with
        | Some JNull | None => None           (* [?.] on [null] or [undefined] *)
        | Some fp => getProp "deviceName" fp
        end in
      if truthyV storedName && deviceKnown w (default JNull storedName)
      then ret (default JNull storedName)
      else
        let randomDevice :=
          nth (randomDevice w headless mod 4) deviceList "Desktop Chrome" in
        ret (JString randomDevice)
  end.

(** The context options up to and including the desktop overrides.  The
    assignment [savedState.fingerprint = hostConfig] throws when the saved
    state is a primitive value. *)
Definition buildContextOptions (headless : bool) : M ContextOptions :=
  let* deviceType := getDeviceConfig headless in
  let* saved := getSavedState in
  match whenTruthy (fingerprint saved) with
  | Some fp => ret (optionsOf deviceType fp)
  | None =>
      let hostConfig := getHostMachineConfig (host w) (Some userLocale) in
      let contextOptions :=
        optionsOf (JString (deviceName hostConfig)) (fingerprintJson hostConfig) in
      match setProp "fingerprint" (fingerprintJson hostConfig) saved with
      | Some saved' => setSavedState saved';; ret contextOptions
      | None => throw (typeErrorMessage w saved)
      end
  end.

(** [storageState ? { ...contextOptions, storageState } : contextOptions] *)
Definition withStorageState (opts : ContextOptions) (storage : option string)
  : ContextOptions :=
  match storage with
  | Some path =>
      if truthy path then
        {| device := device opts; co_locale := co_locale opts;
           co_timezoneId := co_timezoneId opts;
           co_colorScheme := co_colorScheme opts;
           co_reducedMotion := co_reducedMotion opts;
           co_forcedColors := co_forcedColors opts;
           co_isMobile := co_isMobile opts; co_hasTouch := co_hasTouch opts;
           co_storageState := Some path |}
      else opts
  | None => opts
  end.

(** The domain to go to: the stored one if it is truthy, else one of the
    list, which is then remembered. *)
Definition selectDomain (headless : bool) : M Json :=
  let* saved := getSavedState in
  match saved with
  | JNull => throw (typeErrorMessage w saved)
  | _ =>
      match whenTruthy (googleDomain saved) with
      | Some d => ret d
      | None =>
          let selectedDomain :=
            JString (nth (randomDomain w headless mod 4) googleDomains "") in
          match setProp "googleDomain" selectedDomain saved with
          | Some saved' => setSavedState saved';; ret selectedDomain
          | None => throw (typeErrorMessage w saved)
          end
      end
  end.

(** The persistence block; it is written out twice in each operation. *)
Definition saveBrowserState (headless : bool) (sp : SavePath) : M unit :=
  tryCatch
    (if negb noSaveState then
       let stateDir := dirname stateFile in
       let* present := existsSync stateDir in
       (if negb present then mkdirSync w headless (SMkdir sp) stateDir
        else ret tt);;
       storageState w headless (SStorageState sp) stateFile;;
       tryCatch (writeSavedState w headless (SWriteFingerprint sp) fingerprintFile)
                (fun _ => ret tt)
     else ret tt)
    (fun _ => ret tt).

(** The [for (const selector of searchInputSelectors)] loop. *)
Fixpoint findSearchInput (headless : bool) (selectors : list string) : M bool :=
  match selectors with
  | [] => ret false
  | selector :: rest =>
      call w headless (SQueryInput selector);;
      if inputPresent w headless selector then ret true
      else findSearchInput headless rest
  end.

(** The loop over [searchResultSelectors]: a [waitForSelector] that
    throws is caught and the next selector is tried. *)
Definition waitForResults (headless verified : bool) : bool :=
  existsb (selectorAppears w headless verified) searchResultSelectors.

Section PerformSearch.
Variable existingBrowser : option Browser.
Variable storage : option string.    (* the [storageState] variable *)

(** From the top of [performSearch] to the [try]. *)
Definition openSession (headless : bool) : M Session :=
  let* (browser, browserWasProvided) :=
    match existingBrowser with
    | Some b => ret (b, true)
    | None =>
        let* b := launch w headless SLaunch headless in
        ret (b, false)
    end in
  let* contextOptions := buildContextOptions headless in
  newContext w headless SNewContext browser
             (withStorageState contextOptions storage);;
  call w headless SContextInitScript;;
  newPage w headless SNewPage browser;;
  call w headless SPageInitScript;;
  ret {| browser := browser; browserWasProvided := browserWasProvided;
         contextOptions := contextOptions |}.

(** The [if (headless)] branch of a checkpoint. *)
Definition restartHeaded {A} (cp : Checkpoint) (ses : Session) (headless : bool)
  : M (Step A) :=
  closePage w headless (SPageClose cp) (browser ses);;
  closeContext w headless (SContextClose cp) (browser ses);;
  if browserWasProvided ses then
    let* newBrowser := launch w headless (SLaunchHeaded cp) false in
    tryCatch
      (newContext w headless (STempContext cp) newBrowser (contextOptions ses);;
       newPage w headless (STempPage cp) newBrowser;;
       closeBrowser w headless (SCloseTemp cp) newBrowser;;
       ret Restart)
      (fun error =>
         closeBrowser w headless (SCloseTempOnError cp) newBrowser;;
         throw error)
  else
    closeBrowser w headless (SCloseOwned cp) (browser ses);;
    ret Restart.

(** The [else] branch: wait until the page has left every challenge
    location. *)
Definition waitForVerification (cp : Checkpoint) (ses : Session)
           (headless : bool) : M unit :=
  emit (WaitForNavigation (browser ses));;
  call w headless (SWaitForNavigation cp).

Definition releaseBrowser (headless : bool) (site : Site) (ses : Session)
  : M unit :=
  if negb (browserWasProvided ses)
  then closeBrowser w headless site (browser ses)
  else ret tt.

(** [await page.evaluate(callback, limit)]: the call itself may fail, and an
    exception of the callback comes back as an error of the call. *)
Definition evaluateExtraction (headless : bool) : M (list SearchResult) :=
  call w headless SEvaluate;;
  match Extract.extract (renderedPage w headless) limit with
  | Some results => ret results
  | None => throw (callbackError w headless)
  end.

(** After the result containers were found. *)
Definition extractAndFinish (ses : Session) (headless : bool)
  : M (Step SearchResponse) :=
  call w headless SWaitBeforeExtract;;
  let* extracted := evaluateExtraction headless in
  saveBrowserState headless OnSuccess;;
  releaseBrowser headless SCloseFinal ses;;
  ret (Done {| query := searchQuery; results := extracted |}).

(** From the wait for result containers on. *)
Definition awaitResults (ses : Session) (headless : bool)
  : M (Step SearchResponse) :=
  if waitForResults headless false then extractAndFinish ses headless
  else
    let currentUrl := urlDuringResults w headless in
    if isBlocked currentUrl then
      if headless then restartHeaded DuringResults ses headless
      else
        waitForVerification DuringResults ses headless;;
        if waitForResults headless true then extractAndFinish ses headless
        else throw "无法找到搜索结果元素"
    else throw "无法找到搜索结果元素".

(** From the search box on. *)
Definition submitQuery (ses : Session) (headless : bool)
  : M (Step SearchResponse) :=
  let* searchInput := findSearchInput headless searchInputSelectors in
  if negb searchInput then throw "无法找到搜索框"
  else
    call w headless SClick;;
    call w headless SType;;
    call w headless SWaitBeforeEnter;;
    call w headless SPressEnter;;
    call w headless SWaitLoad;;
    let searchUrl := urlAfterSearch w headless in
    if isBlocked searchUrl then
      if headless then restartHeaded AfterSearch ses headless
      else
        waitForVerification AfterSearch ses headless;;
        call w headless SWaitLoadVerified;;
        awaitResults ses headless
    else awaitResults ses headless.

(** The [try] block. *)
Definition searchBody (ses : Session) (headless : bool)
  : M (Step SearchResponse) :=
  let* selectedDomain := selectDomain headless in
  emit (Goto (browser ses) selectedDomain);;
  call w headless SGoto;;
  let currentUrl := landingUrl w headless in
  let response := responseUrl w headless in
  if isBlockedPage currentUrl response then
    if headless then restartHeaded AfterNavigation ses headless
    else
      waitForVerification AfterNavigation ses headless;;
      submitQuery ses headless
  else submitQuery ses headless.

(** The [catch] block. *)
Definition searchFailed (ses : Session) (headless : bool) (error : string)
  : M (Step SearchResponse) :=
  saveBrowserState headless OnError;;
  releaseBrowser headless SCloseOnError ses;;
  ret (Done {| query := searchQuery; results := [failureRecord error] |}).

(** One activation of [performSearch], up to its [return]. *)
Definition attempt (headless : bool) : M (Step SearchResponse) :=
  let* ses := openSession headless in
  tryCatch (searchBody ses headless) (searchFailed ses headless).

(** [performSearch]; [fuel] bounds the depth of self-calls. *)
Fixpoint performSearch (fuel : nat) (headless : bool) : M SearchResponse :=
  match fuel with
  | O => fun s => (OutOfFuel, s)
  | S fuel' =>
      let* step := attempt headless in
      match step with
      | Done response => ret response
      | Restart => performSearch fuel' false
      end
  end.

End PerformSearch.

Definition initialState (disk : gmap string FileContent) : RunState :=
  {| fs := disk; savedState := emptySavedState; events := []; launched := 0 |}.

Definition googleSearchM (existingBrowser : option Browser) : M SearchResponse :=
  let useHeadless := true in
  let* storage := loadSavedState in
  performSearch existingBrowser storage 2 useHeadless.

(** [googleSearch(query, options, existingBrowser)] started on a disk. *)
Definition googleSearch (existingBrowser : option Browser)
           (disk : gmap string FileContent)
  : Outcome SearchResponse * RunState :=
  googleSearchM existingBrowser (initialState disk).

(* ================================================================= *)
(** ** [getGoogleSearchPageHtml] *)
(* ================================================================= *)

Section PerformSearchAndGetHtml.
Variable saveToFile : bool.
Variable outputPath : option string.
Variable storage : option string.

Definition openHtmlSession (headless : bool) : M Session :=
  let* browser := launch w headless SLaunch headless in
  let* contextOptions := buildContextOptions headless in
  newContext w headless SNewContext browser
             (withStorageState contextOptions storage);;
  call w headless SContextInitScript;;
  newPage w headless SNewPage browser;;
  call w headless SPageInitScript;;
  ret {| browser := browser; browserWasProvided := false;
         contextOptions := contextOptions |}.

Definition restartHeadedHtml {A} (cp : Checkpoint) (ses : Session)
           (headless : bool) : M (Step A) :=
  closePage w headless (SPageClose cp) (browser ses);;
  closeContext w headless (SContextClose cp) (browser ses);;
  closeBrowser w headless (SCloseOwned cp) (browser ses);;
  ret Restart.

(** The [if (saveToFile)] block; returns [savedFilePath] and
    [screenshotPath]. *)
Definition saveHtml (headless : bool) (html : string)
  : M (option string * option string) :=
  if saveToFile then
    let* outputPath :=
      match orElse outputPath None with
      | Some p => ret p
      | None =>
          let outputDir := "./google-search-html" in
          let* present := existsSync outputDir in
          (if negb present then mkdirSync w headless SMkdirOutput outputDir
           else ret tt);;
          ret (autoOutputPath w)
      end in
    let fileDir := dirname outputPath in
    let* present := existsSync fileDir in
    (if negb present then mkdirSync w headless SMkdirFileDir fileDir
     else ret tt);;
    writeOther w headless SWriteHtml outputPath;;
    let screenshotFilePath := replaceHtmlSuffix outputPath in
    writeOther w headless SScreenshot screenshotFilePath;;
    ret (Some outputPath, Some screenshotFilePath)
  else ret (None, None).

Definition captureHtml (ses : Session) (headless : bool)
  : M (Step HtmlResponse) :=
  let finalUrl := finalUrl w headless in
  call w headless SWaitStable;;
  call w headless SWaitLoadStable;;
  call w headless SContent;;
  let fullHtml := pageContent w headless in
  let html := Markup.stripStyleAndScript fullHtml in
  let* (savedFilePath, screenshotPath) := saveHtml headless html in
  saveBrowserState headless OnSuccess;;
  closeBrowser w headless SCloseFinal (browser ses);;
  ret (Done {| htmlQuery := searchQuery; html := html; url := finalUrl;
               savedPath := savedFilePath; screenshotPath := screenshotPath;
               originalHtmlLength := jsLength fullHtml |}).

Definition submitQueryHtml (ses : Session) (headless : bool)
  : M (Step HtmlResponse) :=
  let* searchInput := findSearchInput headless searchInputSelectors in
  if negb searchInput then throw "无法找到搜索框"
  else
    call w headless SClick;;
    call w headless SType;;
    call w headless SWaitBeforeEnter;;
    call w headless SPressEnter;;
    call w headless SWaitLoad;;
    let searchUrl := urlAfterSearch w headless in
    if isBlocked searchUrl then
      if headless then restartHeadedHtml AfterSearch ses headless
      else
        emit (WaitForNavigation (browser ses));;
        call w headless (SWaitForNavigation AfterSearch);;
        call w headless SWaitLoadVerified;;
        captureHtml ses headless
    else captureHtml ses headless.

Definition htmlBody (ses : Session) (headless : bool) : M (Step HtmlResponse) :=
  let* selectedDomain := selectDomain headless in
  emit (Goto (browser ses) selectedDomain);;
  call w headless SGoto;;
  let currentUrl := landingUrl w headless in
  let response := responseUrl w headless in
  if isBlockedPage currentUrl response then
    if headless then restartHeadedHtml AfterNavigation ses headless
    else
      emit (WaitForNavigation (browser ses));;
      call w headless (SWaitForNavigation AfterNavigation);;
      submitQueryHtml ses headless
  else submitQueryHtml ses headless.

Definition htmlFailed (ses : Session) (headless : bool) (error : string)
  : M (Step HtmlResponse) :=
  saveBrowserState headless OnError;;
  closeBrowser w headless SCloseOnError (browser ses);;
  throw (wrapHtmlError error).

Definition htmlAttempt (headless : bool) : M (Step HtmlResponse) :=
  let* ses := openHtmlSession headless in
  tryCatch (htmlBody ses headless) (htmlFailed ses headless).

Fixpoint performSearchAndGetHtml (fuel : nat) (headless : bool)
  : M HtmlResponse :=
  match fuel with
  | O => fun s => (OutOfFuel, s)
  | S fuel' =>
      let* step := htmlAttempt headless in
      match step with
      | Done response => ret response
      | Restart => performSearchAndGetHtml fuel' false
      end
  end.

End PerformSearchAndGetHtml.

Definition getGoogleSearchPageHtmlM (saveToFile : bool) (outputPath : option string)
  : M HtmlResponse :=
  let useHeadless := true in
  let* storage := loadSavedState in
  performSearchAndGetHtml saveToFile outputPath storage 2 useHeadless.

(** [getGoogleSearchPageHtml(query, options, saveToFile, outputPath)]
    started on a disk. *)
Definition getGoogleSearchPageHtml (saveToFile : bool) (outputPath : option string)
           (disk : gmap string FileContent)
  : Outcome HtmlResponse * RunState :=
  getGoogleSearchPageHtmlM saveToFile outputPath (initialState disk).

End Operations.

End Search.


(* ===================================================================== *)
(** ** Naming the output file and previewing the markup *)
(* ===================================================================== *)

(** Where the code counts or cuts the characters of a string, the string is
    taken as the list of its UTF-16 code units: the regular expressions
    below have no [u] flag and [substring] counts code units. *)
Module CodeUnits.

(** A code unit in one of the ranges [a-z], [A-Z], [0-9]. *)
Definition isAlnum (u : N) : bool :=
  ((97 <=? u) && (u <=? 122) || (65 <=? u) && (u <=? 90)
   || (48 <=? u) && (u <=? 57))%N.

(** [query.replace(/[^a-zA-Z0-9]/g, "_").substring(0, 50)], the query part
    of the generated file name in [performSearchAndGetHtml]. *)
Definition sanitizedQuery (query : list N) : list N :=
  take 50 (map (fun u => if isAlnum u then u else 95%N) query).

(** [html.substring(0, 500) + (html.length > 500 ? '...' : '')], the
    [htmlPreview] field the command line prints. *)
Definition htmlPreview (html : list N) : list N :=
  (take 500 html ++ (if (500 <? length html)%nat then [46; 46; 46]%N else []))%list.

End CodeUnits.

(* ===================================================================== *)
(** ** The MCP server: the [google-search] tool and the browser clean-up *)
(* ===================================================================== *)

Module McpServer.
Import JsString JsValue Search.
Local Open Scope search_scope.


(** The module-level state: the shared browser, and the [close()] calls
    issued on it so far. *)
Record Server := {
  globalBrowser : option Browser;
  closeCalls : list Browser;
}.



Section Tool.
Variable w : World.
Variable stringify : SearchResponse -> string.  (* [JSON.stringify(results, null, 2)] *)
Variable stateFilePath : string.  (* [path.join(os.homedir(), ".google-search-browser-state.json")] *)
Variable server : Server.




End Tool.

Section Cleanup.
Variable closeThrows : nat -> bool.   (* whether the n-th [close()] call throws *)

(** [cleanupBrowser]: a failed [close()] is logged and the handle is kept. *)
Definition cleanupBrowser (server : Server) : Server :=
  match globalBrowser server with
  | Some b =>
      let calls := (closeCalls server ++ [b])%list in
      if closeThrows (length (closeCalls server))
      then {| globalBrowser := Some b; closeCalls := calls |}
      else {| globalBrowser := None; closeCalls := calls |}
  | None => server
  end.

End Cleanup.

End McpServer.

(* ===================================================================== *)
(** * Concrete runs *)
(* ===================================================================== *)

Module Scenarios.
Import JsValue Search.

(** One organic result, and three anchors: a duplicate of it, a link of the
    search provider, and a fresh one. *)
Definition samplePage : Extract.Page :=
  {| Extract.querySelectorAll := fun sel =>
       if String.eqb sel "#search div[data-hveid]" then
         [ {| Extract.queryTitle := fun _ =>
                Some {| Extract.titleTextContent := " Rocq ";
                        Extract.linkInTitle := None;
                        Extract.ancestors :=
                          [ {| Extract.tagName := "A";
                               Extract.isHTMLAnchorElement := true;
                               Extract.ancestorHref := "https://rocq-prover.org/" |} ] |};
              Extract.containerLink := None;
              Extract.queryText := fun _ => None;
              Extract.divs := [] |} ]
       else [];
     Extract.anchorElements :=
       [ {| Extract.isHTMLAnchor := true;
            Extract.href := "https://rocq-prover.org/";
            Extract.anchorTextContent := "Rocq";
            Extract.parentTexts := [] |};
         {| Extract.isHTMLAnchor := true;
            Extract.href := "https://www.google.com/preferences";
            Extract.anchorTextContent := "Settings";
            Extract.parentTexts := [] |};
         {| Extract.isHTMLAnchor := true;
            Extract.href := "https://example.org/a";
            Extract.anchorTextContent := "Example";
            Extract.parentTexts :=
              [ "Example"; "Example: a page about many things, long enough" ] |} ] |}.

(** A host nine hours east of UTC, at two at night. *)
Definition nightHost : Host :=
  {| timezoneOffset := -540; hour := 2; envLANG := None; platform := "linux" |}.

(** A runtime in which every call succeeds and no challenge shows up. *)
Definition quietWorld : World :=
  {| host := nightHost;
     throwsAt := fun _ _ => None;
     randomDevice := fun _ => 1;
     randomDomain := fun _ => 0;
     deviceKnown := fun _ => true;
     typeErrorMessage := fun _ => "TypeError: Cannot read properties of null";
     landingUrl := fun _ => "https://www.google.com/";
     responseUrl := fun _ => Some "https://www.google.com/";
     urlAfterSearch := fun _ => "https://www.google.com/search?q=rocq";
     urlDuringResults := fun _ => "https://www.google.com/search?q=rocq";
     inputPresent := fun _ sel => String.eqb sel "textarea[name='q']";
     selectorAppears := fun _ _ sel => String.eqb sel "#search";
     renderedPage := fun _ => samplePage;
     callbackError := fun _ =>
       "page.evaluate: TypeError: link.startsWith is not a function";
     sessionCookies := fun _ =>
       [ JObject [ ("name", JString "NID"); ("value", JString "511=abc");
                   ("domain", JString ".google.com") ] ];
     sessionOrigins := fun _ => [];
     finalUrl := fun _ => "https://www.google.com/search?q=rocq";
     pageContent := fun _ => "<html></html>";
     autoOutputPath := "./google-search-html/rocq-2026.html" |}.

(** The first navigation of the headless activation lands on the challenge
    page; the headed one is let through. *)
Definition challengedWorld : World :=
  {| host := nightHost;
     throwsAt := fun _ _ => None;
     randomDevice := fun _ => 1;
     randomDomain := fun _ => 0;
     deviceKnown := fun _ => true;
     typeErrorMessage := typeErrorMessage quietWorld;
     landingUrl := fun headless =>
       if headless then "https://www.google.com/sorry/index?continue=q"
       else "https://www.google.com/";
     responseUrl := fun _ => None;
     urlAfterSearch := urlAfterSearch quietWorld;
     urlDuringResults := urlDuringResults quietWorld;
     inputPresent := inputPresent quietWorld;
     selectorAppears := selectorAppears quietWorld;
     renderedPage := renderedPage quietWorld;
     callbackError := callbackError quietWorld;
     sessionCookies := sessionCookies quietWorld;
     sessionOrigins := sessionOrigins quietWorld;
     finalUrl := finalUrl quietWorld;
     pageContent := pageContent quietWorld;
     autoOutputPath := autoOutputPath quietWorld |}.


(** No search box on the page. *)
Definition inputMissing : World :=
  {| host := nightHost;
     throwsAt := fun _ _ => None;
     randomDevice := fun _ => 1;
     randomDomain := fun _ => 0;
     deviceKnown := fun _ => true;
     typeErrorMessage := typeErrorMessage quietWorld;
     landingUrl := landingUrl quietWorld;
     responseUrl := responseUrl quietWorld;
     urlAfterSearch := urlAfterSearch quietWorld;
     urlDuringResults := urlDuringResults quietWorld;
     inputPresent := fun _ _ => false;
     selectorAppears := selectorAppears quietWorld;
     renderedPage := renderedPage quietWorld;
     callbackError := callbackError quietWorld;
     sessionCookies := sessionCookies quietWorld;
     sessionOrigins := sessionOrigins quietWorld;
     finalUrl := finalUrl quietWorld;
     pageContent := pageContent quietWorld;
     autoOutputPath := autoOutputPath quietWorld |}.

(** The search goes through, but the session cannot be written. *)
Definition sessionWriteFails : World :=
  withThrows quietWorld
    (fun _ site =>
       match site with
       | SStorageState _ => Some "browserContext.storageState: EACCES"
       | _ => None
       end).

Definition noOptions : CommandOptions :=
  {| opt_limit := None; opt_timeout := None; opt_stateFile := None;
     opt_noSaveState := None; opt_locale := None |}.

Definition noSaveOptions : CommandOptions :=
  {| opt_limit := None; opt_timeout := None; opt_stateFile := None;
     opt_noSaveState := Some true; opt_locale := None |}.

(** An identity written by an earlier run, on a host in London at noon. *)
Definition oldIdentity : FingerprintConfig :=
  {| deviceName := "Desktop Chrome"; locale := "en-GB";
     timezoneId := "Europe/London"; colorScheme := light;
     reducedMotion := no_preference; forcedColors := none |}.

Definition oldSaved : Json :=
  JObject [ ("fingerprint", fingerprintJson oldIdentity);
            ("googleDomain", JString "https://www.google.co.uk") ].

(** The working directory alone. *)
Definition emptyDisk : gmap string FileContent :=
  <["." := Directory]> ∅.

(** An identity file, but no session file. *)
Definition identityOnlyDisk : gmap string FileContent :=
  <["./browser-state-fingerprint.json" := JsonFile oldSaved]> emptyDisk.

(** Launches, closings and navigations of a trace, in order. *)
Definition lifecycle (evs : list Event) : list Event :=
  List.filter (fun e => match e with
                        | Launch _ | CloseBrowser _ | Goto _ _ => true
                        | _ => false
                        end) evs.


End Scenarios.


(** Further inputs on which the properties below are run. *)
Module Cases.
Import Search Scenarios.

(** A state file whose name has no [.json] in it. *)
Definition plainStateOptions : CommandOptions :=
  {| opt_limit := None; opt_timeout := None; opt_stateFile := Some "./state";
     opt_noSaveState := None; opt_locale := None |}.


(** The quiet runtime on another host: London, at two in the afternoon. *)
Definition dayWorld : World :=
  {| host := {| timezoneOffset := 0; hour := 14; envLANG := Some "en_GB.UTF-8";
                platform := "darwin" |};
     throwsAt := fun _ _ => None;
     randomDevice := fun _ => 2;
     randomDomain := fun _ => 3;
     deviceKnown := fun _ => true;
     typeErrorMessage := typeErrorMessage quietWorld;
     landingUrl := landingUrl quietWorld;
     responseUrl := responseUrl quietWorld;
     urlAfterSearch := urlAfterSearch quietWorld;
     urlDuringResults := urlDuringResults quietWorld;
     inputPresent := inputPresent quietWorld;
     selectorAppears := selectorAppears quietWorld;
     renderedPage := renderedPage quietWorld;
     callbackError := callbackError quietWorld;
     sessionCookies := sessionCookies quietWorld;
     sessionOrigins := sessionOrigins quietWorld;
     finalUrl := finalUrl quietWorld;
     pageContent := pageContent quietWorld;
     autoOutputPath := autoOutputPath quietWorld |}.

(** A result whose title holds an inline SVG image with a link of its own:
    the first [a] under the title is an SVG anchor. *)
Definition svgPage : Extract.Page :=
  {| Extract.querySelectorAll := fun sel =>
       if String.eqb sel "#search div[data-hveid]" then
         [ {| Extract.queryTitle := fun _ =>
                Some {| Extract.titleTextContent := "Rocq";
                        Extract.linkInTitle := Some Extract.HrefAnimated;
                        Extract.ancestors :=
                          [ {| Extract.tagName := "A";
                               Extract.isHTMLAnchorElement := true;
                               Extract.ancestorHref := "https://rocq-prover.org/" |} ] |};
              Extract.containerLink := Some Extract.HrefAnimated;
              Extract.queryText := fun _ => None;
              Extract.divs := [] |} ]
       else [];
     Extract.anchorElements := [] |}.

Definition svgWorld : World :=
  {| host := nightHost;
     throwsAt := fun _ _ => None;
     randomDevice := fun _ => 1;
     randomDomain := fun _ => 0;
     deviceKnown := fun _ => true;
     typeErrorMessage := typeErrorMessage quietWorld;
     landingUrl := landingUrl quietWorld;
     responseUrl := responseUrl quietWorld;
     urlAfterSearch := urlAfterSearch quietWorld;
     urlDuringResults := urlDuringResults quietWorld;
     inputPresent := inputPresent quietWorld;
     selectorAppears := selectorAppears quietWorld;
     renderedPage := fun _ => svgPage;
     callbackError := callbackError quietWorld;
     sessionCookies := sessionCookies quietWorld;
     sessionOrigins := sessionOrigins quietWorld;
     finalUrl := finalUrl quietWorld;
     pageContent := pageContent quietWorld;
     autoOutputPath := autoOutputPath quietWorld |}.

(** A result that links to another scheme whose name begins with the same
    four letters, and an anchor whose attribute [href='httpdocs/readme'] is
    resolved against the [base] element of the page,
    [ftp://files.example/]. *)
Definition schemePage : Extract.Page :=
  {| Extract.querySelectorAll := fun sel =>
       if String.eqb sel "#search div[data-hveid]" then
         [ {| Extract.queryTitle := fun _ =>
                Some {| Extract.titleTextContent := "Gateway";
                        Extract.linkInTitle :=
                          Some (Extract.HrefString "httpx://gateway.example/");
                        Extract.ancestors := [] |};
              Extract.containerLink := None;
              Extract.queryText := fun _ => None;
              Extract.divs := [] |} ]
       else [];
     Extract.anchorElements :=
       [ {| Extract.isHTMLAnchor := true;
            Extract.href := "ftp://files.example/httpdocs/readme";
            Extract.anchorTextContent := "Read me";
            Extract.parentTexts := [] |} ] |}.

(** The result page of the third domain of the list: no organic result is
    recognised, and the anchors are the provider's own settings link and
    one result. *)
Definition regionalPage : Extract.Page :=
  {| Extract.querySelectorAll := fun _ => [];
     Extract.anchorElements :=
       [ {| Extract.isHTMLAnchor := true;
            Extract.href := "https://www.google.co.uk/preferences?hl=en";
            Extract.anchorTextContent := "Settings";
            Extract.parentTexts := [] |};
         {| Extract.isHTMLAnchor := true;
            Extract.href := "https://www.google.com/preferences?hl=en";
            Extract.anchorTextContent := "Settings";
            Extract.parentTexts := [] |};
         {| Extract.isHTMLAnchor := true;
            Extract.href := "https://rocq-prover.org/";
            Extract.anchorTextContent := "Rocq";
            Extract.parentTexts := [] |} ] |}.

(** A session file, and a fingerprint file whose text is [null]. *)
Definition nullIdentityDisk : gmap string FileContent :=
  <["./browser-state-fingerprint.json" := JsonFile JsValue.JNull]>
    (<["./browser-state.json" := JsonFile (sessionJson quietWorld true)]>
       emptyDisk).


(** A challenge in headless mode, and the headed browser cannot be
    started. *)
Definition relaunchFails : World :=
  withThrows challengedWorld
    (fun headless site =>
       match site with
       | SLaunch => if headless then None
                    else Some "browserType.launch: Missing X server"
       | _ => None
       end).

End Cases.


(* ===================================================================== *)
(** * Properties *)
(* ===================================================================== *)

Module FingerprintFacts.

(** The [if]/[else if] chain is a first-match search of [offsetRanges]. *)
Lemma inferTimezone_firstMatch (o : Z) :
  inferTimezone o = default "Asia/Seoul" (firstMatch offsetRanges o).
Proof.
  unfold inferTimezone, offsetRanges, firstMatch.
  repeat match goal with
         | |- context [if ?c then _ else _] => destruct c
         end; reflexivity.
Qed.

End FingerprintFacts.

Module JsStringFacts.
Import JsString.

Lemma truthy_true s : truthy s = true <-> s <> "".
Proof. destruct s; simpl; split; congruence. Qed.

Lemma truthy_false s : truthy s = false <-> s = "".
Proof. destruct s; simpl; split; congruence. Qed.

End JsStringFacts.

(* --------------------------------------------------------------------- *)
(** ** The limit as a number *)
(* --------------------------------------------------------------------- *)

Module NumberFacts.
Import JsValue Extract.
Local Open Scope Z_scope.

(** The rational rounded up and rounded down. *)
Definition ceiling (q : Q) : Z := - ((- Qnum q) / Zpos (Qden q)).
Definition floor (q : Q) : Z := Qnum q / Zpos (Qden q).

Lemma ceiling_le (q : Q) (n : Z) : ceiling q <= n <-> Qnum q <= n * Zpos (Qden q).
Proof.
  unfold ceiling. pose proof (Pos2Z.is_pos (Qden q)) as Hd.
  pose proof (Z.mul_div_le (- Qnum q) (Zpos (Qden q)) Hd) as Hlo.
  pose proof (Z.mul_succ_div_gt (- Qnum q) (Zpos (Qden q)) Hd) as Hhi.
  split; intros H; nia.
Qed.

Lemma floor_ge (q : Q) (n : Z) : n <= floor q <-> n * Zpos (Qden q) <= Qnum q.
Proof.
  unfold floor. pose proof (Pos2Z.is_pos (Qden q)) as Hd.
  pose proof (Z.mul_div_le (Qnum q) (Zpos (Qden q)) Hd) as Hlo.
  pose proof (Z.mul_succ_div_gt (Qnum q) (Zpos (Qden q)) Hd) as Hhi.
  split; intros H; nia.
Qed.

Lemma floor_le_ceiling q : floor q <= ceiling q.
Proof.
  pose proof (proj1 (floor_ge q (floor q)) (Z.le_refl _)) as H.
  pose proof (Pos2Z.is_pos (Qden q)) as Hd.
  destruct (Z.le_gt_cases (floor q) (ceiling q)) as [|Hlt]; [assumption|].
  assert (Hc : ceiling q <= floor q - 1) by lia.
  apply ceiling_le in Hc. nia.
Qed.

(** Rounding towards zero is rounding down, from zero on. *)
Lemma truncate_floor q : 0 <= Qnum q -> truncate q = floor q.
Proof.
  intros H. unfold truncate, floor. apply Z.quot_div_nonneg; lia.
Qed.

Lemma floor_negative q : Qnum q < 0 -> floor q < 0.
Proof.
  intros H. destruct (Z.lt_ge_cases (floor q) 0) as [|Hge]; [assumption|].
  apply floor_ge in Hge. lia.
Qed.

Lemma floor_inject z : floor (inject_Z z) = z.
Proof. unfold floor. cbn. apply Z.div_1_r. Qed.

Lemma ceiling_inject z : ceiling (inject_Z z) = z.
Proof. unfold ceiling. cbn. rewrite Z.div_1_r. lia. Qed.

Lemma lengthGe_num (n : nat) (q : Q) :
  lengthGe n (Num q) = true <-> ceiling q <= Z.of_nat n.
Proof.
  rewrite ceiling_le. unfold lengthGe, Qle_bool. cbn.
  rewrite Z.leb_le. lia.
Qed.

Lemma cap_num q : cap (Num q) = Some (Z.to_nat (ceiling q)).
Proof. reflexivity. Qed.

Lemma kept_num q : kept (Num q) = Some (Z.to_nat (floor q)).
Proof. reflexivity. Qed.

(** The [break] test of the loops, by the cap. *)
Lemma lengthGe_cap (n : nat) (N : JsNumber) :
  lengthGe n N = true
  <-> match cap N with Some c => (c <= n)%nat | None => False end.
Proof.
  destruct N as [q| | |].
  - rewrite lengthGe_num, cap_num. lia.
  - cbn. split; [discriminate|tauto].
  - cbn. split; [discriminate|tauto].
  - cbn. split; [lia|reflexivity].
Qed.

(** The test before the anchor scan is the negated [break] test, except
    for [NaN], for which both fail. *)
Lemma lengthLt_lengthGe (n : nat) (N : JsNumber) :
  N <> NaN -> lengthLt n N = negb (lengthGe n N).
Proof. destruct N; cbn; congruence. Qed.

Lemma kept_le_cap N k c : kept N = Some k -> cap N = Some c -> (k <= c)%nat.
Proof.
  destruct N as [q| | |]; cbn; try congruence.
  - intros [= <-] [= <-]. pose proof (floor_le_ceiling q).
    fold (floor q) (ceiling q). lia.
  - intros [= <-] [= <-]. lia.
Qed.

End NumberFacts.

(* --------------------------------------------------------------------- *)
(** ** Extraction: the loops in closed form *)
(* --------------------------------------------------------------------- *)

Module ExtractFacts.
Import JsString JsStringFacts JsValue NumberFacts Extract.

(** The [seenUrls] set holds exactly the links of the [results] array. *)
Definition consistent (acc : Acc) : Prop :=
  forall u, u ∈ seenUrls acc <-> u ∈ map link (results acc).

Lemma consistent_empty : consistent emptyAcc.
Proof.
  intros u. simpl. split; intros H; [now apply elem_of_empty in H|inversion H].
Qed.

Lemma consistent_push r acc : consistent acc -> consistent (push r acc).
Proof.
  unfold consistent. intros H u. simpl.
  rewrite map_app, elem_of_app, elem_of_union, <- H.
  simpl. rewrite elem_of_singleton, list_elem_of_singleton. tauto.
Qed.

(** One visit, in terms of what the visited element offers. *)
Definition offer (o : option SearchResult) (acc : Acc) : Acc :=
  match o with
  | Some r => if bool_decide (link r ∈ map link (results acc)) then acc
              else push r acc
  | None => acc
  end.

Lemma consistent_offer o acc : consistent acc -> consistent (offer o acc).
Proof.
  intros H. destruct o as [r|]; simpl; [|exact H].
  destruct (bool_decide _); [exact H|now apply consistent_push].
Qed.

Lemma visitContainer_offer s c acc :
  consistent acc ->
  visitContainer s c acc
  = if throwsAtContainer s c then None else Some (offer (candidate s c) acc).
Proof.
  intros Hc. unfold visitContainer, throwsAtContainer, candidate, offer.
  destruct (queryTitle c (titleSel s)) as [t|]; [|reflexivity].
  destruct (findLink t c) as [l| |]; [|reflexivity|reflexivity].
  destruct (truthy l) eqn:Hl; simpl; [|reflexivity].
  destruct (startsWith "http" l) eqn:Hp; simpl; [|reflexivity].
  assert (Hbd : bool_decide (l ∈ seenUrls acc)
                = bool_decide (l ∈ map link (results acc)))
    by apply bool_decide_ext, Hc.
  rewrite Hbd. clear Hbd.
  destruct (truthy (trim (titleTextContent t))) eqn:Ht;
    destruct (bool_decide (l ∈ map link (results acc))) eqn:Hin;
    cbn; rewrite ?Hin; reflexivity.
Qed.

(** One step of the anchor loop, in terms of [eligible]. *)
Lemma visitAnchor_eligible el acc :
  visitAnchor el acc =
  if eligible (seenUrls acc) el then push (recordOfAnchor el) acc else acc.
Proof.
  unfold visitAnchor, eligible, recordOfAnchor.
  destruct (isHTMLAnchor el); simpl; [|reflexivity].
  destruct (truthy (href el)); simpl; [|reflexivity].
  case_bool_decide; simpl; [reflexivity|].
  destruct (excludedLink (href el)); simpl; [reflexivity|].
  destruct (truthy (trim (anchorTextContent el))); reflexivity.
Qed.

Lemma visitAnchor_offer el acc :
  consistent acc -> visitAnchor el acc = offer (anchorCandidate el) acc.
Proof.
  intros Hc. rewrite visitAnchor_eligible. unfold eligible, anchorCandidate, offer.
  assert (Hbd : bool_decide (href el ∈ seenUrls acc)
                = bool_decide (href el ∈ map link (results acc)))
    by apply bool_decide_ext, Hc.
  rewrite Hbd. clear Hbd.
  destruct (isHTMLAnchor el), (truthy (href el)), (excludedLink (href el)),
    (truthy (trim (anchorTextContent el)));
    cbn [andb negb]; rewrite ?andb_false_r, ?andb_true_r; try reflexivity.
  all: repeat case_bool_decide; cbn in *; solve [reflexivity|contradiction].
Qed.

Lemma keepFirst_app have l1 l2 :
  keepFirst have (l1 ++ l2)
  = (keepFirst have l1
     ++ keepFirst (have ++ map link (keepFirst have l1)) l2)%list.
Proof.
  revert have. induction l1 as [|r l1 IH]; intros have; simpl.
  - now rewrite app_nil_r.
  - destruct (bool_decide (link r ∈ have)); [apply IH|].
    simpl. rewrite IH. now rewrite <- app_assoc.
Qed.

(** Running a second loop on what a first one left is running one loop on
    both lists. *)
Lemma take_keepFirst_app have k l1 l2 :
  (take k (keepFirst have l1)
   ++ take (k - length (take k (keepFirst have l1)))
           (keepFirst (have ++ map link (take k (keepFirst have l1))) l2))%list
  = take k (keepFirst have (l1 ++ l2)).
Proof.
  rewrite keepFirst_app.
  destruct (decide (length (keepFirst have l1) <= k)) as [Hle|Hgt].
  - rewrite (take_ge (keepFirst have l1)) by exact Hle.
    rewrite take_app. now rewrite (take_ge (keepFirst have l1)) by exact Hle.
  - rewrite take_app_le by lia.
    rewrite length_take_le by lia.
    replace (k - k) with 0 by lia. simpl. now rewrite app_nil_r.
Qed.

Lemma takeUpTo_keepFirst_app have k l1 l2 :
  (takeUpTo k (keepFirst have l1)
   ++ takeUpTo ((fun c => c - length (takeUpTo k (keepFirst have l1))) <$> k)
               (keepFirst (have ++ map link (takeUpTo k (keepFirst have l1))) l2))%list
  = takeUpTo k (keepFirst have (l1 ++ l2)).
Proof.
  destruct k as [k|]; cbn; [apply take_keepFirst_app|].
  now rewrite keepFirst_app.
Qed.

Lemma takeUpTo_nil {A} k : takeUpTo k (@nil A) = [].
Proof. destruct k; cbn; [apply take_nil|reflexivity]. Qed.

Lemma takeUpTo_sublist {A} k (l : list A) : takeUpTo k l `sublist_of` l.
Proof. destruct k; cbn; [apply sublist_take|reflexivity]. Qed.

(** The [break] test, by the room left. *)
Lemma full_room N acc :
  full N acc = true <-> room N acc = Some 0.
Proof.
  unfold full, room. rewrite lengthGe_cap.
  destruct (cap N) as [c|]; cbn; [|split; [tauto|discriminate]].
  split; [intros H; f_equal; lia|intros [= H]; lia].
Qed.

Lemma room_push N acc r :
  full N acc = false ->
  room N acc = S <$> room N (push r acc).
Proof.
  intros Hf. assert (Hn : room N acc <> Some 0).
  { intros H. apply full_room in H. congruence. }
  unfold room in *. destruct (cap N) as [c|]; cbn in *; [|reflexivity].
  rewrite length_app. cbn. f_equal.
  destruct (decide (c - length (results acc) = 0)) as [E|E];
    [rewrite E in Hn; congruence|lia].
Qed.

Lemma takeUpTo_room_cons {A} N acc r (x : A) l :
  full N acc = false ->
  takeUpTo (room N acc) (x :: l) = x :: takeUpTo (room N (push r acc)) l.
Proof.
  intros Hf. rewrite (room_push N acc r Hf).
  now destruct (room N (push r acc)).
Qed.

(** A loop with the [break] test of the source. *)
Fixpoint loop {X} (N : JsNumber) (visit : X -> Acc -> option Acc)
         (xs : list X) (acc : Acc) : option Acc :=
  match xs with
  | [] => Some acc
  | x :: rest =>
      if full N acc then Some acc
      else match visit x acc with
           | Some acc' => loop N visit rest acc'
           | None => None
           end
  end.

Section Loop.
Context {X : Type}.
Variable N : JsNumber.
Variable visit : X -> Acc -> option Acc.
Variable cand : X -> option SearchResult.
Variable throws : X -> bool.
Hypothesis visit_offer :
  forall x acc, consistent acc ->
    visit x acc = if throws x then None else Some (offer (cand x) acc).

Lemma loop_full xs acc : full N acc = true -> loop N visit xs acc = Some acc.
Proof. intros H. destruct xs; cbn; [reflexivity|now rewrite H]. Qed.

Lemma loop_spec xs acc acc' :
  consistent acc ->
  loop N visit xs acc = Some acc' ->
  consistent acc'
  /\ results acc'
     = (results acc
        ++ takeUpTo (room N acc)
                    (keepFirst (map link (results acc)) (omap cand xs)))%list.
Proof.
  revert acc. induction xs as [|x xs IH]; intros acc Hc; cbn [loop].
  - intros [= <-]. split; [exact Hc|]. cbn. rewrite takeUpTo_nil.
    now rewrite app_nil_r.
  - destruct (full N acc) eqn:Hfull.
    + intros [= <-]. split; [exact Hc|].
      apply full_room in Hfull. rewrite Hfull. cbn. now rewrite app_nil_r.
    + rewrite visit_offer by exact Hc. destruct (throws x); [discriminate|].
      intros Hrest. apply IH in Hrest as [Hc' Hres];
        [|now apply consistent_offer].
      split; [exact Hc'|]. rewrite Hres. clear Hres IH.
      destruct (cand x) as [r|] eqn:Hr; cbn [omap offer];
        [|cbn; rewrite Hr; reflexivity].
      cbn. rewrite Hr. cbn.
      destruct (bool_decide (link r ∈ map link (results acc))); [reflexivity|].
      rewrite (takeUpTo_room_cons N acc r _ _ Hfull).
      cbn. rewrite map_app. cbn. now rewrite <- app_assoc.
Qed.

Lemma loop_total xs acc :
  consistent acc ->
  (forall x, x ∈ xs -> throws x = false) ->
  exists acc', loop N visit xs acc = Some acc'.
Proof.
  revert acc. induction xs as [|x xs IH]; intros acc Hc Hall; cbn [loop]; [eauto|].
  destruct (full N acc); [eauto|].
  rewrite visit_offer by exact Hc.
  rewrite (Hall x) by (apply elem_of_cons; now left).
  apply IH; [now apply consistent_offer|].
  intros y Hy. apply Hall. apply elem_of_cons. now right.
Qed.

Lemma loop_app l1 l2 acc :
  loop N visit (l1 ++ l2) acc
  = match loop N visit l1 acc with
    | Some acc' => loop N visit l2 acc'
    | None => None
    end.
Proof.
  revert acc. induction l1 as [|x l1 IH]; intros acc; cbn [loop app]; [reflexivity|].
  destruct (full N acc) eqn:Hfull; [now rewrite loop_full|].
  destruct (visit x acc); [apply IH|reflexivity].
Qed.

End Loop.

(** A loop that stops no later than another returns when the other does. *)
Lemma loop_earlier {X} (N M : JsNumber) (visit : X -> Acc -> option Acc) xs acc :
  (forall a, full M a = true -> full N a = true) ->
  is_Some (loop M visit xs acc) -> is_Some (loop N visit xs acc).
Proof.
  intros Hstop. revert acc. induction xs as [|x xs IH]; intros acc; cbn [loop];
    [eauto|].
  destruct (full N acc) eqn:HN; [eauto|].
  destruct (full M acc) eqn:HM; [apply Hstop in HM; congruence|].
  destruct (visit x acc); [apply IH|intros [? [=]]].
Qed.

(** *** The primary pass as one loop over its containers *)

Definition visitPair (p : SelectorSet * Container) : Acc -> option Acc :=
  visitContainer p.1 p.2.

Definition candidatePair (p : SelectorSet * Container) : option SearchResult :=
  candidate p.1 p.2.

Definition throwsAtPair (p : SelectorSet * Container) : bool :=
  throwsAtContainer p.1 p.2.

(** The containers the primary pass may visit, each with the selector set
    that matched it, in visiting order. *)
Definition pairs (page : Page) (sets : list SelectorSet)
  : list (SelectorSet * Container) :=
  concat (map (fun s => map (pair s) (querySelectorAll page (container s))) sets).

Lemma visitPair_offer p acc :
  consistent acc ->
  visitPair p acc
  = if throwsAtPair p then None else Some (offer (candidatePair p) acc).
Proof. apply visitContainer_offer. Qed.

Lemma containerLoop_loop N s cs acc :
  containerLoop N s cs acc = loop N visitPair (map (pair s) cs) acc.
Proof.
  revert acc. induction cs as [|c cs IH]; intros acc; cbn; [reflexivity|].
  destruct (full N acc); [reflexivity|].
  unfold visitPair at 1. cbn. destruct (visitContainer s c acc); [apply IH|reflexivity].
Qed.

Lemma selectorLoop_loop N page sets acc :
  selectorLoop N page sets acc = loop N visitPair (pairs page sets) acc.
Proof.
  revert acc. induction sets as [|s sets IH]; intros acc; [reflexivity|].
  unfold pairs. cbn [map concat selectorLoop]. fold (pairs page sets).
  rewrite loop_app, <- containerLoop_loop.
  destruct (full N acc) eqn:Hfull.
  - rewrite containerLoop_loop, loop_full by exact Hfull. now rewrite loop_full.
  - destruct (containerLoop N s _ acc); [apply IH|reflexivity].
Qed.

Lemma omap_pairs page sets :
  omap candidatePair (pairs page sets)
  = concat (map (fun s => omap (candidate s)
                               (querySelectorAll page (container s))) sets).
Proof.
  induction sets as [|s sets IH]; [reflexivity|].
  unfold pairs. cbn [map concat]. fold (pairs page sets).
  rewrite omap_app, IH. f_equal.
  induction (querySelectorAll page (container s)) as [|c cs IHc]; [reflexivity|].
  cbn. unfold candidatePair at 1. cbn. rewrite IHc. reflexivity.
Qed.

Lemma elem_of_pairs page sets p :
  p ∈ pairs page sets
  <-> p.1 ∈ sets /\ p.2 ∈ querySelectorAll page (container p.1).
Proof.
  destruct p as [s' c']. cbn [fst snd].
  unfold pairs. induction sets as [|s sets IH]; cbn [map concat].
  - split; [intros H; inversion H|intros [H _]; inversion H].
  - rewrite elem_of_app, IH, list_elem_of_fmap, elem_of_cons. split.
    + intros [(c & [= -> ->] & Hc)|[H1 H2]]; auto.
    + intros [[->|H1] H2]; [left; exists c'; auto|auto].
Qed.

Lemma anchorLoop_loop N els acc :
  Some (anchorLoop N els acc)
  = loop N (fun el a => Some (visitAnchor el a)) els acc.
Proof.
  revert acc. induction els as [|el els IH]; intros acc; cbn; [reflexivity|].
  destruct (full N acc); [reflexivity|apply IH].
Qed.

(** *** What the two passes return *)

Lemma room_empty N : room N emptyAcc = cap N.
Proof.
  unfold room. destruct (cap N); cbn; [f_equal; lia|reflexivity].
Qed.

Lemma primaryPass_spec N page acc :
  primaryPass N page = Some acc ->
  consistent acc
  /\ results acc = takeUpTo (cap N) (keepFirst [] (primaryCandidates page)).
Proof.
  unfold primaryPass. rewrite selectorLoop_loop. intros H.
  apply (loop_spec N visitPair candidatePair throwsAtPair visitPair_offer)
    in H as [Hc Hres]; [|apply consistent_empty].
  split; [exact Hc|]. rewrite Hres, room_empty, omap_pairs. reflexivity.
Qed.

Lemma primaryPass_returns N page :
  htmlLinksOnly page -> exists acc, primaryPass N page = Some acc.
Proof.
  intros Hpage. unfold primaryPass. rewrite selectorLoop_loop.
  apply (loop_total N visitPair candidatePair throwsAtPair visitPair_offer);
    [apply consistent_empty|].
  intros [s c] [Hs Hc]%elem_of_pairs. exact (Hpage s c Hs Hc).
Qed.

Lemma primaryPass_earlier N M page :
  (forall a, full M a = true -> full N a = true) ->
  is_Some (primaryPass M page) -> is_Some (primaryPass N page).
Proof.
  unfold primaryPass. rewrite !selectorLoop_loop. apply loop_earlier.
Qed.

Lemma anchorLoop_spec N els acc :
  consistent acc ->
  consistent (anchorLoop N els acc)
  /\ results (anchorLoop N els acc)
     = (results acc
        ++ takeUpTo (room N acc)
                    (keepFirst (map link (results acc))
                               (omap anchorCandidate els)))%list.
Proof.
  intros Hc.
  apply (loop_spec N (fun el a => Some (visitAnchor el a)) anchorCandidate
                   (fun _ => false)); [|exact Hc|symmetry; apply anchorLoop_loop].
  intros x a Ha. now rewrite visitAnchor_offer.
Qed.

(** The anchor scan runs when the limit is a number the array has not
    reached; for a limit that is no number it does not run at all. *)
Lemma fallbackPass_spec N page acc :
  N <> NaN ->
  consistent acc ->
  consistent (fallbackPass N page acc)
  /\ results (fallbackPass N page acc)
     = (results acc
        ++ takeUpTo (room N acc)
                    (keepFirst (map link (results acc))
                               (omap anchorCandidate (anchorElements page))))%list.
Proof.
  intros HN Hc. unfold fallbackPass.
  rewrite lengthLt_lengthGe by exact HN. fold (full N acc).
  destruct (full N acc) eqn:Hfull; cbn [negb]; [|now apply anchorLoop_spec].
  split; [exact Hc|]. apply full_room in Hfull. rewrite Hfull. cbn.
  now rewrite app_nil_r.
Qed.

Lemma fallbackPass_NaN page acc : fallbackPass NaN page acc = acc.
Proof. reflexivity. Qed.

Lemma room_takeUpTo N acc (l : list SearchResult) :
  results acc = takeUpTo (cap N) l ->
  room N acc = (fun c => c - length (takeUpTo (cap N) l)) <$> cap N.
Proof. intros H. unfold room. now rewrite H. Qed.

(** Both passes together, before the final [slice]. *)
Lemma passes_spec N page acc :
  N <> NaN ->
  primaryPass N page = Some acc ->
  results (fallbackPass N page acc)
  = takeUpTo (cap N) (keepFirst [] (candidates page)).
Proof.
  intros HN Hprim. apply primaryPass_spec in Hprim as [Hc Hres].
  destruct (fallbackPass_spec N page acc HN Hc) as [_ Hfall].
  rewrite Hfall, (room_takeUpTo N acc _ Hres), Hres.
  unfold candidates.
  exact (takeUpTo_keepFirst_app [] (cap N) (primaryCandidates page)
           (omap anchorCandidate (anchorElements page))).
Qed.

(** The final [slice] of what the loops collected. *)
Lemma slice0_takeUpTo {A} N (l : list A) :
  N <> NaN ->
  slice0 (takeUpTo (cap N) l) N = takeUpTo (kept N) l.
Proof.
  intros HN. destruct N as [q| | |]; [| congruence | |].
  - rewrite cap_num, kept_num. cbn [takeUpTo slice0].
    destruct (Z.lt_ge_cases (Qnum q) 0) as [Hneg|Hpos].
    + pose proof (floor_negative q Hneg) as Hf.
      assert (Hceil : (ceiling q <= 0)%Z) by (apply ceiling_le; lia).
      replace (Z.to_nat (ceiling q)) with 0 by lia.
      replace (Z.to_nat (floor q)) with 0 by lia.
      rewrite !take_0. now rewrite take_nil.
    + rewrite truncate_floor by exact Hpos.
      assert (Hf : (0 <= floor q)%Z) by (apply floor_ge; lia).
      pose proof (floor_le_ceiling q) as Hfc.
      destruct (floor q <? 0)%Z eqn:E; [lia|].
      rewrite Z2Nat.inj_min, Nat2Z.id, length_take, take_take.
      destruct (decide (Z.to_nat (floor q) <= length l)) as [Hle|Hgt].
      * f_equal. lia.
      * rewrite !take_ge by lia. reflexivity.
  - cbn. now rewrite take_ge.
  - cbn. reflexivity.
Qed.

(** The closed form of the callback, when it returns. *)
Lemma extract_closed_form page N rs :
  extract page N = Some rs ->
  rs = takeUpTo (kept N) (keepFirst [] (candidates page)).
Proof.
  unfold extract. destruct (primaryPass N page) as [acc|] eqn:Hprim; [|discriminate].
  intros [= <-].
  assert (HN : N = NaN \/ N <> NaN) by (destruct N; auto; right; discriminate).
  destruct HN as [->|HN].
  - cbn. reflexivity.
  - rewrite (passes_spec N page acc HN Hprim). now apply slice0_takeUpTo.
Qed.

(** It returns on every page without an SVG anchor in a title position. *)
Lemma extract_returns page N :
  htmlLinksOnly page -> exists rs, extract page N = Some rs.
Proof.
  intros Hpage. destruct (primaryPass_returns N page Hpage) as [acc Hacc].
  unfold extract. rewrite Hacc. eauto.
Qed.

Lemma extract_earlier N M page :
  (forall a, full M a = true -> full N a = true) ->
  is_Some (extract page M) -> is_Some (extract page N).
Proof.
  intros Hstop. unfold extract.
  destruct (primaryPass M page) eqn:HM; [|intros [? [=]]]. intros _.
  destruct (primaryPass_earlier N M page Hstop) as [acc Hacc];
    [rewrite HM; eauto|]. rewrite Hacc. eauto.
Qed.

(** The callback throws exactly when the primary pass does. *)
Lemma extract_None page N : extract page N = None <-> primaryPass N page = None.
Proof.
  unfold extract. destruct (primaryPass N page); split; congruence.
Qed.

End ExtractFacts.

(* --------------------------------------------------------------------- *)
(** ** The anchor scan, anchor by anchor *)
(* --------------------------------------------------------------------- *)

Module AnchorScan.
Import JsString JsStringFacts JsValue NumberFacts Extract ExtractFacts.

Lemma anchorLoop_firstPerLink N els acc :
  results (anchorLoop N els acc) =
  (results acc ++
   map recordOfAnchor
       (takeUpTo (room N acc) (firstPerLink (seenUrls acc) els)))%list.
Proof.
  revert acc. induction els as [|el els IH]; intros acc; cbn [anchorLoop firstPerLink].
  - rewrite takeUpTo_nil. cbn. now rewrite app_nil_r.
  - destruct (full N acc) eqn:Hfull.
    + apply full_room in Hfull. rewrite Hfull. cbn. now rewrite app_nil_r.
    + rewrite IH, visitAnchor_eligible.
      destruct (eligible (seenUrls acc) el) eqn:He; [|reflexivity].
      rewrite (takeUpTo_room_cons N acc (recordOfAnchor el) _ _ Hfull).
      cbn. now rewrite <- app_assoc.
Qed.

Lemma firstPerLink_sublist seen els : firstPerLink seen els `sublist_of` els.
Proof.
  revert seen. induction els as [|el els IH]; intros seen; simpl.
  - constructor.
  - destruct (eligible seen el).
    + apply sublist_skip, IH.
    + apply sublist_cons, IH.
Qed.

Lemma firstPerLink_eligible seen els el :
  el ∈ firstPerLink seen els ->
  el ∈ els /\ isHTMLAnchor el = true /\ href el <> "" /\ (href el ∉ seen)
  /\ excludedLink (href el) = false /\ trim (anchorTextContent el) <> "".
Proof.
  revert seen. induction els as [|e els IH]; intros seen; simpl.
  - intros H. inversion H.
  - destruct (eligible seen e) eqn:He.
    + intros H. apply elem_of_cons in H as [->|H].
      * unfold eligible in He.
        repeat (apply andb_true_iff in He as [He ?]).
        split; [apply elem_of_cons; now left|].
        split; [exact He|].
        split; [now apply truthy_true|].
        split; [now apply negb_true_iff, bool_decide_eq_false in H1|].
        split; [now apply negb_true_iff in H0|now apply truthy_true].
      * apply IH in H as (H1 & H2 & H3 & H4 & H5).
        split; [apply elem_of_cons; now right|].
        repeat split; try tauto.
        intros Hin. apply H4. now apply elem_of_union_r.
    + intros H. apply IH in H as (H1 & H2).
      split; [apply elem_of_cons; now right|exact H2].
Qed.

Lemma firstPerLink_nodup seen els :
  NoDup (map href (firstPerLink seen els))
  /\ forall el, el ∈ firstPerLink seen els -> href el ∉ seen.
Proof.
  revert seen. induction els as [|e els IH]; intros seen; simpl.
  - split; [constructor|]. intros el H. inversion H.
  - destruct (eligible seen e) eqn:He; [|apply IH].
    destruct (IH ({[href e]} ∪ seen)) as [Hnd Hfresh].
    split.
    + simpl. apply NoDup_cons. split; [|exact Hnd].
      intros Hin. apply list_elem_of_fmap in Hin as (el & Heq & Hel).
      apply (Hfresh el Hel). rewrite <- Heq.
      apply elem_of_union_l. now apply elem_of_singleton.
    + intros el Hel. apply elem_of_cons in Hel as [->|Hel].
      * unfold eligible in He.
        repeat (apply andb_true_iff in He as [He ?]).
        now apply negb_true_iff, bool_decide_eq_false in H1.
      * intros Hin. apply (Hfresh el Hel). now apply elem_of_union_r.
Qed.

(** Duplicates never displace an earlier record: an anchor whose link is
    already recorded leaves the state as it is. *)
Lemma visitAnchor_seen el acc :
  href el ∈ seenUrls acc -> visitAnchor el acc = acc.
Proof.
  intros Hin. rewrite visitAnchor_eligible. unfold eligible.
  rewrite (bool_decide_eq_true_2 _ Hin). simpl.
  now rewrite !andb_false_r.
Qed.

Lemma visitContainer_seen s c acc t l :
  queryTitle c (titleSel s) = Some t ->
  findLink t c = HrefString l ->
  l ∈ seenUrls acc ->
  visitContainer s c acc = Some acc.
Proof.
  intros Ht Hl Hin. unfold visitContainer. rewrite Ht, Hl.
  rewrite (bool_decide_eq_true_2 _ Hin), !orb_true_r. reflexivity.
Qed.

End AnchorScan.

(* --------------------------------------------------------------------- *)
(** ** String helpers: substrings, replacement, suffixes *)
(* --------------------------------------------------------------------- *)

Module PathFacts.
Import JsString Search.

Lemma append_cons c (a b : string) : String c a ++ b = String c (a ++ b).
Proof. reflexivity. Qed.

Lemma string_length_app (a b : string) :
  String.length (a ++ b) = String.length a + String.length b.
Proof.
  induction a as [|c a IH]; [reflexivity|].
  rewrite append_cons. cbn [String.length]. now rewrite IH.
Qed.

Lemma includes_nil p : includes p "" = startsWith p "".
Proof. unfold includes. now rewrite orb_false_r. Qed.

Lemma includes_cons p c s :
  includes p (String c s) = startsWith p (String c s) || includes p s.
Proof. reflexivity. Qed.

Lemma startsWith_cons a p b s :
  startsWith (String a p) (String b s) = Ascii.eqb a b && startsWith p s.
Proof. unfold startsWith. destruct (Ascii.eqb a b); reflexivity. Qed.

Lemma startsWith_length p s :
  startsWith p s = true -> String.length p <= String.length s.
Proof.
  revert s. induction p as [|a p IH]; intros [|b s]; cbn [String.length]; try lia.
  - discriminate.
  - rewrite startsWith_cons. intros [_ H]%andb_true_iff. apply IH in H. lia.
Qed.

Lemma length_dropn n s : String.length (dropn n s) = String.length s - n.
Proof.
  revert s. induction n as [|n IH]; intros [|c s]; cbn; try lia. apply IH.
Qed.

Lemma replace_nil pat rep :
  replace pat rep ""
  = if startsWith pat "" then rep ++ dropn (String.length pat) "" else "".
Proof. reflexivity. Qed.

Lemma replace_cons pat rep c s :
  replace pat rep (String c s)
  = if startsWith pat (String c s)
    then rep ++ dropn (String.length pat) (String c s)
    else String c (replace pat rep s).
Proof. reflexivity. Qed.

(** Without an occurrence of the pattern nothing is replaced. *)
Lemma replace_absent pat rep s :
  includes pat s = false -> replace pat rep s = s.
Proof.
  induction s as [|c s IH].
  - rewrite includes_nil, replace_nil. now intros ->.
  - rewrite includes_cons, replace_cons.
    intros [-> H]%orb_false_iff. now rewrite IH.
Qed.

(** With an occurrence, exactly one copy of the pattern makes room for the
    replacement. *)
Lemma replace_length pat rep s :
  includes pat s = true ->
  String.length (replace pat rep s) + String.length pat
  = String.length s + String.length rep.
Proof.
  induction s as [|c s IH].
  - rewrite includes_nil, replace_nil. intros H. rewrite H.
    rewrite string_length_app, length_dropn.
    apply startsWith_length in H. cbn in *. lia.
  - rewrite includes_cons, replace_cons.
    destruct (startsWith pat (String c s)) eqn:E.
    + intros _. rewrite string_length_app, length_dropn.
      apply startsWith_length in E. lia.
    + cbn [orb]. intros H. apply IH in H. cbn [String.length]. lia.
Qed.

Lemma startsWith_app_l p q s :
  startsWith (p ++ q) s = true -> startsWith p s = true.
Proof.
  revert s. induction p as [|a p IH]; intros s; [reflexivity|].
  destruct s as [|b s]; rewrite append_cons; [discriminate|].
  rewrite !startsWith_cons. intros [-> H]%andb_true_iff. cbn. now apply IH.
Qed.

(** A string that contains [p ++ q] contains [p]. *)
Lemma includes_app_l p q s :
  includes (p ++ q) s = true -> includes p s = true.
Proof.
  induction s as [|c s IH].
  - rewrite !includes_nil. apply startsWith_app_l.
  - rewrite !includes_cons. intros [H|H]%orb_true_iff.
    + apply startsWith_app_l in H. now rewrite H.
    + rewrite (IH H). apply orb_true_r.
Qed.

(** A string that contains [a :: p] contains [p]. *)
Lemma includes_tail a p s :
  includes (String a p) s = true -> includes p s = true.
Proof.
  induction s as [|c s IH].
  - rewrite includes_nil. discriminate.
  - rewrite (includes_cons (String a p)), startsWith_cons.
    intros [[_ H]%andb_true_iff|H]%orb_true_iff.
    + rewrite includes_cons.
      assert (includes p s = true) as ->; [|apply orb_true_r].
      destruct s as [|d s]; [now rewrite includes_nil|].
      rewrite includes_cons, H. reflexivity.
    + rewrite includes_cons, (IH H). apply orb_true_r.
Qed.

Lemma startsWith_refl s : startsWith s s = true.
Proof.
  induction s as [|c s IH]; [reflexivity|].
  rewrite startsWith_cons, IH. now rewrite Ascii.eqb_refl.
Qed.

Lemma startsWith_truthy p s :
  truthy p = true -> startsWith p s = true -> truthy s = true.
Proof.
  destruct p as [|a p]; [discriminate|]. intros _.
  destruct s as [|b s]; [|reflexivity].
  change (startsWith (String a p) "") with false. discriminate.
Qed.

Lemma existsb_orb {A} (f g : A -> bool) l :
  existsb (fun x => f x || g x) l = existsb f l || existsb g l.
Proof.
  induction l as [|x l IH]; [reflexivity|]. simpl. rewrite IH.
  destruct (f x), (g x), (existsb f l); reflexivity.
Qed.

Lemma replaceHtmlSuffix_eq p :
  replaceHtmlSuffix p
  = if String.eqb p ".html" then ".png"
    else match p with
         | EmptyString => EmptyString
         | String c p' => String c (replaceHtmlSuffix p')
         end.
Proof. destruct p; reflexivity. Qed.

Lemma replaceHtmlSuffix_html p :
  replaceHtmlSuffix (p ++ ".html") = p ++ ".png".
Proof.
  induction p as [|c p IH]; [reflexivity|].
  rewrite append_cons, replaceHtmlSuffix_eq.
  destruct (String.eqb _ _) eqn:E.
  - apply String.eqb_eq in E. apply (f_equal String.length) in E.
    cbn in E. rewrite string_length_app in E. cbn in E. lia.
  - now rewrite IH.
Qed.

Lemma replaceHtmlSuffix_other p :
  (forall q, p <> q ++ ".html") -> replaceHtmlSuffix p = p.
Proof.
  induction p as [|c p IH]; intros H; [reflexivity|].
  rewrite replaceHtmlSuffix_eq.
  destruct (String.eqb _ _) eqn:E.
  - apply String.eqb_eq in E. exfalso. apply (H ""). exact E.
  - f_equal. apply IH. intros q ->. apply (H (String c q)). reflexivity.
Qed.

End PathFacts.

(* --------------------------------------------------------------------- *)
(** ** Extraction: where the records come from *)
(* --------------------------------------------------------------------- *)

Module ExtractMore.
Import JsString JsStringFacts JsValue NumberFacts Extract ExtractFacts.

Lemma keepFirst_sublist have rs : keepFirst have rs `sublist_of` rs.
Proof.
  revert have. induction rs as [|r rs IH]; intros have; simpl.
  - constructor.
  - destruct (bool_decide _).
    + apply sublist_cons, IH.
    + apply sublist_skip, IH.
Qed.

(** Every offered link is either known already or kept. *)
Lemma keepFirst_covers have rs r :
  r ∈ rs -> link r ∈ have \/ link r ∈ map link (keepFirst have rs).
Proof.
  revert have. induction rs as [|r' rs IH]; intros have Hin; [inversion Hin|].
  apply elem_of_cons in Hin as [->|Hin]; simpl.
  - case_bool_decide; [now left|]. right. simpl. apply elem_of_cons. now left.
  - case_bool_decide.
    + now apply IH.
    + destruct (IH (have ++ [link r'])%list Hin) as [H'|H'].
      * apply elem_of_app in H' as [H'|H']; [now left|].
        apply list_elem_of_singleton in H'. right. simpl.
        apply elem_of_cons. now left.
      * right. simpl. apply elem_of_cons. now right.
Qed.

(** No link is kept twice, and none that was known. *)
Lemma keepFirst_nodup have rs :
  NoDup (map link (keepFirst have rs))
  /\ forall r, r ∈ keepFirst have rs -> link r ∉ have.
Proof.
  revert have. induction rs as [|r rs IH]; intros have; simpl.
  - split; [constructor|]. intros r H. inversion H.
  - case_bool_decide as Hin; [apply IH|].
    destruct (IH (have ++ [link r])%list) as [Hnd Hfresh]. split.
    + simpl. apply NoDup_cons. split; [|exact Hnd].
      intros Hr. apply list_elem_of_fmap in Hr as (r' & Heq & Hr').
      apply (Hfresh r' Hr'). rewrite <- Heq. apply elem_of_app. right.
      now apply list_elem_of_singleton.
    + intros r' [->|Hr']%elem_of_cons; [exact Hin|].
      intros Hh. apply (Hfresh r' Hr'). apply elem_of_app. now left.
Qed.

Lemma elem_of_concat {A} (x : A) (ls : list (list A)) :
  x ∈ concat ls <-> exists l, x ∈ l /\ l ∈ ls.
Proof.
  induction ls as [|l ls IH]; simpl.
  - split; [intros H; inversion H|intros (l & _ & H); inversion H].
  - rewrite elem_of_app, IH. split.
    + intros [H|(l' & Hx & Hl)].
      * exists l. split; [exact H|left].
      * exists l'. split; [exact Hx|now right].
    + intros (l' & Hx & [->|Hl]%elem_of_cons); [now left|right; eauto].
Qed.

(** What a candidate of the primary pass is made from. *)
Lemma elem_of_primaryCandidates page r :
  r ∈ primaryCandidates page ->
  exists selectors c t,
      selectors ∈ selectorSets
      /\ c ∈ querySelectorAll page (container selectors)
      /\ queryTitle c (titleSel selectors) = Some t
      /\ findLink t c = HrefString (link r)
      /\ startsWith "http" (link r) = true
      /\ title r <> ""
      /\ r = {| title := trim (titleTextContent t); link := link r;
                snippet := findSnippet selectors c |}.
Proof.
  unfold primaryCandidates. intros H.
  apply elem_of_concat in H as (l & Hr & Hl).
  apply list_elem_of_fmap in Hl as (selectors & -> & Hs).
  apply list_elem_of_omap in Hr as (c & Hc & Hcand).
  unfold candidate in Hcand.
  destruct (queryTitle c (titleSel selectors)) as [t|] eqn:Ht; [|discriminate].
  destruct (findLink t c) as [l| |] eqn:Hl; [|discriminate|discriminate].
  destruct (_ && _) eqn:E; [|discriminate]. injection Hcand as <-.
  apply andb_true_iff in E as [E Hti]. apply andb_true_iff in E as [_ Hp].
  exists selectors, c, t. cbn. repeat split; try assumption.
  now apply truthy_true.
Qed.

(** What a candidate of the anchor scan is made from. *)
Lemma elem_of_anchorCandidates page r :
  r ∈ omap anchorCandidate (anchorElements page) ->
  exists el,
     el ∈ anchorElements page
     /\ isHTMLAnchor el = true
     /\ href el <> ""
     /\ excludedLink (href el) = false
     /\ trim (anchorTextContent el) <> ""
     /\ r = recordOfAnchor el.
Proof.
  intros H. apply list_elem_of_omap in H as (el & Hel & Hcand).
  unfold anchorCandidate in Hcand.
  destruct (_ && _) eqn:E; [|discriminate]. injection Hcand as <-.
  apply andb_true_iff in E as [E Ht]. apply andb_true_iff in E as [E Hx].
  apply andb_true_iff in E as [Ha Hh]. apply negb_true_iff in Hx.
  exists el. repeat split; try assumption; now apply truthy_true.
Qed.

(** A container with a title, an absolute link and a non-empty title text
    offers a candidate. *)
Lemma container_offers page selectors c t l :
  selectors ∈ selectorSets ->
  c ∈ querySelectorAll page (container selectors) ->
  queryTitle c (titleSel selectors) = Some t ->
  findLink t c = HrefString l ->
  startsWith "http" l = true ->
  trim (titleTextContent t) <> "" ->
  {| title := trim (titleTextContent t); link := l;
     snippet := findSnippet selectors c |} ∈ candidates page.
Proof.
  intros Hs Hc Ht Hl Hp Hti. unfold candidates, primaryCandidates.
  apply elem_of_app. left. apply elem_of_concat.
  eexists. split; [|apply list_elem_of_fmap; eexists; split; [reflexivity|exact Hs]].
  apply list_elem_of_omap. exists c. split; [exact Hc|].
  unfold candidate. rewrite Ht, Hl, Hp.
  assert (Htr : truthy l = true) by (destruct l; [discriminate Hp|reflexivity]).
  rewrite Htr. apply truthy_true in Hti. now rewrite Hti.
Qed.

(** So does an HTML anchor with a link outside the excluded sites and a
    non-empty text. *)
Lemma anchor_offers page el :
  el ∈ anchorElements page ->
  isHTMLAnchor el = true -> href el <> "" ->
  excludedLink (href el) = false ->
  trim (anchorTextContent el) <> "" ->
  recordOfAnchor el ∈ candidates page.
Proof.
  intros Hel Ha Hh Hx Ht. unfold candidates. apply elem_of_app. right.
  apply list_elem_of_omap. exists el. split; [exact Hel|].
  unfold anchorCandidate. apply truthy_true in Hh, Ht.
  now rewrite Ha, Hh, Hx, Ht.
Qed.

(** What the upward walk for a snippet returns. *)
Lemma surroundingText_spec i title parents :
  surroundingText i title parents = ""
  \/ (20 < jsLength (surroundingText i title parents)
      /\ surroundingText i title parents <> title
      /\ exists p, p ∈ take i parents
                   /\ surroundingText i title parents = trim p).
Proof.
  revert parents. induction i as [|i IH]; intros [|p parents]; simpl; auto.
  destruct (_ && _) eqn:E.
  - right. apply andb_true_iff in E as [E1 E2].
    apply Nat.ltb_lt in E1. apply negb_true_iff, String.eqb_neq in E2.
    split; [exact E1|]. split; [exact E2|]. exists p. split; [left|reflexivity].
  - destruct (IH parents) as [H|(H1 & H2 & q & Hq & H3)]; [now left|right].
    split; [exact H1|]. split; [exact H2|]. exists q. split; [now right|exact H3].
Qed.

(** Every returned record is one of the candidates. *)
Lemma extract_candidates page N rs r :
  extract page N = Some rs -> r ∈ rs -> r ∈ candidates page.
Proof.
  intros H Hr. apply extract_closed_form in H. subst rs.
  eapply elem_of_sublist; [exact Hr|].
  etransitivity; [apply takeUpTo_sublist|apply keepFirst_sublist].
Qed.

Lemma extract_nodup page N rs :
  extract page N = Some rs -> NoDup (map link rs).
Proof.
  intros H. apply extract_closed_form in H. subst rs.
  eapply sublist_NoDup; [apply (keepFirst_nodup [] (candidates page))|].
  apply (fmap_sublist _), takeUpTo_sublist.
Qed.

Lemma extract_length page N rs :
  extract page N = Some rs ->
  match kept N with Some k => length rs <= k | None => True end.
Proof.
  intros H. apply extract_closed_form in H. subst rs.
  destruct (kept N); cbn; [rewrite length_take; lia|exact I].
Qed.

(** On a page whose anchors resolve to links beginning with [http], every
    returned record has a title and such a link. *)
Lemma extract_wellformed page N rs :
  anchorsAbsolute page ->
  extract page N = Some rs ->
  Forall (fun r => title r <> "" /\ startsWith "http" (link r) = true) rs.
Proof.
  intros Habs Hrs. apply Forall_forall. intros r Hr.
  apply (extract_candidates page N rs r Hrs) in Hr.
  unfold candidates in Hr. apply elem_of_app in Hr as [Hr|Hr].
  - apply elem_of_primaryCandidates in Hr
      as (selectors & c & t & _ & _ & _ & _ & Hp & Hti & _).
    now split.
  - apply elem_of_anchorCandidates in Hr as (el & Hel & _ & _ & _ & Ht & ->).
    split; [exact Ht|]. unfold anchorsAbsolute in Habs.
    rewrite Forall_forall in Habs. exact (Habs el Hel).
Qed.

End ExtractMore.

(* --------------------------------------------------------------------- *)
(** ** File names and previews *)
(* --------------------------------------------------------------------- *)

Module CodeUnitsFacts.
Import CodeUnits.

(** A code unit a sanitized query may hold. *)
Definition safeUnit (u : N) : Prop := isAlnum u = true \/ u = 95%N.

Lemma sanitize_unit_fixed u :
  let v := if isAlnum u then u else 95%N in
  (if isAlnum v then v else 95%N) = v.
Proof.
  cbv zeta. destruct (isAlnum u) eqn:E; [now rewrite E|reflexivity].
Qed.

Lemma sanitizedQuery_idem q : sanitizedQuery (sanitizedQuery q) = sanitizedQuery q.
Proof.
  unfold sanitizedQuery. rewrite <- fmap_take, take_take, Nat.min_id.
  rewrite <- !fmap_take. rewrite <- list_fmap_compose.
  apply list_fmap_ext. intros _ u _. apply sanitize_unit_fixed.
Qed.

Lemma sanitizedQuery_length q : length (sanitizedQuery q) = min 50 (length q).
Proof. unfold sanitizedQuery. now rewrite length_take, length_map. Qed.

Lemma sanitizedQuery_safe q : Forall safeUnit (sanitizedQuery q).
Proof.
  unfold sanitizedQuery. apply Forall_take, Forall_fmap, Forall_forall.
  intros u _. unfold safeUnit. simpl. destruct (isAlnum u) eqn:E; auto.
Qed.

(** No path separator, dot, colon or NUL is a safe unit. *)
Lemma safeUnit_not_separator u :
  safeUnit u -> u <> 47%N /\ u <> 92%N /\ u <> 46%N /\ u <> 58%N /\ u <> 0%N.
Proof.
  intros [H| ->]; [|repeat split; discriminate].
  repeat split; intros ->; discriminate.
Qed.

Lemma htmlPreview_length html :
  length (htmlPreview html)
  = if (length html <=? 500)%nat then length html else 503.
Proof.
  unfold htmlPreview. rewrite length_app, length_take.
  destruct (Nat.leb_spec (length html) 500);
    destruct (Nat.ltb_spec 500 (length html)); cbn [length]; lia.
Qed.

Lemma htmlPreview_short html :
  length html <= 500 -> htmlPreview html = html.
Proof.
  intros H. unfold htmlPreview.
  destruct (Nat.ltb_spec 500 (length html)); [lia|].
  rewrite app_nil_r. now apply take_ge.
Qed.

Lemma htmlPreview_prefix html : take 500 (htmlPreview html) = take 500 html.
Proof.
  destruct (Nat.le_gt_cases (length html) 500) as [H|H].
  - now rewrite htmlPreview_short.
  - unfold htmlPreview. rewrite take_app_le by (rewrite length_take; lia).
    now rewrite take_take, Nat.min_id.
Qed.

End CodeUnitsFacts.


(* --------------------------------------------------------------------- *)
(** ** A weakest-precondition calculus for the orchestrator monad *)
(* --------------------------------------------------------------------- *)

Module Wp.
Import JsValue Search.
Local Open Scope search_scope.

(** [wp m Q s]: running [m] from [s] ends in an outcome and a state that
    satisfy [Q]. *)
Definition wp {A} (m : M A) (Q : Outcome A -> RunState -> Prop) (s : RunState)
  : Prop :=
  Q (m s).1 (m s).2.

(** The postcondition a computation leaves for its continuation. *)
Definition andThen {A B} (k : A -> M B) (Q : Outcome B -> RunState -> Prop)
  : Outcome A -> RunState -> Prop :=
  fun r s =>
    match r with
    | Ok a => wp (k a) Q s
    | Throw e => Q (Throw e) s
    | OutOfFuel => Q OutOfFuel s
    end.

(** The postcondition of a [try] block with the given handler. *)
Definition orCatch {A} (handler : string -> M A)
           (Q : Outcome A -> RunState -> Prop)
  : Outcome A -> RunState -> Prop :=
  fun r s =>
    match r with
    | Throw e => wp (handler e) Q s
    | other => Q other s
    end.

Lemma wp_ret {A} (a : A) Q s : Q (Ok a) s -> wp (ret a) Q s.
Proof. exact id. Qed.

Lemma wp_throw {A} e (Q : Outcome A -> RunState -> Prop) s :
  Q (Throw e) s -> wp (throw e) Q s.
Proof. exact id. Qed.

Lemma wp_bind {A B} (m : M A) (k : A -> M B) Q s :
  wp m (andThen k Q) s -> wp (bind m k) Q s.
Proof.
  unfold wp, andThen, bind. destruct (m s) as [[a|e|] s']; simpl; exact id.
Qed.

Lemma wp_tryCatch {A} (m : M A) handler Q s :
  wp m (orCatch handler Q) s -> wp (tryCatch m handler) Q s.
Proof.
  unfold wp, orCatch, tryCatch. destruct (m s) as [[a|e|] s']; simpl; exact id.
Qed.

Lemma wp_consequence {A} (m : M A) (Q Q' : Outcome A -> RunState -> Prop) s :
  wp m Q s -> (forall r s', Q r s' -> Q' r s') -> wp m Q' s.
Proof. unfold wp. intros H HQ. now apply HQ. Qed.

Lemma wp_conj {A} (m : M A) (Q Q' : Outcome A -> RunState -> Prop) s :
  wp m Q s -> wp m Q' s -> wp m (fun r s' => Q r s' /\ Q' r s') s.
Proof. unfold wp. now split. Qed.

Lemma wp_call w headless site (Q : Outcome unit -> RunState -> Prop) s :
  (throwsAt w headless site = None -> Q (Ok tt) s) ->
  (forall e, throwsAt w headless site = Some e -> Q (Throw e) s) ->
  wp (call w headless site) Q s.
Proof.
  unfold wp, call. intros Hok Hthrow.
  destruct (throwsAt w headless site) as [e|]; simpl; auto.
Qed.

Definition addEvent (e : Event) (s : RunState) : RunState :=
  {| fs := fs s; savedState := savedState s;
     events := events s ++ [e]; launched := launched s |}.

Definition withSaved (saved : Json) (s : RunState) : RunState :=
  {| fs := fs s; savedState := saved; events := events s; launched := launched s |}.

Definition withFile (path : string) (c : FileContent) (s : RunState) : RunState :=
  {| fs := <[path := c]> (fs s); savedState := savedState s;
     events := events s; launched := launched s |}.

Definition withDirectoriesIn (dirs : list string) (s : RunState) : RunState :=
  {| fs := withDirectories dirs (fs s); savedState := savedState s;
     events := events s; launched := launched s |}.

Definition withLaunch (mode : bool) (s : RunState) : RunState :=
  {| fs := fs s; savedState := savedState s;
     events := events s ++ [Launch (Launched (launched s) mode)];
     launched := S (launched s) |}.

Lemma wp_emit e (Q : Outcome unit -> RunState -> Prop) s :
  Q (Ok tt) (addEvent e s) -> wp (emit e) Q s.
Proof. exact id. Qed.

Lemma wp_setSavedState saved (Q : Outcome unit -> RunState -> Prop) s :
  Q (Ok tt) (withSaved saved s) -> wp (setSavedState saved) Q s.
Proof. exact id. Qed.

Lemma wp_writePath path c (Q : Outcome unit -> RunState -> Prop) s :
  Q (Ok tt) (withFile path c s) -> wp (writePath path c) Q s.
Proof. exact id. Qed.

Lemma wp_makeDirectories dirs (Q : Outcome unit -> RunState -> Prop) s :
  Q (Ok tt) (withDirectoriesIn dirs s) -> wp (makeDirectories dirs) Q s.
Proof. exact id. Qed.

Lemma wp_freshBrowser mode (Q : Outcome Browser -> RunState -> Prop) s :
  Q (Ok (Launched (launched s) mode)) (withLaunch mode s) ->
  wp (freshBrowser mode) Q s.
Proof. exact id. Qed.

Lemma wp_getSavedState (Q : Outcome Json -> RunState -> Prop) s :
  Q (Ok (savedState s)) s -> wp getSavedState Q s.
Proof. exact id. Qed.

Lemma wp_lookupPath path (Q : Outcome (option FileContent) -> RunState -> Prop) s :
  Q (Ok (fs s !! path)) s -> wp (lookupPath path) Q s.
Proof. exact id. Qed.

Lemma wp_existsSync path (Q : Outcome bool -> RunState -> Prop) s :
  Q (Ok (bool_decide (is_Some (fs s !! path)))) s -> wp (existsSync path) Q s.
Proof. exact id. Qed.

(** One step of symbolic execution. *)
Ltac wp_step :=
  lazymatch goal with
  | |- wp (bind _ _) _ _ => apply wp_bind
  | |- wp (tryCatch _ _) _ _ => apply wp_tryCatch
  | |- wp (ret _) _ _ => apply wp_ret
  | |- wp (throw _) _ _ => apply wp_throw
  | |- wp (call _ _ _) _ _ => apply wp_call; [intros ?|intros ? ?]
  | |- wp (emit _) _ _ => apply wp_emit
  | |- wp (setSavedState _) _ _ => apply wp_setSavedState
  | |- wp (writePath _ _) _ _ => apply wp_writePath
  | |- wp (makeDirectories _) _ _ => apply wp_makeDirectories
  | |- wp (freshBrowser _) _ _ => apply wp_freshBrowser
  | |- wp getSavedState _ _ => apply wp_getSavedState
  | |- wp (lookupPath _) _ _ => apply wp_lookupPath
  | |- wp (existsSync _) _ _ => apply wp_existsSync
  | |- wp (launch _ _ _ _) _ _ => unfold launch
  | |- wp (newContext _ _ _ _ _) _ _ => unfold newContext
  | |- wp (newPage _ _ _ _) _ _ => unfold newPage
  | |- wp (closePage _ _ _ _) _ _ => unfold closePage
  | |- wp (closeContext _ _ _ _) _ _ => unfold closeContext
  | |- wp (closeBrowser _ _ _ _) _ _ => unfold closeBrowser
  | |- wp (mkdirSync _ _ _ _) _ _ => unfold mkdirSync
  | |- wp (storageState _ _ _ _) _ _ => unfold storageState
  | |- wp (writeSavedState _ _ _ _) _ _ => unfold writeSavedState
  | |- wp (writeOther _ _ _ _) _ _ => unfold writeOther
  | |- wp (if ?c then _ else _) _ _ => destruct c eqn:?
  | |- wp (match ?x with _ => _ end) _ _ => destruct x eqn:?
  | |- andThen _ _ _ _ => unfold andThen at 1; cbv beta match
  | |- orCatch _ _ _ _ => unfold orCatch at 1; cbv beta match
  end.

Ltac wp_run := repeat wp_step.

(** Use a proved specification of the computation at the head of the goal. *)
Ltac wp_apply lem :=
  eapply wp_consequence; [apply lem|cbv beta; intros ? ? ?].

End Wp.


(* --------------------------------------------------------------------- *)
(** ** Reading and assigning properties of the saved state *)
(* --------------------------------------------------------------------- *)

Module JsonFacts.
Import JsValue Search.

Lemma getProp_object key v x : getProp key v = Some x -> isPrimitive v = false.
Proof. destruct v; cbn; congruence. Qed.

Lemma whenTruthy_Some o x :
  whenTruthy o = Some x <-> o = Some x /\ truthyJ x = true.
Proof.
  unfold whenTruthy. destruct o as [j|]; [|split; [discriminate|intros [[=] _]]].
  destruct (truthyJ j) eqn:E; split.
  - intros [= <-]. auto.
  - intros [[= <-] _]. reflexivity.
  - discriminate.
  - intros [[= <-] H]. congruence.
Qed.

Lemma whenTruthy_object key v x :
  whenTruthy (getProp key v) = Some x -> isPrimitive v = false.
Proof. intros [H _]%whenTruthy_Some. eapply getProp_object, H. Qed.

Lemma setProp_Some key x v v' :
  setProp key x v = Some v' -> isPrimitive v = false /\ isPrimitive v' = false.
Proof. destruct v; cbn; intros [= <-]; auto. Qed.

Lemma setProp_None key x v : setProp key x v = None <-> isPrimitive v = true.
Proof. destruct v; cbn; split; congruence. Qed.

Lemma assoc_setField_eq key x fields : assoc key (setField key x fields) = Some x.
Proof.
  induction fields as [|[k v] rest IH]; cbn.
  - now rewrite String.eqb_refl.
  - destruct (String.eqb k key) eqn:E; cbn; rewrite E; [reflexivity|exact IH].
Qed.

Lemma assoc_setField_ne key key' x fields :
  key <> key' -> assoc key' (setField key x fields) = assoc key' fields.
Proof.
  intros Hne. induction fields as [|[k v] rest IH]; cbn.
  - apply String.eqb_neq in Hne. now rewrite Hne.
  - destruct (String.eqb k key) eqn:E; cbn.
    + apply String.eqb_eq in E. subst k.
      apply String.eqb_neq in Hne. now rewrite Hne.
    + now rewrite IH.
Qed.

Lemma getProp_setProp_eq key x v v' :
  setProp key x v = Some v' -> getProp key v' = Some x.
Proof. destruct v; cbn; intros [= <-]; cbn; apply assoc_setField_eq. Qed.

Lemma getProp_setProp_ne key key' x v v' :
  key <> key' -> setProp key x v = Some v' -> getProp key' v' = getProp key' v.
Proof.
  intros Hne. destruct v; cbn; intros [= <-]; cbn; now apply assoc_setField_ne.
Qed.

End JsonFacts.

(* --------------------------------------------------------------------- *)
(** ** How the two operations end *)
(* --------------------------------------------------------------------- *)

Module Outcomes.
Import JsValue Search Wp JsonFacts.
Local Open Scope search_scope.


Section Facts.
Variable w : World.
Variable searchQuery : string.
Variable options : CommandOptions.

(** What an operation started with the saved state [saved] in memory can
    raise: what a call outside every [try] block threw, or the [TypeError]
    of a saved state that is [null] or a primitive value. *)
Definition raisedUnguarded (saved : Json) (e : string) : Prop :=
  (exists headless site, unguarded site = true /\ throwsAt w headless site = Some e)
  \/ (isPrimitive saved = true /\ e = typeErrorMessage w saved).

Lemma raisedUnguarded_object saved saved' e :
  isPrimitive saved = false -> raisedUnguarded saved e -> raisedUnguarded saved' e.
Proof. intros Ho [H|[H _]]; [now left|congruence]. Qed.

Ltac saved_returns lem :=
  wp_apply lem;
  match goal with H : _ = Ok tt /\ _ |- _ => destruct H as [-> ?] end.

(** The persistence block swallows whatever is thrown inside it. *)
Lemma saveBrowserState_returns headless sp s :
  wp (saveBrowserState w options headless sp)
     (fun r s' => r = Ok tt /\ savedState s' = savedState s) s.
Proof. unfold saveBrowserState. wp_run; now split. Qed.

(** The input lookup changes nothing; it returns or rethrows a failed
    [page.$]. *)
Lemma findSearchInput_frame headless selectors s :
  wp (findSearchInput w headless selectors)
     (fun r s' => s' = s /\ r <> OutOfFuel) s.
Proof.
  induction selectors as [|selector rest IH]; simpl.
  - wp_run. now split.
  - wp_run; [now split|exact IH|now split].
Qed.

(** The domain the list offers. *)
Definition listedDomain (headless : bool) : Json :=
  JString (nth (randomDomain w headless mod 4) googleDomains "").

(** [selectDomain] by what the saved state allows: a saved state that can
    take no property makes it throw; otherwise the stored domain is
    returned if it is truthy, else the listed one is stored and returned. *)
Lemma selectDomain_eq headless s :
  selectDomain w headless s
  = match setProp "googleDomain" (listedDomain headless) (savedState s) with
    | None => (Throw (typeErrorMessage w (savedState s)), s)
    | Some saved' =>
        match whenTruthy (googleDomain (savedState s)) with
        | Some d => (Ok d, s)
        | None => (Ok (listedDomain headless), withSaved saved' s)
        end
    end.
Proof.
  unfold selectDomain, bind, getSavedState, googleDomain, listedDomain.
  destruct (savedState s); cbn -[whenTruthy]; try reflexivity;
    destruct (whenTruthy _); reflexivity.
Qed.

(** Choosing the domain touches only the [googleDomain] property; it
    throws on a saved state that cannot have one. *)
Lemma selectDomain_frame headless (Q : Outcome Json -> RunState -> Prop) s :
  (forall d s', fs s' = fs s -> events s' = events s ->
                launched s' = launched s ->
                fingerprint (savedState s') = fingerprint (savedState s) ->
                isPrimitive (savedState s') = false ->
                Q (Ok d) s') ->
  (forall e, isPrimitive (savedState s) = true -> Q (Throw e) s) ->
  wp (selectDomain w headless) Q s.
Proof.
  intros HQ HT. unfold wp. rewrite selectDomain_eq.
  destruct (setProp _ _ _) as [saved'|] eqn:Hset; cbn.
  - destruct (setProp_Some _ _ _ _ Hset) as [Ho Ho'].
    destruct (whenTruthy _); cbn; apply HQ; try reflexivity; try assumption.
    cbn. unfold fingerprint.
    eapply (getProp_setProp_ne "googleDomain" "fingerprint");
      [discriminate|eassumption].
  - apply HT. now apply (setProp_None "googleDomain" (listedDomain headless)).
Qed.

(** The key of the device descriptor [getDeviceConfig] returns. *)
Definition storedDeviceName (saved : Json) : option Json :=
  match fingerprint saved with
  | Some JNull | None => None
  | Some fp => getProp "deviceName" fp
  end.

Definition chosenDevice (headless : bool) (saved : Json) : Json :=
  if truthyV (storedDeviceName saved)
     && deviceKnown w (default JNull (storedDeviceName saved))
  then default JNull (storedDeviceName saved)
  else JString (nth (randomDevice w headless mod 4) deviceList "Desktop Chrome").

(** The identity generated on this host. *)
Definition freshIdentity : FingerprintConfig :=
  getHostMachineConfig (host w) (Some (userLocale options)).

(** [buildContextOptions] by what the saved state allows. *)
Lemma buildContextOptions_eq headless s :
  buildContextOptions w options headless s
  = match setProp "fingerprint" (fingerprintJson freshIdentity) (savedState s) with
    | None => (Throw (typeErrorMessage w (savedState s)), s)
    | Some saved' =>
        match whenTruthy (fingerprint (savedState s)) with
        | Some fp => (Ok (optionsOf (chosenDevice headless (savedState s)) fp), s)
        | None =>
            (Ok (optionsOf (JString (deviceName freshIdentity))
                           (fingerprintJson freshIdentity)),
             withSaved saved' s)
        end
    end.
Proof.
  unfold buildContextOptions, getDeviceConfig, bind, getSavedState,
    chosenDevice, storedDeviceName, freshIdentity, fingerprint.
  destruct (savedState s) eqn:E; cbn -[whenTruthy]; rewrite ?E;
    cbn -[whenTruthy]; try reflexivity;
    repeat (match goal with
            | |- context [if ?c then _ else _] => destruct c
            end; cbn -[whenTruthy]; rewrite ?E; cbn -[whenTruthy]);
    try destruct (whenTruthy _); reflexivity.
Qed.

Section PerformSearch.
Variable existingBrowser : option Browser.
Variable storage : option string.

(** What the [try] block of [performSearch] can end with. *)
Definition bodyPost (headless : bool)
  : Outcome (Step SearchResponse) -> RunState -> Prop :=
  fun r s' =>
    match r with
    | Ok (Done response) =>
        exists extracted,
          Extract.extract (renderedPage w headless) (limit options)
          = Some extracted
          /\ response = {| query := searchQuery; results := extracted |}
    | Ok Restart => headless = true /\ isPrimitive (savedState s') = false
    | Throw _ => True
    | OutOfFuel => False
    end.

Lemma restartHeaded_post cp ses s :
  isPrimitive (savedState s) = false ->
  wp (restartHeaded w cp ses true) (bodyPost true) s.
Proof.
  intros Ho. unfold restartHeaded.
  wp_run; first [exact I|split; [reflexivity|exact Ho]].
Qed.

Lemma extractAndFinish_post ses headless s :
  wp (extractAndFinish w searchQuery options ses headless) (bodyPost headless) s.
Proof.
  unfold extractAndFinish, evaluateExtraction. wp_run; try exact I.
  saved_returns saveBrowserState_returns.
  unfold releaseBrowser.
  wp_run; first [exact I|eexists; split; [eassumption|reflexivity]].
Qed.

Lemma awaitResults_post ses headless s :
  isPrimitive (savedState s) = false ->
  wp (awaitResults w searchQuery options ses headless) (bodyPost headless) s.
Proof.
  intros Ho. unfold awaitResults, waitForVerification.
  wp_run; try exact I;
    try apply extractAndFinish_post; now apply restartHeaded_post.
Qed.

Lemma submitQuery_post ses headless s :
  isPrimitive (savedState s) = false ->
  wp (submitQuery w searchQuery options ses headless) (bodyPost headless) s.
Proof.
  intros Ho. unfold submitQuery. wp_run.
  wp_apply findSearchInput_frame. destruct H as [-> Hr].
  destruct r as [found| |]; [|exact I|congruence].
  unfold waitForVerification.
  wp_run; try exact I;
    try (now apply awaitResults_post); now apply restartHeaded_post.
Qed.

Lemma searchBody_post ses headless s :
  wp (searchBody w searchQuery options ses headless) (bodyPost headless) s.
Proof.
  unfold searchBody. wp_run.
  apply selectDomain_frame; [|intros; exact I]. intros d s' _ _ _ _ Ho.
  unfold waitForVerification.
  wp_run; try exact I;
    try (now apply submitQuery_post); now apply restartHeaded_post.
Qed.

(** What the [catch] block of [performSearch] ends with. *)
Lemma searchFailed_post ses headless e s :
  wp (searchFailed w searchQuery options ses headless e)
     (fun r _ =>
        r = Ok (Done {| query := searchQuery; results := [failureRecord e] |})
        \/ exists e', r = Throw e'
                      /\ browserWasProvided ses = false
                      /\ throwsAt w headless SCloseOnError = Some e') s.
Proof.
  unfold searchFailed. wp_run.
  saved_returns saveBrowserState_returns.
  unfold releaseBrowser. wp_run; eauto.
  right. exists e0. apply negb_true_iff in Heqb. auto.
Qed.

(** One activation, started with [saved] in memory: it returns the extracted
    records, or the one synthetic record, or hands over to a headed
    activation; it raises only what an unguarded call threw, or the
    [TypeError] of a saved state without properties. *)
Definition attemptPost (saved : Json) (headless : bool)
  : Outcome (Step SearchResponse) -> RunState -> Prop :=
  fun r s' =>
    match r with
    | Ok (Done response) =>
        query response = searchQuery
        /\ ((exists extracted,
               Extract.extract (renderedPage w headless) (limit options)
               = Some extracted
               /\ results response = extracted)
            \/ exists e, results response = [failureRecord e])
    | Ok Restart => headless = true /\ isPrimitive (savedState s') = false
    | Throw e => raisedUnguarded saved e
    | OutOfFuel => False
    end.

(** The set-up: with a saved state that is an object it can only fail at a
    call; with [null] or a primitive value it raises a [TypeError] once the
    browser is there, unless the launch failed before. *)
Lemma buildContextOptions_raises headless
      (Q : Outcome ContextOptions -> RunState -> Prop) s :
  (forall opts s', isPrimitive (savedState s') = false ->
                   fs s' = fs s -> events s' = events s ->
                   launched s' = launched s -> Q (Ok opts) s') ->
  (isPrimitive (savedState s) = true ->
   Q (Throw (typeErrorMessage w (savedState s))) s) ->
  wp (buildContextOptions w options headless) Q s.
Proof.
  intros Hok Hthrow. unfold wp. rewrite buildContextOptions_eq.
  destruct (setProp _ _ _) as [saved'|] eqn:Hset; cbn.
  - destruct (setProp_Some _ _ _ _ Hset) as [Ho Ho'].
    destruct (whenTruthy _); cbn; apply Hok; try reflexivity; assumption.
  - apply Hthrow. now apply (setProp_None "fingerprint" (fingerprintJson freshIdentity)).
Qed.


Lemma openSession_raises headless (Q : Outcome Session -> RunState -> Prop) s :
  (forall ses s', isPrimitive (savedState s') = false -> Q (Ok ses) s') ->
  (forall e s', raisedUnguarded (savedState s) e -> Q (Throw e) s') ->
  wp (openSession w options existingBrowser storage headless) Q s.
Proof.
  intros Hok Hthrow.
  assert (Hsite : forall site e s',
             unguarded site = true -> throwsAt w headless site = Some e ->
             Q (Throw e) s').
  { intros site e s' Hu He. apply Hthrow. left. eauto. }
  unfold openSession. wp_run.
  all: try (eapply Hsite; [|eassumption]; reflexivity).
  all: apply buildContextOptions_raises;
    [intros opts s' Ho _ _ _; wp_run;
     first [ eapply Hsite; [|eassumption]; reflexivity | now apply Hok ]
    |intros Hp; wp_run; apply Hthrow; right; split; [exact Hp|reflexivity] ].
Qed.

Lemma attempt_post headless s :
  wp (attempt w searchQuery options existingBrowser storage headless)
     (attemptPost (savedState s) headless) s.
Proof.
  unfold attempt. wp_run.
  apply openSession_raises; [|intros e s' He; exact He].
  intros ses s' Ho. wp_run.
  wp_apply searchBody_post.
  destruct r as [[response|]|e|]; simpl in *; wp_run.
  - destruct H as (extracted & Hx & ->). split; [reflexivity|left; eauto].
  - assumption.
  - wp_apply searchFailed_post.
    destruct H0 as [->|(e' & -> & _ & He')]; simpl.
    + split; [reflexivity|right; eauto].
    + left. eexists headless, _. split; [|eassumption]. reflexivity.
  - assumption.
Qed.

(** How [performSearch] ends. *)
Definition searchPost (saved : Json) : Outcome SearchResponse -> RunState -> Prop :=
  fun r _ =>
    match r with
    | Ok response =>
        query response = searchQuery
        /\ ((exists headless extracted,
               Extract.extract (renderedPage w headless) (limit options)
               = Some extracted
               /\ results response = extracted)
            \/ exists e, results response = [failureRecord e])
    | Throw e => raisedUnguarded saved e
    | OutOfFuel => False
    end.

Lemma attemptPost_searchPost saved headless response s :
  attemptPost saved headless (Ok (Done response)) s ->
  searchPost saved (Ok response) s.
Proof.
  simpl. intros [Hq [Hr|Hr]]; (split; [exact Hq|]); [left|right]; eauto.
Qed.

Lemma performSearch_S fuel headless :
  performSearch w searchQuery options existingBrowser storage (S fuel) headless
  = bind (attempt w searchQuery options existingBrowser storage headless)
         (fun step =>
            match step with
            | Done response => ret response
            | Restart =>
                performSearch w searchQuery options existingBrowser storage
                              fuel false
            end).
Proof. reflexivity. Qed.

(** A headed activation never starts another one. *)
Lemma performSearch_headed fuel s :
  wp (performSearch w searchQuery options existingBrowser storage (S fuel) false)
     (searchPost (savedState s)) s.
Proof.
  rewrite performSearch_S. wp_run. wp_apply attempt_post.
  destruct r as [[response|]|e|]; wp_run.
  - eapply attemptPost_searchPost; eassumption.
  - destruct H; discriminate.
  - exact H.
  - exact H.
Qed.

(** Two levels of [performSearch] are enough for every run. *)
Lemma performSearch_post fuel headless s :
  wp (performSearch w searchQuery options existingBrowser storage
                    (S (S fuel)) headless)
     (searchPost (savedState s)) s.
Proof.
  rewrite performSearch_S. wp_run. wp_apply attempt_post.
  destruct r as [[response|]|e|]; wp_run.
  - eapply attemptPost_searchPost; eassumption.
  - destruct H as [_ Ho]. wp_apply performSearch_headed.
    destruct r as [response|e|]; cbn in *; try assumption.
    eapply raisedUnguarded_object; eassumption.
  - exact H.
  - exact H.
Qed.

End PerformSearch.

(** What the prologue leaves in memory, started on a disk: the parsed
    content of the fingerprint file when the state file exists and the
    fingerprint file is read and parsed, else the empty object. *)
Definition loadedState (disk : gmap string FileContent) : Json :=
  match disk !! stateFile options, disk !! fingerprintFile options,
        throwsAt w true SReadFingerprint with
  | Some _, Some (JsonFile value), None => value
  | _, _, _ => emptySavedState
  end.

(** The prologue never throws, and touches the memory only. *)
Lemma loadSavedState_returns s :
  savedState s = emptySavedState ->
  wp (loadSavedState w options)
     (fun r s' => (r = Ok None \/ r = Ok (Some (stateFile options)))
                  /\ fs s' = fs s /\ events s' = events s
                  /\ launched s' = launched s
                  /\ savedState s' = loadedState (fs s)) s.
Proof.
  intros Hs. unfold loadSavedState, loadedState. wp_run; cbn.
  all: repeat match goal with
         | H : bool_decide _ = true |- _ =>
             apply bool_decide_eq_true in H; destruct H as [? H]
         | H : bool_decide _ = false |- _ =>
             apply bool_decide_eq_false in H;
             apply eq_None_not_Some in H
         end.
  all: repeat match goal with
         | H : _ !! _ = _ |- _ => rewrite H
         | H : throwsAt _ _ _ = _ |- _ => rewrite H
         end.
  all: try (repeat split; auto; fail).
  all: repeat split; auto;
    repeat match goal with
         | |- context [match ?x with _ => _ end] => destruct x
         end; auto.
Qed.

Lemma googleSearchM_post existingBrowser disk :
  wp (googleSearchM w searchQuery options existingBrowser)
     (searchPost (loadedState disk)) (initialState disk).
Proof.
  unfold googleSearchM. wp_run. wp_apply (loadSavedState_returns (initialState disk)).
  - reflexivity.
  - destruct H as ([->| ->] & _ & _ & _ & Hsaved); wp_run;
      cbn [fs initialState] in Hsaved; rewrite <- Hsaved;
      apply performSearch_post.
Qed.

Section PerformSearchAndGetHtml.
Variable saveToFile : bool.
Variable outputPath : option string.
Variable storage : option string.

Definition htmlBodyPost (headless : bool)
  : Outcome (Step HtmlResponse) -> RunState -> Prop :=
  fun r s' =>
    match r with
    | Ok Restart => headless = true /\ isPrimitive (savedState s') = false
    | OutOfFuel => False
    | _ => True
    end.

Lemma restartHeadedHtml_post cp ses s :
  isPrimitive (savedState s) = false ->
  wp (restartHeadedHtml w cp ses true) (htmlBodyPost true) s.
Proof.
  intros Ho. unfold restartHeadedHtml.
  wp_run; first [exact I|split; [reflexivity|exact Ho]].
Qed.

Lemma saveHtml_terminates headless html s :
  wp (saveHtml w saveToFile outputPath headless html)
     (fun r _ => r <> OutOfFuel) s.
Proof. unfold saveHtml. wp_run; discriminate. Qed.

Lemma captureHtml_post ses headless s :
  wp (captureHtml w searchQuery options saveToFile outputPath ses headless)
     (htmlBodyPost headless) s.
Proof.
  unfold captureHtml. wp_run; try exact I.
  wp_apply saveHtml_terminates.
  destruct r as [[savedFilePath screenshotPath]|e|]; [|exact I|congruence].
  wp_run. saved_returns saveBrowserState_returns.
  wp_run; exact I.
Qed.

Lemma submitQueryHtml_post ses headless s :
  isPrimitive (savedState s) = false ->
  wp (submitQueryHtml w searchQuery options saveToFile outputPath ses headless)
     (htmlBodyPost headless) s.
Proof.
  intros Ho. unfold submitQueryHtml. wp_run.
  wp_apply findSearchInput_frame. destruct H as [-> Hr].
  destruct r as [found| |]; [|exact I|congruence].
  wp_run; try exact I;
    try apply captureHtml_post; now apply restartHeadedHtml_post.
Qed.

Lemma htmlBody_post ses headless s :
  wp (htmlBody w searchQuery options saveToFile outputPath ses headless)
     (htmlBodyPost headless) s.
Proof.
  unfold htmlBody. wp_run.
  apply selectDomain_frame; [|intros; exact I]. intros d s' _ _ _ _ Ho.
  wp_run; try exact I;
    try (now apply submitQueryHtml_post); now apply restartHeadedHtml_post.
Qed.

(** What the [catch] block of [performSearchAndGetHtml] ends with. *)
Lemma htmlFailed_post ses headless e s :
  wp (htmlFailed w options ses headless e)
     (fun r _ =>
        r = Throw (wrapHtmlError e)
        \/ exists e', r = Throw e'
                      /\ throwsAt w headless SCloseOnError = Some e') s.
Proof.
  unfold htmlFailed. wp_run.
  saved_returns saveBrowserState_returns.
  wp_run; eauto.
Qed.

Definition htmlAttemptPost (saved : Json) (headless : bool)
  : Outcome (Step HtmlResponse) -> RunState -> Prop :=
  fun r s' =>
    match r with
    | Ok (Done _) => True
    | Ok Restart => headless = true /\ isPrimitive (savedState s') = false
    | Throw e => raisedUnguarded saved e \/ exists m, e = wrapHtmlError m
    | OutOfFuel => False
    end.

Lemma openHtmlSession_raises headless (Q : Outcome Session -> RunState -> Prop) s :
  (forall ses s', isPrimitive (savedState s') = false -> Q (Ok ses) s') ->
  (forall e s', raisedUnguarded (savedState s) e -> Q (Throw e) s') ->
  wp (openHtmlSession w options storage headless) Q s.
Proof.
  intros Hok Hthrow.
  assert (Hsite : forall site e s',
             unguarded site = true -> throwsAt w headless site = Some e ->
             Q (Throw e) s').
  { intros site e s' Hu He. apply Hthrow. left. eauto. }
  unfold openHtmlSession. wp_run.
  all: try (eapply Hsite; [|eassumption]; reflexivity).
  all: apply buildContextOptions_raises;
    [intros opts s' Ho _ _ _; wp_run;
     first [ eapply Hsite; [|eassumption]; reflexivity | now apply Hok ]
    |intros Hp; wp_run; apply Hthrow; right; split; [exact Hp|reflexivity] ].
Qed.

Lemma htmlAttempt_post headless s :
  wp (htmlAttempt w searchQuery options saveToFile outputPath storage headless)
     (htmlAttemptPost (savedState s) headless) s.
Proof.
  unfold htmlAttempt. wp_run.
  apply openHtmlSession_raises; [|intros e s' He; now left].
  intros ses s' Ho. wp_run.
  wp_apply htmlBody_post.
  destruct r as [[response|]|e|]; simpl in *; wp_run.
  - exact I.
  - assumption.
  - wp_apply htmlFailed_post.
    destruct H0 as [->|(e' & -> & He')]; simpl.
    + right. eauto.
    + left. left. eexists headless, _. split; [|eassumption]. reflexivity.
  - assumption.
Qed.

Definition htmlPost (saved : Json) : Outcome HtmlResponse -> RunState -> Prop :=
  fun r _ =>
    match r with
    | Ok _ => True
    | Throw e => raisedUnguarded saved e \/ exists m, e = wrapHtmlError m
    | OutOfFuel => False
    end.

Lemma performSearchAndGetHtml_S fuel headless :
  performSearchAndGetHtml w searchQuery options saveToFile outputPath storage
                          (S fuel) headless
  = bind (htmlAttempt w searchQuery options saveToFile outputPath storage headless)
         (fun step =>
            match step with
            | Done response => ret response
            | Restart =>
                performSearchAndGetHtml w searchQuery options saveToFile
                                        outputPath storage fuel false
            end).
Proof. reflexivity. Qed.

Lemma performSearchAndGetHtml_headed fuel s :
  wp (performSearchAndGetHtml w searchQuery options saveToFile outputPath
                              storage (S fuel) false) (htmlPost (savedState s)) s.
Proof.
  rewrite performSearchAndGetHtml_S. wp_run. wp_apply htmlAttempt_post.
  destruct r as [[response|]|e|]; wp_run;
    solve [exact I|destruct H; discriminate|exact H].
Qed.

Lemma performSearchAndGetHtml_post fuel headless s :
  wp (performSearchAndGetHtml w searchQuery options saveToFile outputPath
                              storage (S (S fuel)) headless)
     (htmlPost (savedState s)) s.
Proof.
  rewrite performSearchAndGetHtml_S. wp_run. wp_apply htmlAttempt_post.
  destruct r as [[response|]|e|]; wp_run.
  - exact I.
  - destruct H as [_ Ho]. wp_apply performSearchAndGetHtml_headed.
    destruct r as [response|e|]; cbn in *; try assumption.
    destruct H as [H|H]; [left|now right].
    eapply raisedUnguarded_object; eassumption.
  - exact H.
  - exact H.
Qed.

End PerformSearchAndGetHtml.

Lemma getGoogleSearchPageHtmlM_post saveToFile outputPath disk :
  wp (getGoogleSearchPageHtmlM w searchQuery options saveToFile outputPath)
     (htmlPost (loadedState disk)) (initialState disk).
Proof.
  unfold getGoogleSearchPageHtmlM. wp_run.
  wp_apply (loadSavedState_returns (initialState disk)).
  - reflexivity.
  - destruct H as ([->| ->] & _ & _ & _ & Hsaved); wp_run;
      cbn [fs initialState] in Hsaved; rewrite <- Hsaved;
      apply performSearchAndGetHtml_post.
Qed.

End Facts.
End Outcomes.

(* --------------------------------------------------------------------- *)
(** ** Runs that opted out of persistence leave the disk alone *)
(* --------------------------------------------------------------------- *)

Module DiskFrame.
Import JsValue Search Wp Outcomes.
Local Open Scope search_scope.

Section Facts.
Variable w : World.
Variable searchQuery : string.
Variable options : CommandOptions.
Variable disk : gmap string FileContent.
Hypothesis optedOut : noSaveState options = true.

Definition keepsDisk {A} : Outcome A -> RunState -> Prop :=
  fun _ s => fs s = disk.

Ltac keeps_leaf := unfold keepsDisk in *; cbn; assumption.

Ltac keeps_with lem :=
  eapply wp_consequence;
  [apply lem; cbn; try assumption
  |cbv beta; intros [?|?|] ? ?; wp_run; try keeps_leaf].

Lemma saveBrowserState_keeps headless sp s :
  fs s = disk -> wp (saveBrowserState w options headless sp) keepsDisk s.
Proof.
  intros Hs. unfold saveBrowserState. rewrite optedOut. cbn [negb].
  wp_run. keeps_leaf.
Qed.

Lemma findSearchInput_keeps headless selectors s :
  fs s = disk -> wp (findSearchInput w headless selectors) keepsDisk s.
Proof.
  intros Hs. wp_apply findSearchInput_frame. destruct H as [-> _]. exact Hs.
Qed.

Lemma selectDomain_keeps headless s :
  fs s = disk -> wp (selectDomain w headless) keepsDisk s.
Proof.
  intros Hs. apply selectDomain_frame; [|intros; exact Hs].
  intros d s' Hfs _ _ _ _. unfold keepsDisk. congruence.
Qed.

Lemma loadSavedState_keeps s :
  fs s = disk -> wp (loadSavedState w options) keepsDisk s.
Proof. intros Hs. unfold loadSavedState. wp_run; keeps_leaf. Qed.

Section PerformSearch.
Variable existingBrowser : option Browser.
Variable storage : option string.

Lemma restartHeaded_keeps {A} cp ses headless s :
  fs s = disk -> wp (@restartHeaded w A cp ses headless) keepsDisk s.
Proof. intros Hs. unfold restartHeaded. wp_run; keeps_leaf. Qed.

Lemma extractAndFinish_keeps ses headless s :
  fs s = disk ->
  wp (extractAndFinish w searchQuery options ses headless) keepsDisk s.
Proof.
  intros Hs. unfold extractAndFinish, evaluateExtraction, releaseBrowser.
  wp_run; try keeps_leaf.
  keeps_with saveBrowserState_keeps.
Qed.

Lemma awaitResults_keeps ses headless s :
  fs s = disk ->
  wp (awaitResults w searchQuery options ses headless) keepsDisk s.
Proof.
  intros Hs. unfold awaitResults, waitForVerification.
  wp_run; try keeps_leaf;
    solve [apply extractAndFinish_keeps; keeps_leaf
          |apply restartHeaded_keeps; keeps_leaf].
Qed.

Lemma submitQuery_keeps ses headless s :
  fs s = disk ->
  wp (submitQuery w searchQuery options ses headless) keepsDisk s.
Proof.
  intros Hs. unfold submitQuery, waitForVerification. wp_run.
  keeps_with findSearchInput_keeps;
    solve [apply awaitResults_keeps; keeps_leaf
          |apply restartHeaded_keeps; keeps_leaf].
Qed.

Lemma searchBody_keeps ses headless s :
  fs s = disk ->
  wp (searchBody w searchQuery options ses headless) keepsDisk s.
Proof.
  intros Hs. unfold searchBody, waitForVerification. wp_run.
  keeps_with selectDomain_keeps;
    solve [apply submitQuery_keeps; keeps_leaf
          |apply restartHeaded_keeps; keeps_leaf].
Qed.

Lemma searchFailed_keeps ses headless e s :
  fs s = disk ->
  wp (searchFailed w searchQuery options ses headless e) keepsDisk s.
Proof.
  intros Hs. unfold searchFailed, releaseBrowser. wp_run.
  keeps_with saveBrowserState_keeps.
Qed.

Lemma openSession_keeps headless s :
  fs s = disk ->
  wp (openSession w options existingBrowser storage headless) keepsDisk s.
Proof.
  intros Hs. unfold openSession. wp_run; try keeps_leaf.
  all: apply buildContextOptions_raises;
    [intros opts s' _ Hfs _ _; wp_run; unfold keepsDisk; cbn in *; congruence
    |intros _; wp_run; keeps_leaf].
Qed.

Lemma attempt_keeps headless s :
  fs s = disk ->
  wp (attempt w searchQuery options existingBrowser storage headless) keepsDisk s.
Proof.
  intros Hs. unfold attempt. wp_run.
  keeps_with openSession_keeps.
  keeps_with searchBody_keeps.
  apply searchFailed_keeps. keeps_leaf.
Qed.

Lemma performSearch_keeps fuel headless s :
  fs s = disk ->
  wp (performSearch w searchQuery options existingBrowser storage fuel headless)
     keepsDisk s.
Proof.
  revert headless s. induction fuel as [|fuel IH]; intros headless s Hs.
  - exact Hs.
  - rewrite performSearch_S. wp_run.
    keeps_with attempt_keeps. apply IH. keeps_leaf.
Qed.

End PerformSearch.

Lemma googleSearchM_keeps existingBrowser s :
  fs s = disk ->
  wp (googleSearchM w searchQuery options existingBrowser) keepsDisk s.
Proof.
  intros Hs. unfold googleSearchM. wp_run.
  keeps_with loadSavedState_keeps.
  apply performSearch_keeps. keeps_leaf.
Qed.

(** The markup fetch that is not asked to write its output to a file. *)
Section PerformSearchAndGetHtml.
Variable outputPath : option string.
Variable storage : option string.

Lemma restartHeadedHtml_keeps {A} cp ses headless s :
  fs s = disk -> wp (@restartHeadedHtml w A cp ses headless) keepsDisk s.
Proof. intros Hs. unfold restartHeadedHtml. wp_run; keeps_leaf. Qed.

Lemma captureHtml_keeps ses headless s :
  fs s = disk ->
  wp (captureHtml w searchQuery options false outputPath ses headless)
     keepsDisk s.
Proof.
  intros Hs. unfold captureHtml, saveHtml. wp_run; try keeps_leaf.
  keeps_with saveBrowserState_keeps.
Qed.

Lemma submitQueryHtml_keeps ses headless s :
  fs s = disk ->
  wp (submitQueryHtml w searchQuery options false outputPath ses headless)
     keepsDisk s.
Proof.
  intros Hs. unfold submitQueryHtml. wp_run.
  keeps_with findSearchInput_keeps;
    solve [apply captureHtml_keeps; keeps_leaf
          |apply restartHeadedHtml_keeps; keeps_leaf].
Qed.

Lemma htmlBody_keeps ses headless s :
  fs s = disk ->
  wp (htmlBody w searchQuery options false outputPath ses headless)
     keepsDisk s.
Proof.
  intros Hs. unfold htmlBody. wp_run.
  keeps_with selectDomain_keeps;
    solve [apply submitQueryHtml_keeps; keeps_leaf
          |apply restartHeadedHtml_keeps; keeps_leaf].
Qed.

Lemma htmlFailed_keeps ses headless e s :
  fs s = disk -> wp (htmlFailed w options ses headless e) keepsDisk s.
Proof.
  intros Hs. unfold htmlFailed. wp_run.
  keeps_with saveBrowserState_keeps.
Qed.

Lemma openHtmlSession_keeps headless s :
  fs s = disk ->
  wp (openHtmlSession w options storage headless) keepsDisk s.
Proof.
  intros Hs. unfold openHtmlSession. wp_run; try keeps_leaf.
  all: apply buildContextOptions_raises;
    [intros opts s' _ Hfs _ _; wp_run; unfold keepsDisk; cbn in *; congruence
    |intros _; wp_run; keeps_leaf].
Qed.

Lemma htmlAttempt_keeps headless s :
  fs s = disk ->
  wp (htmlAttempt w searchQuery options false outputPath storage headless)
     keepsDisk s.
Proof.
  intros Hs. unfold htmlAttempt. wp_run.
  keeps_with openHtmlSession_keeps.
  keeps_with htmlBody_keeps.
  apply htmlFailed_keeps. keeps_leaf.
Qed.

Lemma performSearchAndGetHtml_keeps fuel headless s :
  fs s = disk ->
  wp (performSearchAndGetHtml w searchQuery options false outputPath storage
                              fuel headless)
     keepsDisk s.
Proof.
  revert headless s. induction fuel as [|fuel IH]; intros headless s Hs.
  - exact Hs.
  - rewrite performSearchAndGetHtml_S. wp_run.
    keeps_with htmlAttempt_keeps. apply IH. keeps_leaf.
Qed.

End PerformSearchAndGetHtml.

Lemma getGoogleSearchPageHtmlM_keeps outputPath s :
  fs s = disk ->
  wp (getGoogleSearchPageHtmlM w searchQuery options false outputPath)
     keepsDisk s.
Proof.
  intros Hs. unfold getGoogleSearchPageHtmlM. wp_run.
  keeps_with loadSavedState_keeps.
  apply performSearchAndGetHtml_keeps. keeps_leaf.
Qed.

End Facts.
End DiskFrame.


(* --------------------------------------------------------------------- *)
(** ** What a run returns does not depend on how persistence fares *)
(* --------------------------------------------------------------------- *)

Module Independence.
Import JsValue Search Wp Outcomes.
Local Open Scope search_scope.













Section Facts.
Variable w : World.
Variable answers : bool -> Site -> option string.
Variable searchQuery : string.
Variable options : CommandOptions.
Hypothesis agree :
  forall headless site,
    persistenceSite site = false -> answers headless site = throwsAt w headless site.

Local Abbreviation w' := (withThrows w answers).













Section PerformSearch.
Variable existingBrowser : option Browser.
Variable storage : option string.




End PerformSearch.



End Facts.
End Independence.


(* --------------------------------------------------------------------- *)
(** ** From the set-up to the persistence block: one induction for the
       properties that hold up to it and the ones it establishes *)
(* --------------------------------------------------------------------- *)

Module Protocol.
Import JsValue Search Wp JsonFacts Outcomes.
Local Open Scope search_scope.

(** The events of the file system. *)
Definition plain (e : Event) : bool :=
  match e with
  | StorageState _ | WriteFile _ | Mkdir _ => false
  | _ => true
  end.

Section Facts.
Variable w : World.
Variable searchQuery : string.
Variable options : CommandOptions.

(** [setUp] holds when an activation starts, [inTry] from the [try] on as
    long as no file was written, [throughout] from the [try] on, and
    [saved] once the persistence block has run. *)
Record Stages (setUp inTry throughout saved : RunState -> Prop) : Prop := {
  setUp_launch : forall mode s, setUp s -> setUp (withLaunch mode s);
  inTry_event : forall e s, plain e = true -> inTry s -> inTry (addEvent e s);
  inTry_launch : forall mode s, inTry s -> inTry (withLaunch mode s);
  saved_event : forall e s, plain e = true -> saved s -> saved (addEvent e s);
  inTry_setUp : forall s, inTry s -> setUp s;
  inTry_throughout : forall s, inTry s -> throughout s;
  saved_throughout : forall s, saved s -> throughout s;
  stored_inTry :
    forall s fp, setUp s ->
      whenTruthy (fingerprint (savedState s)) = Some fp -> inTry s;
  fresh_inTry :
    forall s saved',
      setUp s ->
      whenTruthy (fingerprint (savedState s)) = None ->
      setProp "fingerprint" (fingerprintJson (freshIdentity w options))
              (savedState s) = Some saved' ->
      inTry (withSaved saved' s);
  domain_inTry :
    forall s headless saved',
      inTry s ->
      setProp "googleDomain" (listedDomain w headless) (savedState s)
      = Some saved' ->
      inTry (withSaved saved' s);
  save_saved :
    forall headless sp s,
      throughout s ->
      wp (saveBrowserState w options headless sp)
         (fun r s' => r = Ok tt /\ saved s') s;
}.

Variables setUp inTry throughout saved : RunState -> Prop.
Hypothesis stages : Stages setUp inTry throughout saved.

(** What is raised before a [try] block is entered. *)
Definition raisedInSetUp (s : RunState) (e : string) : Prop :=
  (exists headless site, beforeTry site = true /\ throwsAt w headless site = Some e)
  \/ (isPrimitive (savedState s) = true /\ e = typeErrorMessage w (savedState s)).

(** What the release of the browser in a [catch] block raises. *)
Definition raisedInCatch (e : string) : Prop :=
  exists headless, throwsAt w headless SCloseOnError = Some e.

Definition bodyStands {A} : Outcome (Step A) -> RunState -> Prop :=
  fun r s =>
    match r with
    | Ok (Done _) => saved s
    | Ok Restart => inTry s
    | Throw _ => throughout s
    | OutOfFuel => True
    end.

Definition runStands {A} : Outcome A -> RunState -> Prop :=
  fun r s =>
    match r with
    | Ok _ => saved s
    | Throw e => (saved s /\ raisedInCatch e) \/ (setUp s /\ raisedInSetUp s e)
    | OutOfFuel => True
    end.

Definition attemptStands {A} : Outcome (Step A) -> RunState -> Prop :=
  fun r s =>
    match r with
    | Ok (Done _) => saved s
    | Ok Restart => inTry s
    | Throw e => (saved s /\ raisedInCatch e) \/ (setUp s /\ raisedInSetUp s e)
    | OutOfFuel => True
    end.

Ltac stands_go :=
  first
    [ assumption
    | exact I
    | apply (inTry_event _ _ _ _ stages); [reflexivity|stands_go]
    | apply (inTry_launch _ _ _ _ stages); stands_go
    | apply (saved_event _ _ _ _ stages); [reflexivity|stands_go]
    | apply (setUp_launch _ _ _ _ stages); stands_go
    | apply (inTry_throughout _ _ _ _ stages); stands_go
    | apply (saved_throughout _ _ _ _ stages); stands_go
    | apply (inTry_setUp _ _ _ _ stages); stands_go ].

Ltac stands :=
  unfold bodyStands, attemptStands, runStands in *; cbv beta match;
  solve [stands_go].

Lemma selectDomain_stands headless s :
  inTry s ->
  wp (selectDomain w headless)
     (fun r s' => match r with
                  | Ok _ => inTry s'
                  | _ => inTry s'
                  end) s.
Proof.
  intros Hs. unfold wp. rewrite selectDomain_eq.
  destruct (setProp _ _ _) as [saved'|] eqn:Hset; cbn; [|exact Hs].
  destruct (whenTruthy _); cbn; [exact Hs|].
  eapply (domain_inTry _ _ _ _ stages); eassumption.
Qed.

Lemma findSearchInput_stands headless selectors s :
  inTry s ->
  wp (findSearchInput w headless selectors) (fun _ s' => inTry s') s.
Proof.
  intros Hs. wp_apply findSearchInput_frame.
  match goal with H : _ /\ _ |- _ => destruct H as [-> _] end. exact Hs.
Qed.

Section PerformSearch.
Variable existingBrowser : option Browser.
Variable storage : option string.

Lemma restartHeaded_stands {A} cp ses headless s :
  inTry s -> wp (@restartHeaded w A cp ses headless) bodyStands s.
Proof. intros Hs. unfold restartHeaded. wp_run; stands. Qed.

Lemma extractAndFinish_stands ses headless s :
  inTry s ->
  wp (extractAndFinish w searchQuery options ses headless) bodyStands s.
Proof.
  intros Hs. unfold extractAndFinish, evaluateExtraction, releaseBrowser.
  wp_run; try solve [stands].
  wp_apply (save_saved _ _ _ _ stages); [stands|].
  match goal with H : _ /\ _ |- _ => destruct H as [-> ?] end.
  wp_run; stands.
Qed.

Lemma awaitResults_stands ses headless s :
  inTry s ->
  wp (awaitResults w searchQuery options ses headless) bodyStands s.
Proof.
  intros Hs. unfold awaitResults, waitForVerification.
  wp_run; try solve [stands];
    solve [apply extractAndFinish_stands; stands
          |apply restartHeaded_stands; stands].
Qed.

Lemma submitQuery_stands ses headless s :
  inTry s ->
  wp (submitQuery w searchQuery options ses headless) bodyStands s.
Proof.
  intros Hs. unfold submitQuery, waitForVerification. wp_run.
  wp_apply findSearchInput_stands; [exact Hs|].
  destruct r as [found| |]; wp_run; try solve [stands];
    solve [apply awaitResults_stands; stands
          |apply restartHeaded_stands; stands].
Qed.

Lemma searchBody_stands ses headless s :
  inTry s ->
  wp (searchBody w searchQuery options ses headless) bodyStands s.
Proof.
  intros Hs. unfold searchBody, waitForVerification. wp_run.
  wp_apply selectDomain_stands; [exact Hs|].
  destruct r as [d| |]; wp_run; try solve [stands];
    solve [apply submitQuery_stands; stands
          |apply restartHeaded_stands; stands].
Qed.

Lemma searchFailed_stands ses headless e s :
  throughout s ->
  wp (searchFailed w searchQuery options ses headless e)
     (fun r s' =>
        match r with
        | Ok (Done _) => saved s'
        | Ok Restart => False
        | Throw e' => saved s' /\ raisedInCatch e'
        | OutOfFuel => False
        end) s.
Proof.
  intros Hs. unfold searchFailed, releaseBrowser. wp_run.
  wp_apply (save_saved _ _ _ _ stages); [exact Hs|].
  match goal with H : _ /\ _ |- _ => destruct H as [-> ?] end.
  wp_run; try solve [stands].
  split; [stands|]. eexists. eassumption.
Qed.

Lemma buildContextOptions_stands headless s :
  setUp s ->
  wp (buildContextOptions w options headless)
     (fun r s' =>
        match r with
        | Ok _ => inTry s'
        | Throw e => setUp s' /\ raisedInSetUp s' e
        | OutOfFuel => False
        end) s.
Proof.
  intros Hs. unfold wp. rewrite buildContextOptions_eq.
  destruct (setProp _ _ _) as [saved'|] eqn:Hset; cbn.
  - destruct (whenTruthy _) eqn:Hfp; cbn.
    + eapply (stored_inTry _ _ _ _ stages); eassumption.
    + eapply (fresh_inTry _ _ _ _ stages); eassumption.
  - split; [exact Hs|]. right. split; [|reflexivity].
    now apply (setProp_None "fingerprint"
                            (fingerprintJson (freshIdentity w options))).
Qed.

Lemma openSession_stands headless s :
  setUp s ->
  wp (openSession w options existingBrowser storage headless)
     (fun r s' =>
        match r with
        | Ok _ => inTry s'
        | Throw e => setUp s' /\ raisedInSetUp s' e
        | OutOfFuel => False
        end) s.
Proof.
  intros Hs.
  assert (Hsite : forall site e s',
             beforeTry site = true -> throwsAt w headless site = Some e ->
             raisedInSetUp s' e).
  { intros site e s' Hb He. left. eauto. }
  unfold openSession. wp_run.
  all: try (split; [stands|eapply Hsite; [|eassumption]; reflexivity]).
  all: wp_apply buildContextOptions_stands; [stands|].
  all: destruct r as [opts|e|]; wp_run; try assumption; try contradiction.
  all: try (split; [apply (inTry_setUp _ _ _ _ stages); stands
                   |eapply Hsite; [|eassumption]; reflexivity]).
  all: stands.
Qed.

Lemma attempt_stands headless s :
  setUp s ->
  wp (attempt w searchQuery options existingBrowser storage headless)
     attemptStands s.
Proof.
  intros Hs. unfold attempt. wp_run.
  wp_apply openSession_stands; [exact Hs|].
  destruct r as [ses|e|]; wp_run; [|now right|contradiction].
  wp_apply searchBody_stands; [assumption|].
  destruct r as [[response|]|e|]; wp_run; try assumption.
  wp_apply searchFailed_stands; [assumption|].
  destruct r as [[response|]|e'|]; cbn; try assumption; try contradiction.
  now left.
Qed.

Lemma performSearch_stands fuel headless s :
  setUp s ->
  wp (performSearch w searchQuery options existingBrowser storage fuel headless)
     runStands s.
Proof.
  revert headless s. induction fuel as [|fuel IH]; intros headless s Hs.
  - exact I.
  - rewrite performSearch_S. wp_run. wp_apply attempt_stands; [exact Hs|].
    destruct r as [[response|]|e|]; wp_run; try assumption.
    apply IH. now apply (inTry_setUp _ _ _ _ stages).
Qed.

End PerformSearch.

(* The markup fetch: its output files are written inside the [try] block,
   before the persistence block. *)
Section PerformSearchAndGetHtml.
Variable saveToFile : bool.
Variable outputPath : option string.
Variable storage : option string.

Hypothesis output_throughout :
  forall headless html s,
    throughout s ->
    wp (saveHtml w saveToFile outputPath headless html)
       (fun _ s' => throughout s') s.

Lemma restartHeadedHtml_stands {A} cp ses headless s :
  inTry s -> wp (@restartHeadedHtml w A cp ses headless) bodyStands s.
Proof. intros Hs. unfold restartHeadedHtml. wp_run; stands. Qed.

Lemma captureHtml_stands ses headless s :
  inTry s ->
  wp (captureHtml w searchQuery options saveToFile outputPath ses headless)
     bodyStands s.
Proof.
  intros Hs. unfold captureHtml. wp_run; try solve [stands].
  wp_apply output_throughout; [stands|].
  destruct r as [[savedFilePath screenshotPath]|e|]; [|assumption|exact I].
  wp_run. wp_apply (save_saved _ _ _ _ stages); [assumption|].
  match goal with H : _ /\ _ |- _ => destruct H as [-> ?] end.
  wp_run; stands.
Qed.

Lemma submitQueryHtml_stands ses headless s :
  inTry s ->
  wp (submitQueryHtml w searchQuery options saveToFile outputPath ses headless)
     bodyStands s.
Proof.
  intros Hs. unfold submitQueryHtml. wp_run.
  wp_apply findSearchInput_stands; [exact Hs|].
  destruct r as [found| |]; wp_run; try solve [stands];
    solve [apply captureHtml_stands; stands
          |apply restartHeadedHtml_stands; stands].
Qed.

Lemma htmlBody_stands ses headless s :
  inTry s ->
  wp (htmlBody w searchQuery options saveToFile outputPath ses headless)
     bodyStands s.
Proof.
  intros Hs. unfold htmlBody. wp_run.
  wp_apply selectDomain_stands; [exact Hs|].
  destruct r as [d| |]; wp_run; try solve [stands];
    solve [apply submitQueryHtml_stands; stands
          |apply restartHeadedHtml_stands; stands].
Qed.

(** What a markup fetch ends with: the wrapped error of the [catch] block
    comes after the persistence block too. *)
Definition raisedWrapped (e : string) : Prop := exists m, e = wrapHtmlError m.

Lemma htmlFailed_stands ses headless e s :
  throughout s ->
  wp (htmlFailed w options ses headless e)
     (fun r s' =>
        match r with
        | Throw e' => saved s' /\ (raisedInCatch e' \/ raisedWrapped e')
        | _ => False
        end) s.
Proof.
  intros Hs. unfold htmlFailed. wp_run.
  wp_apply (save_saved _ _ _ _ stages); [exact Hs|].
  match goal with H : _ /\ _ |- _ => destruct H as [-> ?] end.
  wp_run; (split; [stands|]).
  - right. eexists. reflexivity.
  - left. eexists. eassumption.
Qed.

Definition htmlStands {A} : Outcome A -> RunState -> Prop :=
  fun r s =>
    match r with
    | Ok _ => saved s
    | Throw e => (saved s /\ (raisedInCatch e \/ raisedWrapped e))
                 \/ (setUp s /\ raisedInSetUp s e)
    | OutOfFuel => True
    end.

Lemma openHtmlSession_stands headless s :
  setUp s ->
  wp (openHtmlSession w options storage headless)
     (fun r s' =>
        match r with
        | Ok _ => inTry s'
        | Throw e => setUp s' /\ raisedInSetUp s' e
        | OutOfFuel => False
        end) s.
Proof.
  intros Hs.
  assert (Hsite : forall site e s',
             beforeTry site = true -> throwsAt w headless site = Some e ->
             raisedInSetUp s' e).
  { intros site e s' Hb He. left. eauto. }
  unfold openHtmlSession. wp_run.
  all: try (split; [stands|eapply Hsite; [|eassumption]; reflexivity]).
  all: wp_apply buildContextOptions_stands; [stands|].
  all: destruct r as [opts|e|]; wp_run; try assumption; try contradiction.
  all: try (split; [apply (inTry_setUp _ _ _ _ stages); stands
                   |eapply Hsite; [|eassumption]; reflexivity]).
  all: stands.
Qed.

Lemma htmlAttempt_stands headless s :
  setUp s ->
  wp (htmlAttempt w searchQuery options saveToFile outputPath storage headless)
     (fun r s' =>
        match r with
        | Ok (Done _) => saved s'
        | Ok Restart => inTry s'
        | other => htmlStands other s'
        end) s.
Proof.
  intros Hs. unfold htmlAttempt. wp_run.
  wp_apply openHtmlSession_stands; [exact Hs|].
  destruct r as [ses|e|]; wp_run; [|now right|contradiction].
  wp_apply htmlBody_stands; [assumption|].
  destruct r as [[response|]|e|]; wp_run; try assumption; try exact I.
  wp_apply htmlFailed_stands; [assumption|].
  destruct r as [[response|]|e'|]; cbn; try assumption; try contradiction.
  now left.
Qed.

Lemma performSearchAndGetHtml_stands fuel headless s :
  setUp s ->
  wp (performSearchAndGetHtml w searchQuery options saveToFile outputPath
                              storage fuel headless)
     htmlStands s.
Proof.
  revert headless s. induction fuel as [|fuel IH]; intros headless s Hs.
  - exact I.
  - rewrite performSearchAndGetHtml_S. wp_run.
    wp_apply htmlAttempt_stands; [exact Hs|].
    destruct r as [[response|]|e|]; wp_run; try assumption.
    apply IH. now apply (inTry_setUp _ _ _ _ stages).
Qed.

End PerformSearchAndGetHtml.

End Facts.
End Protocol.

(* --------------------------------------------------------------------- *)
(** ** A browser supplied by the caller: what a search does with it *)
(* --------------------------------------------------------------------- *)

Module Borrowed.
Import JsValue Search Wp Outcomes.
Local Open Scope search_scope.

(** Events allowed when the caller supplied the browser: it is never closed,
    and every navigation happens in it. *)
Definition allowed (supplied : Browser) (e : Event) : Prop :=
  match e with
  | CloseBrowser b => b <> supplied
  | Goto b _ => b = supplied
  | _ => True
  end.

Section Facts.
Variable w : World.
Variable searchQuery : string.
Variable options : CommandOptions.
Variable mode : bool.    (* how the caller launched its browser *)

Definition supplied : Browser := Provided mode.

Definition wellBehaved (s : RunState) : Prop :=
  Forall (allowed supplied) (events s).

Definition behaves {A} : Outcome A -> RunState -> Prop :=
  fun _ s => wellBehaved s.

(** The session record of an activation that borrows the browser. *)
Definition borrows (ses : Session) : Prop :=
  browser ses = supplied /\ browserWasProvided ses = true.

Ltac behaved_leaf :=
  unfold behaves, wellBehaved, borrows, supplied in *; cbn in *;
  repeat match goal with
         | H : _ /\ _ |- _ => destruct H
         | |- Forall _ (_ ++ _) => apply Forall_app; split
         | |- Forall _ [_] => apply Forall_cons; split; [|apply Forall_nil_2]
         end;
  cbn; first [ assumption | exact I | congruence | discriminate ].

Ltac behaves_with lem :=
  eapply wp_consequence;
  [apply lem; try assumption; try behaved_leaf
  |cbv beta; intros [?|?|] ? ?; wp_run; try behaved_leaf].

Lemma saveBrowserState_behaves headless sp s :
  wellBehaved s -> wp (saveBrowserState w options headless sp) behaves s.
Proof. intros Hs. unfold saveBrowserState. wp_run; behaved_leaf. Qed.

Lemma findSearchInput_behaves headless selectors s :
  wellBehaved s -> wp (findSearchInput w headless selectors) behaves s.
Proof.
  intros Hs. wp_apply findSearchInput_frame. destruct H as [-> _]. exact Hs.
Qed.

Lemma selectDomain_behaves headless s :
  wellBehaved s -> wp (selectDomain w headless) behaves s.
Proof.
  intros Hs. apply selectDomain_frame; [|intros; exact Hs].
  intros d s' _ Hev _ _ _. unfold behaves, wellBehaved. now rewrite Hev.
Qed.

Lemma restartHeaded_behaves {A} cp ses headless s :
  borrows ses -> wellBehaved s ->
  wp (@restartHeaded w A cp ses headless) behaves s.
Proof.
  intros Hses Hs. unfold restartHeaded.
  destruct Hses as [Hb Hp]. rewrite Hp, Hb.
  wp_run; behaved_leaf.
Qed.

Lemma extractAndFinish_behaves ses headless s :
  borrows ses -> wellBehaved s ->
  wp (extractAndFinish w searchQuery options ses headless) behaves s.
Proof.
  intros Hses Hs. unfold extractAndFinish, evaluateExtraction, releaseBrowser.
  destruct Hses as [Hb Hp]. rewrite Hp. cbn [negb].
  wp_run; try behaved_leaf.
  behaves_with saveBrowserState_behaves.
Qed.

Lemma awaitResults_behaves ses headless s :
  borrows ses -> wellBehaved s ->
  wp (awaitResults w searchQuery options ses headless) behaves s.
Proof.
  intros Hses Hs. unfold awaitResults, waitForVerification.
  wp_run; try behaved_leaf;
    solve [apply extractAndFinish_behaves; [assumption|behaved_leaf]
          |apply restartHeaded_behaves; [assumption|behaved_leaf]].
Qed.

Lemma submitQuery_behaves ses headless s :
  borrows ses -> wellBehaved s ->
  wp (submitQuery w searchQuery options ses headless) behaves s.
Proof.
  intros Hses Hs. unfold submitQuery, waitForVerification. wp_run.
  behaves_with findSearchInput_behaves;
    solve [apply awaitResults_behaves; [assumption|behaved_leaf]
          |apply restartHeaded_behaves; [assumption|behaved_leaf]].
Qed.

Lemma searchBody_behaves ses headless s :
  borrows ses -> wellBehaved s ->
  wp (searchBody w searchQuery options ses headless) behaves s.
Proof.
  intros Hses Hs. unfold searchBody, waitForVerification. wp_run.
  behaves_with selectDomain_behaves;
    solve [apply submitQuery_behaves; [assumption|behaved_leaf]
          |apply restartHeaded_behaves; [assumption|behaved_leaf]].
Qed.

Lemma searchFailed_behaves ses headless e s :
  borrows ses -> wellBehaved s ->
  wp (searchFailed w searchQuery options ses headless e) behaves s.
Proof.
  intros Hses Hs. unfold searchFailed, releaseBrowser.
  destruct Hses as [Hb Hp]. rewrite Hp. cbn [negb].
  wp_run. behaves_with saveBrowserState_behaves.
Qed.

Section PerformSearch.
Variable storage : option string.

(** Every activation takes the supplied browser again. *)
Lemma openSession_borrows headless s :
  wellBehaved s ->
  wp (openSession w options (Some supplied) storage headless)
     (fun r s' =>
        wellBehaved s' /\ match r with Ok ses => borrows ses | _ => True end) s.
Proof.
  intros Hs. unfold openSession. wp_run.
  apply buildContextOptions_raises;
    [intros opts s' _ _ Hev _|intros _]; wp_run;
    (split; [|first [exact I|now split]]);
    unfold wellBehaved in *; cbn in *; rewrite ?Hev;
    repeat (apply Forall_app; split; [|repeat constructor]); assumption.
Qed.

Lemma attempt_behaves headless s :
  wellBehaved s ->
  wp (attempt w searchQuery options (Some supplied) storage headless) behaves s.
Proof.
  intros Hs. unfold attempt. wp_run.
  wp_apply openSession_borrows; [exact Hs|].
  destruct H as [Hs' Hses].
  destruct r as [ses|e|]; wp_run; try exact Hs'.
  behaves_with searchBody_behaves.
  apply searchFailed_behaves; [assumption|behaved_leaf].
Qed.

Lemma performSearch_behaves fuel headless s :
  wellBehaved s ->
  wp (performSearch w searchQuery options (Some supplied) storage fuel headless)
     behaves s.
Proof.
  revert headless s. induction fuel as [|fuel IH]; intros headless s Hs.
  - exact Hs.
  - rewrite performSearch_S. wp_run.
    behaves_with attempt_behaves. apply IH. behaved_leaf.
Qed.

End PerformSearch.

Lemma loadSavedState_behaves s :
  wellBehaved s -> wp (loadSavedState w options) behaves s.
Proof. intros Hs. unfold loadSavedState. wp_run; behaved_leaf. Qed.

Lemma googleSearchM_behaves s :
  wellBehaved s ->
  wp (googleSearchM w searchQuery options (Some supplied)) behaves s.
Proof.
  intros Hs. unfold googleSearchM. wp_run.
  behaves_with loadSavedState_behaves.
  apply performSearch_behaves. behaved_leaf.
Qed.

End Facts.

(** With a browser supplied by the caller, whatever the runtime answers:
    the search never closes it, and every page navigation of the call, the
    ones after a restart included, happens in it. *)
Lemma supplied_browser_kept_and_reused w searchQuery options mode disk :
  let evs :=
    events (googleSearch w searchQuery options (Some (Provided mode)) disk).2 in
  (CloseBrowser (Provided mode) ∉ evs)
  /\ forall b target, Goto b target ∈ evs -> b = Provided mode.
Proof.
  pose proof (googleSearchM_behaves w searchQuery options mode
                (initialState disk) (Forall_nil_2 _)) as H.
  unfold wp, behaves, wellBehaved in H. rewrite Forall_forall in H.
  split.
  - intros Hin. apply H in Hin. now apply Hin.
  - intros b target Hin. apply H in Hin. exact Hin.
Qed.

End Borrowed.


(* --------------------------------------------------------------------- *)
(** ** The persistence block by itself *)
(* --------------------------------------------------------------------- *)

Module Persistence.
Import JsValue Search Wp Outcomes.
Local Open Scope search_scope.

#[local] Arguments ancestry : simpl never.
#[local] Arguments withDirectories : simpl never.
#[local] Arguments dirname : simpl never.
#[local] Arguments stringified : simpl never.

Lemma withDirectories_cons d dirs (disk : gmap string FileContent) :
  withDirectories (d :: dirs) disk
  = match withDirectories dirs disk !! d with
    | Some _ => withDirectories dirs disk
    | None => <[d := Directory]> (withDirectories dirs disk)
    end.
Proof. reflexivity. Qed.

(** Creating directories keeps what is there and leaves each of them in
    place. *)
Lemma withDirectories_keeps dirs (disk : gmap string FileContent) path c :
  disk !! path = Some c -> withDirectories dirs disk !! path = Some c.
Proof.
  intros H. induction dirs as [|d dirs IH]; [exact H|].
  rewrite withDirectories_cons.
  destruct (withDirectories dirs disk !! d) eqn:E; [exact IH|].
  rewrite lookup_insert_ne; [exact IH|]. intros ->. congruence.
Qed.

Lemma withDirectories_creates dirs (disk : gmap string FileContent) d :
  d ∈ dirs -> is_Some (withDirectories dirs disk !! d).
Proof.
  induction dirs as [|d' dirs IH]; intros Hin; [inversion Hin|].
  rewrite withDirectories_cons.
  apply elem_of_cons in Hin as [->|Hin].
  - destruct (withDirectories dirs disk !! d') eqn:E; [rewrite E; eauto|].
    rewrite lookup_insert_eq. eauto.
  - destruct (withDirectories dirs disk !! d') eqn:E; [now apply IH|].
    destruct (decide (d' = d)) as [->|Hne];
      [rewrite lookup_insert_eq; eauto|].
    rewrite lookup_insert_ne by exact Hne. now apply IH.
Qed.

Lemma ancestry_head fuel dir : dir ∈ ancestry fuel dir.
Proof.
  destruct fuel; [left|]. unfold ancestry. fold ancestry.
  destruct (String.eqb _ _); left.
Qed.

Section Facts.
Variable w : World.
Variable searchQuery : string.
Variable options : CommandOptions.
Hypothesis persist : noSaveState options = false.







(** When its calls go through, the block leaves the directory of the state
    file in place, with every directory above it if it had to be created,
    and the two files hold the session and the saved state in memory. *)
Lemma saveBrowserState_effect headless sp s :
  throwsAt w headless (SMkdir sp) = None ->
  throwsAt w headless (SStorageState sp) = None ->
  throwsAt w headless (SWriteFingerprint sp) = None ->
  let s' := (saveBrowserState w options headless sp s).2 in
  let stateDir := dirname (stateFile options) in
  fs s' !! fingerprintFile options = Some (JsonFile (stringified (savedState s)))
  /\ (fingerprintFile options <> stateFile options ->
      fs s' !! stateFile options = Some (JsonFile (sessionJson w headless)))
  /\ is_Some (fs s' !! stateDir)
  /\ (fs s !! stateDir = None ->
      Forall (fun dir => is_Some (fs s' !! dir))
             (ancestry (S (String.length stateDir)) stateDir))
  /\ events s'
     = (events s
        ++ (if bool_decide (is_Some (fs s !! stateDir)) then []
            else [Mkdir stateDir])
        ++ [StorageState (stateFile options);
            WriteFile (fingerprintFile options)])%list
  /\ savedState s' = savedState s.
Proof.
  intros Hmk Hst Hwr. cbv zeta.
  set (stateDir := dirname (stateFile options)).
  assert (Hkeep : forall (m : gmap string FileContent) p,
             is_Some (m !! p) ->
             is_Some (<[fingerprintFile options := JsonFile (stringified (savedState s))]>
                        (<[stateFile options := JsonFile (sessionJson w headless)]> m)
                        !! p)).
  { intros m p Hp.
    destruct (decide (fingerprintFile options = p)) as [->|Hn1];
      [rewrite lookup_insert_eq; eauto|].
    rewrite lookup_insert_ne by exact Hn1.
    destruct (decide (stateFile options = p)) as [->|Hn2];
      [rewrite lookup_insert_eq; eauto|].
    now rewrite lookup_insert_ne. }
  unfold saveBrowserState, bind, tryCatch, existsSync, mkdirSync, storageState,
    writeSavedState, emit, call, makeDirectories, writePath, getSavedState, ret.
  rewrite persist. cbn [negb]. fold stateDir.
  destruct (bool_decide (is_Some (fs s !! stateDir))) eqn:Hdir; cbn [negb].
  - apply bool_decide_eq_true in Hdir. cbn. rewrite Hst. cbn. rewrite Hwr. cbn.
    split; [apply lookup_insert_eq|].
    split; [intros Hne; rewrite lookup_insert_ne by exact Hne;
            apply lookup_insert_eq|].
    split; [now apply Hkeep|].
    split; [intros Hnone; rewrite Hnone in Hdir; destruct Hdir; discriminate|].
    split; [now rewrite <- !app_assoc|reflexivity].
  - apply bool_decide_eq_false in Hdir. cbn. rewrite Hmk. cbn. rewrite Hst. cbn.
    rewrite Hwr. cbn.
    split; [apply lookup_insert_eq|].
    split; [intros Hne; rewrite lookup_insert_ne by exact Hne;
            apply lookup_insert_eq|].
    split; [apply Hkeep, withDirectories_creates, ancestry_head|].
    split; [intros _; apply Forall_forall; intros dir Hin;
            apply Hkeep; now apply withDirectories_creates|].
    split; [now rewrite <- !app_assoc|reflexivity].
Qed.

End Facts.
End Persistence.

(* --------------------------------------------------------------------- *)
(** ** The persistence block is reached on every way out of a [try], and
       on no other *)
(* --------------------------------------------------------------------- *)

Module SaveAttempt.
Import JsValue Search Wp Outcomes Protocol.
Local Open Scope search_scope.

Section Facts.
Variable w : World.
Variable searchQuery : string.
Variable options : CommandOptions.
Hypothesis persist : noSaveState options = false.









End Facts.
End SaveAttempt.

(* --------------------------------------------------------------------- *)
(** ** Which identity a run uses and writes back *)
(* --------------------------------------------------------------------- *)

Module Identity.
Import JsValue Search Wp JsonFacts Outcomes Protocol.
Local Open Scope search_scope.

(** What is written from an object holds the written form of each of its
    properties. *)
Lemma assoc_stringified key fields :
  assoc key (map (fun kv : string * Json =>
                    match kv with (k, x) => (k, stringified x) end) fields)
  = stringified <$> assoc key fields.
Proof.
  induction fields as [|[k v] rest IH]; [reflexivity|]. cbn.
  destruct (String.eqb k key); [reflexivity|exact IH].
Qed.

(** An identity is written as it is. *)
Lemma stringified_fingerprintJson fp :
  stringified (fingerprintJson fp) = fingerprintJson fp.
Proof. reflexivity. Qed.

Lemma truthy_fingerprintJson fp : truthyJ (fingerprintJson fp) = true.
Proof. reflexivity. Qed.

Section Facts.
Variable w : World.
Variable searchQuery : string.
Variable options : CommandOptions.

(** Without a stored session the prologue looks at nothing else. *)
Lemma loadSavedState_absent s :
  fs s !! stateFile options = None ->
  loadSavedState w options s = (Ok None, s).
Proof.
  intros Habsent. unfold loadSavedState, bind, existsSync.
  rewrite Habsent. rewrite bool_decide_eq_false_2; [reflexivity|].
  intros [x Hx]. discriminate.
Qed.

(** With a stored session and a readable identity file, what the file
    holds is loaded, whatever value it is. *)
Lemma loadSavedState_present s session value :
  fs s !! stateFile options = Some session ->
  fs s !! fingerprintFile options = Some (JsonFile value) ->
  throwsAt w true SReadFingerprint = None ->
  loadSavedState w options s
  = (Ok (Some (stateFile options)), withSaved value s).
Proof.
  intros Hsession Hfp Hread.
  unfold loadSavedState, bind, tryCatch, existsSync, call, lookupPath.
  rewrite Hsession. rewrite bool_decide_eq_true_2 by eauto.
  rewrite Hfp. rewrite bool_decide_eq_true_2 by eauto.
  rewrite Hread. cbn. rewrite Hfp. reflexivity.
Qed.

(** With an object without a truthy identity in memory, one is generated
    from the host and kept. *)
Lemma buildContextOptions_fresh headless s fields :
  savedState s = JObject fields ->
  whenTruthy (assoc "fingerprint" fields) = None ->
  buildContextOptions w options headless s
  = (Ok (optionsOf (JString (deviceName (freshIdentity w options)))
                   (fingerprintJson (freshIdentity w options))),
     withSaved (JObject (setField "fingerprint"
                                  (fingerprintJson (freshIdentity w options))
                                  fields)) s).
Proof.
  intros Hs Hnone. rewrite buildContextOptions_eq, Hs. cbn [setProp].
  unfold fingerprint. cbn [getProp]. now rewrite Hnone.
Qed.

(** A truthy identity in memory is used as it is. *)
Lemma buildContextOptions_stored headless s fp :
  whenTruthy (fingerprint (savedState s)) = Some fp ->
  buildContextOptions w options headless s
  = (Ok (optionsOf (chosenDevice w headless (savedState s)) fp), s).
Proof.
  intros Hsome. rewrite buildContextOptions_eq, Hsome.
  destruct (setProp _ _ _) eqn:E; [reflexivity|].
  apply setProp_None in E. apply whenTruthy_object in Hsome. congruence.
Qed.

(** The memory holds the identity generated on this host. *)
Definition holdsFresh (s : RunState) : Prop :=
  exists fields,
    savedState s = JObject fields
    /\ assoc "fingerprint" fields = Some (fingerprintJson (freshIdentity w options)).

(** The fingerprint file holds it. *)
Definition writtenFresh (s : RunState) : Prop :=
  exists fields,
    fs s !! fingerprintFile options = Some (JsonFile (JObject fields))
    /\ assoc "fingerprint" fields = Some (fingerprintJson (freshIdentity w options)).

Lemma holdsFresh_truthy s :
  holdsFresh s ->
  whenTruthy (fingerprint (savedState s))
  = Some (fingerprintJson (freshIdentity w options)).
Proof.
  intros (fields & Hs & Hfp). rewrite Hs. unfold fingerprint. cbn [getProp].
  rewrite Hfp. reflexivity.
Qed.

Lemma holdsFresh_domain s d saved' :
  holdsFresh s ->
  setProp "googleDomain" d (savedState s) = Some saved' ->
  holdsFresh (withSaved saved' s).
Proof.
  intros (fields & Hs & Hfp). rewrite Hs. cbn. intros [= <-].
  eexists. split; [reflexivity|].
  rewrite assoc_setField_ne by discriminate. exact Hfp.
Qed.

Lemma holdsFresh_built s saved' :
  savedState s = emptySavedState ->
  setProp "fingerprint" (fingerprintJson (freshIdentity w options)) (savedState s)
  = Some saved' ->
  holdsFresh (withSaved saved' s).
Proof.
  intros Hs. rewrite Hs. cbn. intros [= <-].
  eexists. split; [reflexivity|]. reflexivity.
Qed.

Section Cooperative.
Variable disk : gmap string FileContent.
Hypothesis persist : noSaveState options = false.
Hypothesis saveOk :
  forall headless site,
    persistenceSite site = true -> throwsAt w headless site = None.

(** The disk is as it was, and the memory is empty or holds the fresh
    identity. *)
Definition beforeSetUp (s : RunState) : Prop :=
  fs s = disk /\ (savedState s = emptySavedState \/ holdsFresh s).

Definition beforeSave (s : RunState) : Prop := fs s = disk /\ holdsFresh s.

Definition afterSave (s : RunState) : Prop := holdsFresh s /\ writtenFresh s.

Lemma saveBrowserState_writes headless sp s :
  holdsFresh s ->
  wp (saveBrowserState w options headless sp)
     (fun r s' => r = Ok tt /\ afterSave s') s.
Proof.
  intros Hs.
  pose proof (Persistence.saveBrowserState_effect w options persist headless sp s
                (saveOk headless (SMkdir sp) eq_refl)
                (saveOk headless (SStorageState sp) eq_refl)
                (saveOk headless (SWriteFingerprint sp) eq_refl))
    as (Hfile & _ & _ & _ & _ & Hmem).
  pose proof (saveBrowserState_returns w options headless sp s) as [Hr _].
  unfold wp. split; [exact Hr|]. cbv zeta in *.
  destruct Hs as (fields & Hs & Hfp). split.
  - exists fields. split; [congruence|exact Hfp].
  - rewrite Hs in Hfile. eexists. split; [exact Hfile|].
    rewrite assoc_stringified, Hfp. reflexivity.
Qed.

Lemma identity_stages : Stages w options beforeSetUp beforeSave holdsFresh afterSave.
Proof.
  split.
  - intros mode s [? ?]; split; assumption.
  - intros e s _ [? ?]; split; assumption.
  - intros mode s [? ?]; split; assumption.
  - intros e s _ [? ?]; split; assumption.
  - intros s [? ?]; split; [assumption|now right].
  - intros s [? ?]; assumption.
  - intros s [? ?]; assumption.
  - intros s fp [Hfs [He|Hf]] Hfp; [rewrite He in Hfp; discriminate|now split].
  - intros s saved' [Hfs [He|Hf]] Hnone Hset.
    + split; [exact Hfs|now apply holdsFresh_built].
    + rewrite (holdsFresh_truthy _ Hf) in Hnone. discriminate.
  - intros s headless saved' [Hfs Hf] Hset.
    split; [exact Hfs|eapply holdsFresh_domain; eassumption].
  - intros headless sp s Hs. now apply saveBrowserState_writes.
Qed.

Lemma googleSearch_writes_fresh existingBrowser :
  disk !! stateFile options = None ->
  let run := googleSearch w searchQuery options existingBrowser disk in
  match run.1 with
  | Ok _ => writtenFresh run.2
  | Throw e =>
      (writtenFresh run.2 /\ raisedInCatch w e)
      \/ (fs run.2 = disk
          /\ exists headless site,
               beforeTry site = true /\ throwsAt w headless site = Some e)
  | OutOfFuel => True
  end.
Proof.
  intros Habsent. cbv zeta. unfold googleSearch, googleSearchM, bind.
  rewrite loadSavedState_absent by exact Habsent.
  pose proof (performSearch_stands w searchQuery options _ _ _ _
                identity_stages existingBrowser None 2 true
                (initialState disk) ltac:(split; [reflexivity|now left])) as H.
  unfold wp, runStands, htmlStands in H.
  destruct (performSearch _ _ _ _ _ _ _ _) as [[response|e|] s']; cbn in *.
  - apply H.
  - destruct H as [[[_ Hw] Hc]|[[Hfs Hmem] [Hsite|[Hprim _]]]]; [now left| |].
    + right. split; assumption.
    + exfalso. destruct Hmem as [Hm|(fields & Hm & _)]; rewrite Hm in Hprim;
        discriminate.
  - exact I.
Qed.

(** The markup fetch writes its output inside the [try] block; the memory
    is not touched by it. *)
Lemma saveHtml_memory saveToFile outputPath headless html s :
  holdsFresh s ->
  wp (saveHtml w saveToFile outputPath headless html) (fun _ s' => holdsFresh s') s.
Proof. intros Hs. unfold saveHtml. wp_run; exact Hs. Qed.

Lemma getGoogleSearchPageHtml_writes_fresh saveToFile outputPath :
  disk !! stateFile options = None ->
  let run := getGoogleSearchPageHtml w searchQuery options saveToFile
                                     outputPath disk in
  match run.1 with
  | Ok _ => writtenFresh run.2
  | Throw e =>
      (writtenFresh run.2 /\ (raisedInCatch w e \/ raisedWrapped e))
      \/ (fs run.2 = disk
          /\ exists headless site,
               beforeTry site = true /\ throwsAt w headless site = Some e)
  | OutOfFuel => True
  end.
Proof.
  intros Habsent. cbv zeta.
  unfold getGoogleSearchPageHtml, getGoogleSearchPageHtmlM, bind.
  rewrite loadSavedState_absent by exact Habsent.
  pose proof (performSearchAndGetHtml_stands w searchQuery options _ _ _ _
                identity_stages saveToFile outputPath None
                (saveHtml_memory saveToFile outputPath) 2 true
                (initialState disk) ltac:(split; [reflexivity|now left])) as H.
  unfold wp, runStands, htmlStands in H.
  destruct (performSearchAndGetHtml _ _ _ _ _ _ _ _ _) as [[response|e|] s'];
    cbn in *.
  - apply H.
  - destruct H as [[[_ Hw] Hc]|[[Hfs Hmem] [Hsite|[Hprim _]]]]; [now left| |].
    + right. split; assumption.
    + exfalso. destruct Hmem as [Hm|(fields & Hm & _)]; rewrite Hm in Hprim;
        discriminate.
  - exact I.
Qed.

End Cooperative.
End Facts.
End Identity.

(* --------------------------------------------------------------------- *)
(** ** Where a search navigates to *)
(* --------------------------------------------------------------------- *)

Module Navigation.
Import JsString JsValue Search Wp JsonFacts Outcomes.
Local Open Scope search_scope.

Lemma nth_googleDomains r :
  nth (r mod 4) googleDomains "" ∈ googleDomains.
Proof.
  pose proof (Nat.mod_upper_bound r 4 ltac:(lia)) as H.
  destruct (r mod 4) as [|[|[|[|n]]]]; [| | | |lia];
    unfold googleDomains; cbn [nth]; set_solver.
Qed.

Lemma googleDomains_truthy d : d ∈ googleDomains -> truthy d = true.
Proof.
  unfold googleDomains. rewrite !elem_of_cons.
  intros [->|[->|[->|[->|H]]]]; [reflexivity..|inversion H].
Qed.

Section Facts.
Variable w : World.
Variable searchQuery : string.
Variable options : CommandOptions.
Variable stored : option Json.   (* the domain the prologue found, if any *)

(** The domain in memory is the stored one or one of the list. *)
Definition chosen (s : RunState) : Prop :=
  googleDomain (savedState s) = stored
  \/ exists d, googleDomain (savedState s) = Some (JString d)
                /\ d ∈ googleDomains.

(** Every navigation so far went to the domain in memory. *)
Definition visited (s : RunState) : Prop :=
  forall b t, Goto b t ∈ events s ->
              googleDomain (savedState s) = Some t /\ truthyJ t = true.

Definition oneDomain (s : RunState) : Prop := chosen s /\ visited s.

Definition keeps {A} : Outcome A -> RunState -> Prop := fun _ s => oneDomain s.

Ltac dom_leaf :=
  unfold keeps, oneDomain, chosen, visited in *; cbn in *;
  repeat match goal with H : _ /\ _ |- _ => destruct H end;
  (split; [assumption|]);
  let Hin := fresh "Hin" in
  intros ? ? Hin;
  repeat (apply elem_of_app in Hin as [Hin|Hin]);
  first [ solve [eauto]
        | apply list_elem_of_singleton in Hin;
          first [ discriminate Hin
                | injection Hin as -> ->; split; assumption ] ].

Ltac keeps_with lem :=
  eapply wp_consequence;
  [apply lem; try assumption; try dom_leaf
  |cbv beta; intros [?|?|] ? ?; wp_run; try dom_leaf].

Lemma saveBrowserState_sameDomain headless sp s :
  oneDomain s -> wp (saveBrowserState w options headless sp) keeps s.
Proof. intros Hs. unfold saveBrowserState. wp_run; dom_leaf. Qed.

Lemma findSearchInput_sameDomain headless selectors s :
  oneDomain s -> wp (findSearchInput w headless selectors) keeps s.
Proof.
  intros Hs. wp_apply findSearchInput_frame. destruct H as [-> _]. exact Hs.
Qed.

Lemma restartHeaded_sameDomain {A} cp ses headless s :
  oneDomain s -> wp (@restartHeaded w A cp ses headless) keeps s.
Proof. intros Hs. unfold restartHeaded. wp_run; dom_leaf. Qed.

Lemma extractAndFinish_sameDomain ses headless s :
  oneDomain s ->
  wp (extractAndFinish w searchQuery options ses headless) keeps s.
Proof.
  intros Hs. unfold extractAndFinish, evaluateExtraction, releaseBrowser.
  wp_run; try dom_leaf.
  keeps_with saveBrowserState_sameDomain.
Qed.

Lemma awaitResults_sameDomain ses headless s :
  oneDomain s ->
  wp (awaitResults w searchQuery options ses headless) keeps s.
Proof.
  intros Hs. unfold awaitResults, waitForVerification.
  wp_run; try dom_leaf;
    solve [apply extractAndFinish_sameDomain; dom_leaf
          |apply restartHeaded_sameDomain; dom_leaf].
Qed.

Lemma submitQuery_sameDomain ses headless s :
  oneDomain s ->
  wp (submitQuery w searchQuery options ses headless) keeps s.
Proof.
  intros Hs. unfold submitQuery, waitForVerification. wp_run.
  keeps_with findSearchInput_sameDomain;
    solve [apply awaitResults_sameDomain; dom_leaf
          |apply restartHeaded_sameDomain; dom_leaf].
Qed.

(** The domain an activation goes to is the one in memory, if there is one;
    otherwise it is drawn from the list and remembered. *)
Lemma selectDomain_chooses headless s :
  oneDomain s ->
  wp (selectDomain w headless)
     (fun r s' =>
        oneDomain s'
        /\ match r with
           | Ok d => googleDomain (savedState s') = Some d /\ truthyJ d = true
           | Throw _ => True
           | OutOfFuel => False
           end) s.
Proof.
  intros [Hc Hv]. unfold wp. rewrite selectDomain_eq.
  destruct (setProp _ _ _) as [saved'|] eqn:Hset; cbn;
    [|split; [split; assumption|exact I]].
  destruct (whenTruthy _) as [d|] eqn:Hd; cbn.
  - apply whenTruthy_Some in Hd. split; [now split|exact Hd].
  - pose proof (getProp_setProp_eq _ _ _ _ Hset) as Hnew.
    fold (googleDomain saved') in Hnew. split; [split|split].
    + right. eexists. split; [exact Hnew|apply nth_googleDomains].
    + intros b t Hin. destruct (Hv b t Hin) as [Ht Htr].
      assert (Hsome : whenTruthy (googleDomain (savedState s)) = Some t)
        by (apply whenTruthy_Some; now split).
      congruence.
    + exact Hnew.
    + unfold listedDomain. cbn. apply googleDomains_truthy, nth_googleDomains.
Qed.

Lemma searchBody_sameDomain ses headless s :
  oneDomain s ->
  wp (searchBody w searchQuery options ses headless) keeps s.
Proof.
  intros Hs. unfold searchBody, waitForVerification. wp_run.
  wp_apply selectDomain_chooses; [exact Hs|].
  match goal with H : _ /\ _ |- _ => destruct H as [[Hc Hv] Hd] end.
  destruct r as [d|e|]; [destruct Hd as [Hd Htr]| |contradiction];
  wp_run; try dom_leaf;
    solve [apply submitQuery_sameDomain; dom_leaf
          |apply restartHeaded_sameDomain; dom_leaf].
Qed.

Lemma searchFailed_sameDomain ses headless e s :
  oneDomain s ->
  wp (searchFailed w searchQuery options ses headless e) keeps s.
Proof.
  intros Hs. unfold searchFailed, releaseBrowser.
  wp_run. keeps_with saveBrowserState_sameDomain.
Qed.

Section PerformSearch.
Variable existingBrowser : option Browser.
Variable storage : option string.

Lemma openSession_sameDomain headless s :
  oneDomain s ->
  wp (openSession w options existingBrowser storage headless) keeps s.
Proof.
  intros Hs. unfold openSession. wp_run; try dom_leaf.
  all: unfold wp, andThen; rewrite buildContextOptions_eq;
    destruct (setProp _ _ _) as [saved'|] eqn:Hset; cbn; [|dom_leaf];
    destruct (whenTruthy _) eqn:Hfp; cbn; wp_run;
    try dom_leaf.
  all: pose proof (getProp_setProp_ne "fingerprint" "googleDomain" _ _ _
                     ltac:(discriminate) Hset) as Hsame;
    fold (googleDomain saved') in Hsame;
    fold (googleDomain (savedState s)) in Hsame;
    unfold keeps, oneDomain, chosen, visited in *; cbn in *;
    rewrite ?Hsame; dom_leaf.
Qed.

Lemma attempt_sameDomain headless s :
  oneDomain s ->
  wp (attempt w searchQuery options existingBrowser storage headless) keeps s.
Proof.
  intros Hs. unfold attempt. wp_run.
  keeps_with openSession_sameDomain.
  keeps_with searchBody_sameDomain.
  apply searchFailed_sameDomain. dom_leaf.
Qed.

Lemma performSearch_sameDomain fuel headless s :
  oneDomain s ->
  wp (performSearch w searchQuery options existingBrowser storage fuel headless)
     keeps s.
Proof.
  revert headless s. induction fuel as [|fuel IH]; intros headless s Hs.
  - exact Hs.
  - rewrite performSearch_S. wp_run.
    keeps_with attempt_sameDomain. apply IH. dom_leaf.
Qed.

End PerformSearch.
End Facts.

(** What the prologue can have put into memory. *)
Lemma loadSavedState_origin w options disk :
  wp (loadSavedState w options)
     (fun _ s' =>
        events s' = []
        /\ (googleDomain (savedState s') = None
            \/ is_Some (disk !! stateFile options)
               /\ exists saved,
                   disk !! fingerprintFile options = Some (JsonFile saved)
                   /\ googleDomain (savedState s') = googleDomain saved))
     (initialState disk).
Proof.
  wp_apply (loadSavedState_returns w options (initialState disk) eq_refl).
  match goal with
  | H : _ /\ _ |- _ => destruct H as (_ & _ & Hev & _ & Hsaved)
  end.
  split; [exact Hev|]. rewrite Hsaved. unfold loadedState. cbn [fs initialState].
  destruct (disk !! stateFile options) as [c|] eqn:Hst; [|now left].
  destruct (disk !! fingerprintFile options) as [[|value|]|] eqn:Hfp;
    try (now left).
  destruct (throwsAt w true SReadFingerprint); [now left|].
  right. split; [eauto|]. eauto.
Qed.

(** The whole search: one domain in memory, visited by every navigation. *)
Lemma googleSearchM_oneDomain w searchQuery options existingBrowser disk :
  wp (googleSearchM w searchQuery options existingBrowser)
     (fun _ s' =>
        exists stored,
          oneDomain stored s'
          /\ (stored = None
              \/ is_Some (disk !! stateFile options)
                 /\ exists saved,
                     disk !! fingerprintFile options = Some (JsonFile saved)
                     /\ stored = googleDomain saved))
     (initialState disk).
Proof.
  unfold googleSearchM. wp_run.
  eapply wp_consequence; [apply (loadSavedState_origin w options disk)|].
  cbv beta. intros r s1 [Hev Hor].
  assert (Hone : oneDomain (googleDomain (savedState s1)) s1).
  { split; [now left|]. intros b t Hin. rewrite Hev in Hin. inversion Hin. }
  destruct r as [storage|e|]; wp_run; try (eexists; split; [exact Hone|exact Hor]).
  eapply wp_consequence; [apply performSearch_sameDomain; exact Hone|].
  cbv beta. intros r s2 Hk. eexists. split; [exact Hk|exact Hor].
Qed.

End Navigation.


(* --------------------------------------------------------------------- *)
(** ** Launched browsers and their closing *)
(* --------------------------------------------------------------------- *)

Module Lifecycle.
Import JsString JsValue Search Wp JsonFacts Outcomes.
Local Open Scope search_scope.





Section Facts.
Variable w : World.
Variable searchQuery : string.
Variable options : CommandOptions.














Section PerformSearch.
Variable existingBrowser : option Browser.
Variable storage : option string.







End PerformSearch.

Lemma loadSavedState_events s :
  wp (loadSavedState w options) (fun _ s' => events s' = events s) s.
Proof. unfold loadSavedState. wp_run; reflexivity. Qed.

Lemma loadSavedState_launched s :
  wp (loadSavedState w options) (fun _ s' => launched s' = launched s) s.
Proof. unfold loadSavedState. wp_run; reflexivity. Qed.


(** *** The markup fetch launches its own browser *)

Section Html.
Variable saveToFile : bool.
Variable outputPath : option string.








Section Run.
Variable storage : option string.





End Run.


End Html.

End Facts.



End Lifecycle.


(* --------------------------------------------------------------------- *)
(** ** The identity the browser contexts present *)
(* --------------------------------------------------------------------- *)

Module Contexts.
Import JsString JsValue Search Wp JsonFacts Outcomes Protocol Identity.
Local Open Scope search_scope.

(** The context options present the identity [fp]. *)
Definition carries (fp : Json) (o : ContextOptions) : Prop :=
  co_locale o = getProp "locale" fp
  /\ co_timezoneId o = getProp "timezoneId" fp
  /\ co_colorScheme o = getProp "colorScheme" fp
  /\ co_reducedMotion o = getProp "reducedMotion" fp
  /\ co_forcedColors o = getProp "forcedColors" fp
  /\ co_isMobile o = false /\ co_hasTouch o = false.

Lemma carries_optionsOf device fp : carries fp (optionsOf device fp).
Proof. now repeat split. Qed.

Lemma carries_withStorageState fp o storage :
  carries fp o -> carries fp (withStorageState o storage).
Proof.
  unfold withStorageState. destruct storage as [path|]; [|exact id].
  destruct (truthy path); exact id.
Qed.

(** What the prologue leaves in memory: nothing, or the parsed contents of
    the fingerprint file next to an existing state file. *)
Lemma loadSavedState_loaded w options disk :
  wp (loadSavedState w options)
     (fun _ s' =>
        events s' = [] /\ fs s' = disk
        /\ (savedState s' = emptySavedState
            \/ is_Some (disk !! stateFile options)
               /\ disk !! fingerprintFile options
                  = Some (JsonFile (savedState s'))))
     (initialState disk).
Proof.
  wp_apply (loadSavedState_returns w options (initialState disk) eq_refl).
  match goal with
  | H : _ /\ _ |- _ => destruct H as (_ & Hfs & Hev & _ & Hsaved)
  end.
  split; [exact Hev|]. split; [exact Hfs|].
  rewrite Hsaved. unfold loadedState. cbn [fs initialState].
  destruct (disk !! stateFile options) as [c|] eqn:Hst; [|now left].
  destruct (disk !! fingerprintFile options) as [[|value|]|] eqn:Hfp;
    try (now left).
  destruct (throwsAt w true SReadFingerprint); [now left|].
  right. split; [eauto|reflexivity].
Qed.

Section Facts.
Variable w : World.
Variable searchQuery : string.
Variable options : CommandOptions.
Variable fp : Json.

Definition inMemory (s : RunState) : Prop :=
  whenTruthy (fingerprint (savedState s)) = Some fp.

Definition contextsCarry (s : RunState) : Prop :=
  forall b o, NewContext b o ∈ events s -> carries fp o.

Definition oneIdentity (s : RunState) : Prop := inMemory s /\ contextsCarry s.

Definition presents {A} : Outcome A -> RunState -> Prop :=
  fun _ s => oneIdentity s.

Lemma oneIdentity_frame s s' :
  events s' = events s ->
  fingerprint (savedState s') = fingerprint (savedState s) ->
  oneIdentity s -> oneIdentity s'.
Proof.
  unfold oneIdentity, inMemory, contextsCarry. intros -> ->. exact id.
Qed.

Ltac id_leaf :=
  unfold presents, oneIdentity, inMemory, contextsCarry in *; cbn in *;
  repeat match goal with H : _ /\ _ |- _ => destruct H end;
  (split; [assumption|]);
  let Hin := fresh "Hin" in
  intros ? ? Hin;
  repeat (apply elem_of_app in Hin as [Hin|Hin]);
  first [ solve [eauto]
        | apply list_elem_of_singleton in Hin;
          first [ discriminate Hin
                | injection Hin as -> ->;
                  first [ assumption
                        | apply carries_withStorageState; assumption ] ] ].

(** The options built from the identity carry it. *)
Ltac built_carries :=
  first [ assumption
        | apply carries_withStorageState; built_carries
        | apply carries_optionsOf
        | try match goal with H : fp = _ |- _ => rewrite H end;
          apply carries_optionsOf ].

Ltac carried_leaf :=
  let Hin := fresh "Hin" in
  intros ? ? Hin; cbn in Hin;
  repeat (apply elem_of_app in Hin as [Hin|Hin]);
  first [ solve [eauto]
        | apply list_elem_of_singleton in Hin;
          first [ discriminate Hin
                | injection Hin as -> ->; built_carries ] ].

Ltac presents_with lem :=
  eapply wp_consequence;
  [apply lem; try assumption; try id_leaf
  |cbv beta; intros [?|?|] ? ?; wp_run; try id_leaf].

Lemma saveBrowserState_presents headless sp s :
  oneIdentity s -> wp (saveBrowserState w options headless sp) presents s.
Proof. intros Hs. unfold saveBrowserState. wp_run; id_leaf. Qed.

Lemma findSearchInput_presents headless selectors s :
  oneIdentity s -> wp (findSearchInput w headless selectors) presents s.
Proof.
  intros Hs. wp_apply findSearchInput_frame. destruct H as [-> _]. exact Hs.
Qed.

Lemma selectDomain_presents headless s :
  oneIdentity s -> wp (selectDomain w headless) presents s.
Proof.
  intros Hs. apply selectDomain_frame; [|intros; exact Hs].
  intros d s' _ Hev _ Hfp _.
  exact (oneIdentity_frame s s' Hev Hfp Hs).
Qed.

Lemma restartHeaded_presents {A} cp ses headless s :
  carries fp (contextOptions ses) -> oneIdentity s ->
  wp (@restartHeaded w A cp ses headless) presents s.
Proof. intros Hses Hs. unfold restartHeaded. wp_run; id_leaf. Qed.

Lemma extractAndFinish_presents ses headless s :
  oneIdentity s ->
  wp (extractAndFinish w searchQuery options ses headless) presents s.
Proof.
  intros Hs. unfold extractAndFinish, evaluateExtraction, releaseBrowser.
  wp_run; try id_leaf.
  presents_with saveBrowserState_presents.
Qed.

Lemma awaitResults_presents ses headless s :
  carries fp (contextOptions ses) -> oneIdentity s ->
  wp (awaitResults w searchQuery options ses headless) presents s.
Proof.
  intros Hses Hs. unfold awaitResults, waitForVerification.
  wp_run; try id_leaf;
    solve [apply extractAndFinish_presents; id_leaf
          |apply restartHeaded_presents; [assumption|id_leaf]].
Qed.

Lemma submitQuery_presents ses headless s :
  carries fp (contextOptions ses) -> oneIdentity s ->
  wp (submitQuery w searchQuery options ses headless) presents s.
Proof.
  intros Hses Hs. unfold submitQuery, waitForVerification. wp_run.
  presents_with findSearchInput_presents;
    solve [apply awaitResults_presents; [assumption|id_leaf]
          |apply restartHeaded_presents; [assumption|id_leaf]].
Qed.

Lemma searchBody_presents ses headless s :
  carries fp (contextOptions ses) -> oneIdentity s ->
  wp (searchBody w searchQuery options ses headless) presents s.
Proof.
  intros Hses Hs. unfold searchBody, waitForVerification. wp_run.
  presents_with selectDomain_presents;
    solve [apply submitQuery_presents; [assumption|id_leaf]
          |apply restartHeaded_presents; [assumption|id_leaf]].
Qed.

Lemma searchFailed_presents ses headless e s :
  oneIdentity s ->
  wp (searchFailed w searchQuery options ses headless e) presents s.
Proof.
  intros Hs. unfold searchFailed, releaseBrowser.
  wp_run. presents_with saveBrowserState_presents.
Qed.

(** Where an activation starts from: the identity is in memory, or none is
    and [fp] is the one the host gives. *)
Definition ready (s : RunState) : Prop :=
  contextsCarry s
  /\ (inMemory s
      \/ whenTruthy (fingerprint (savedState s)) = None
         /\ fp = fingerprintJson (freshIdentity w options)).

Section PerformSearch.
Variable existingBrowser : option Browser.
Variable storage : option string.

Lemma buildContextOptions_presents headless s :
  ready s ->
  wp (buildContextOptions w options headless)
     (fun r s' =>
        match r with
        | Ok opts => oneIdentity s' /\ carries fp opts
        | _ => contextsCarry s'
        end) s.
Proof.
  intros [Hc Hm]. unfold wp. rewrite buildContextOptions_eq.
  destruct (setProp _ _ _) as [saved'|] eqn:Hset; cbn; [|exact Hc].
  destruct (whenTruthy (fingerprint (savedState s))) as [fp'|] eqn:Hfp; cbn.
  - destruct Hm as [Hm|[Hnone _]]; [|congruence].
    unfold inMemory in Hm. assert (fp' = fp) by congruence. subst fp'.
    split; [split; assumption|apply carries_optionsOf].
  - destruct Hm as [Hm|[_ Hfresh]]; [unfold inMemory in Hm; congruence|].
    split; [split; [|exact Hc]|rewrite Hfresh; apply carries_optionsOf].
    unfold inMemory. cbn. unfold fingerprint.
    rewrite (getProp_setProp_eq _ _ _ _ Hset), Hfresh. reflexivity.
Qed.

Lemma openSession_presents headless s :
  ready s ->
  wp (openSession w options existingBrowser storage headless)
     (fun r s' =>
        match r with
        | Ok ses => oneIdentity s' /\ carries fp (contextOptions ses)
        | _ => contextsCarry s'
        end) s.
Proof.
  intros Hs. unfold openSession. wp_run; try apply Hs.
  all: wp_apply buildContextOptions_presents;
    [destruct Hs as [Hc Hm]; split; [carried_leaf|exact Hm]|].
  all: destruct r as [opts|e|]; wp_run; try assumption.
  all: match goal with H : oneIdentity _ /\ carries _ _ |- _ =>
         destruct H as [[Him Hcc] Hcar] end.
  all: try (split; [|exact Hcar]; split; [exact Him|]).
  all: carried_leaf.
Qed.

Lemma attempt_presents headless s :
  ready s ->
  wp (attempt w searchQuery options existingBrowser storage headless)
     (fun r s' =>
        match r with
        | Ok _ => oneIdentity s'
        | _ => contextsCarry s'
        end) s.
Proof.
  intros Hs. unfold attempt. wp_run.
  wp_apply openSession_presents; [exact Hs|].
  destruct r as [ses|e|]; wp_run; try assumption.
  destruct H as [Hone Hses].
  wp_apply searchBody_presents; [assumption|assumption|].
  unfold presents in H.
  destruct r as [step|e|]; wp_run; try assumption; try apply H.
  wp_apply searchFailed_presents; [assumption|].
  unfold presents in H0. destruct r as [step|e'|]; try assumption; apply H0.
Qed.

Lemma performSearch_presents fuel headless s :
  ready s ->
  wp (performSearch w searchQuery options existingBrowser storage fuel headless)
     (fun _ s' => contextsCarry s') s.
Proof.
  revert headless s. induction fuel as [|fuel IH]; intros headless s Hs.
  - apply Hs.
  - rewrite performSearch_S. wp_run. wp_apply attempt_presents; [exact Hs|].
    destruct r as [[response|]|e|]; wp_run; try assumption; try apply H.
    apply IH. split; [apply H|left; apply H].
Qed.

End PerformSearch.

(** *** When the persistence calls go through *)

(** [JSON.stringify] writes the value back as it was read. *)
Definition stable (v : Json) : Prop := stringified v = v.

Lemma stringified_setField key x fields :
  stable x -> stable (JObject fields) -> stable (JObject (setField key x fields)).
Proof.
  unfold stable. cbn. intros Hx [= Hf]. f_equal.
  induction fields as [|[k v] rest IH]; cbn in *; [now rewrite Hx|].
  injection Hf as Hv Hrest.
  destruct (String.eqb k key); cbn; [now rewrite Hx, Hrest|].
  now rewrite Hv, (IH Hrest).
Qed.

Section Cooperative.
Hypothesis persist : noSaveState options = false.
Hypothesis saveOk :
  forall headless site,
    persistenceSite site = true -> throwsAt w headless site = None.

(** The memory holds an object that is written back as it is. *)
Definition stableObject (s : RunState) : Prop :=
  exists fields, savedState s = JObject fields /\ stable (JObject fields).

(** The state file exists and the fingerprint file holds the identity. *)
Definition written (s : RunState) : Prop :=
  is_Some (fs s !! stateFile options)
  /\ exists saved,
      fs s !! fingerprintFile options = Some (JsonFile saved)
      /\ whenTruthy (fingerprint saved) = Some fp.

Definition atSetUp (s : RunState) : Prop :=
  stableObject s
  /\ (inMemory s
      \/ whenTruthy (fingerprint (savedState s)) = None
         /\ fp = fingerprintJson (freshIdentity w options)).

Definition remembered (s : RunState) : Prop := stableObject s /\ inMemory s.

Definition recorded (s : RunState) : Prop := remembered s /\ written s.

Lemma saveBrowserState_writesIdentity headless sp s :
  remembered s ->
  wp (saveBrowserState w options headless sp)
     (fun r s' => r = Ok tt /\ recorded s') s.
Proof.
  intros [(fields & Hobj & Hst) Hmem].
  pose proof (Persistence.saveBrowserState_effect w options persist headless sp s
                (saveOk headless (SMkdir sp) eq_refl)
                (saveOk headless (SStorageState sp) eq_refl)
                (saveOk headless (SWriteFingerprint sp) eq_refl))
    as (Hfile & Hstate & _ & _ & _ & Hsame).
  pose proof (saveBrowserState_returns w options headless sp s) as [Hr _].
  unfold wp. split; [exact Hr|]. cbv zeta in *.
  rewrite Hobj, Hst in Hfile. split; [split|split].
  - exists fields. split; [rewrite Hsame; exact Hobj|exact Hst].
  - unfold inMemory in *. now rewrite Hsame.
  - destruct (decide (fingerprintFile options = stateFile options)) as [Heq|Hne].
    + rewrite <- Heq, Hfile. eauto.
    + rewrite (Hstate Hne). eauto.
  - eexists. split; [exact Hfile|]. unfold inMemory in Hmem.
    now rewrite Hobj in Hmem.
Qed.

Lemma written_stages : Stages w options atSetUp remembered remembered recorded.
Proof.
  split.
  - intros mode s Hs. exact Hs.
  - intros e s _ Hs. exact Hs.
  - intros mode s Hs. exact Hs.
  - intros e s _ Hs. exact Hs.
  - intros s [Ho Hm]. split; [exact Ho|now left].
  - intros s Hs. exact Hs.
  - intros s [Hs _]. exact Hs.
  - intros s fp' [Ho [Hm|[Hnone _]]] Hfp; [now split|congruence].
  - intros s saved' [(fields & Hobj & Hst) [Hm|[Hnone Hfresh]]] Hno Hset;
      [unfold inMemory in Hm; congruence|].
    rewrite Hobj in Hset. cbn in Hset. injection Hset as <-. split.
    + eexists. split; [reflexivity|].
      apply stringified_setField; [reflexivity|exact Hst].
    + unfold inMemory, fingerprint. cbn.
      rewrite assoc_setField_eq, Hfresh. reflexivity.
  - intros s headless saved' [(fields & Hobj & Hst) Hm] Hset.
    rewrite Hobj in Hset. cbn in Hset. injection Hset as <-. split.
    + eexists. split; [reflexivity|].
      apply stringified_setField; [reflexivity|exact Hst].
    + unfold inMemory, fingerprint in *. cbn. rewrite Hobj in Hm. cbn in Hm.
      now rewrite assoc_setField_ne by discriminate.
  - intros headless sp s Hs. now apply saveBrowserState_writesIdentity.
Qed.

End Cooperative.
End Facts.

(** Every context a search opens presents one identity: the stored one, if
    the prologue loaded a truthy one, and the one generated from the host
    otherwise. *)
Lemma googleSearchM_presents w searchQuery options existingBrowser disk :
  wp (googleSearchM w searchQuery options existingBrowser)
     (fun _ s' =>
        exists fp,
          contextsCarry fp s'
          /\ (fp = fingerprintJson (freshIdentity w options)
              \/ is_Some (disk !! stateFile options)
                 /\ exists saved,
                     disk !! fingerprintFile options = Some (JsonFile saved)
                     /\ fingerprint saved = Some fp))
     (initialState disk).
Proof.
  unfold googleSearchM. wp_run.
  eapply wp_consequence; [apply (loadSavedState_loaded w options disk)|].
  cbv beta. intros r s1 (Hev & _ & Hor).
  assert (Hnil : forall fp, contextsCarry fp s1).
  { intros fp b o Hin. rewrite Hev in Hin. inversion Hin. }
  destruct (whenTruthy (fingerprint (savedState s1))) as [fp|] eqn:Hfp.
  - assert (Horigin : is_Some (disk !! stateFile options)
                      /\ exists saved,
                          disk !! fingerprintFile options = Some (JsonFile saved)
                          /\ fingerprint saved = Some fp).
    { destruct Hor as [Hor|[Hs Hf]]; [rewrite Hor in Hfp; discriminate|].
      split; [exact Hs|]. apply whenTruthy_Some in Hfp as [Hfp _]. eauto. }
    destruct r as [storage|e|]; wp_run; try (exists fp; split; [apply Hnil|now right]).
    eapply wp_consequence;
      [apply (performSearch_presents w searchQuery options fp); split;
       [apply Hnil|left; exact Hfp]|].
    cbv beta. intros r s2 Hk. exists fp. split; [exact Hk|now right].
  - destruct r as [storage|e|]; wp_run;
      try (exists (fingerprintJson (freshIdentity w options));
           split; [apply Hnil|now left]).
    eapply wp_consequence;
      [apply (performSearch_presents w searchQuery options
                (fingerprintJson (freshIdentity w options))); split;
       [apply Hnil|right; split; [exact Hfp|reflexivity]]|].
    cbv beta. intros r s2 Hk. eexists. split; [exact Hk|now left].
Qed.

(** With a stored identity that the prologue can read, that identity is
    the one every context presents. *)
Lemma googleSearch_presents_loaded
      w searchQuery options existingBrowser disk session saved fp :
  disk !! stateFile options = Some session ->
  disk !! fingerprintFile options = Some (JsonFile saved) ->
  whenTruthy (fingerprint saved) = Some fp ->
  throwsAt w true SReadFingerprint = None ->
  contextsCarry fp (googleSearch w searchQuery options existingBrowser disk).2.
Proof.
  intros Hs Hf Hfp Hread. unfold googleSearch, googleSearchM, bind.
  rewrite (loadSavedState_present w options (initialState disk) session saved)
    by assumption.
  apply (performSearch_presents w searchQuery options fp existingBrowser
           (Some (stateFile options)) 2 true
           (withSaved saved (initialState disk))).
  split; [intros b o Hin; inversion Hin|left; exact Hfp].
Qed.

(** When the persistence calls of a search go through and what the
    prologue loaded is an object that is written back as it is, the
    identity its contexts presented is on the disk after every run that
    went through a persistence block, next to a state file. *)
Lemma googleSearchM_identity_written w searchQuery options existingBrowser disk :
  noSaveState options = false ->
  (forall headless site,
      persistenceSite site = true -> throwsAt w headless site = None) ->
  (exists fields, loadedState w options disk = JObject fields) ->
  stable (loadedState w options disk) ->
  wp (googleSearchM w searchQuery options existingBrowser)
     (fun r s' =>
        exists fp,
          contextsCarry fp s'
          /\ match r with
             | Ok _ => written options fp s'
             | Throw e =>
                 written options fp s'
                 \/ exists headless site,
                      beforeTry site = true /\ throwsAt w headless site = Some e
             | OutOfFuel => True
             end)
     (initialState disk).
Proof.
  intros Hsave Hpersist [fields0 Hobject] Hstable. unfold googleSearchM. wp_run.
  eapply wp_consequence;
    [apply wp_conj;
     [apply (loadSavedState_loaded w options disk)
     |apply (loadSavedState_returns w options (initialState disk) eq_refl)]|].
  cbv beta. intros r s1 [(Hev & _ & Hor) (Hr & _ & _ & _ & Hm)].
  assert (Hnil : forall fp, contextsCarry fp s1).
  { intros fp b o Hin. rewrite Hev in Hin. inversion Hin. }
  assert (Hst : stableObject s1).
  { cbn [fs initialState] in Hm. exists fields0.
    split; [congruence|]. now rewrite <- Hobject. }
  assert (Hrun : forall storage fp,
             inMemory fp s1
             \/ whenTruthy (fingerprint (savedState s1)) = None
                /\ fp = fingerprintJson (freshIdentity w options) ->
             wp (performSearch w searchQuery options existingBrowser storage 2 true)
                (fun r s' =>
                   contextsCarry fp s'
                   /\ match r with
                      | Ok _ => written options fp s'
                      | Throw e =>
                          written options fp s'
                          \/ exists headless site,
                               beforeTry site = true
                               /\ throwsAt w headless site = Some e
                      | OutOfFuel => True
                      end) s1).
  { intros storage fp Hfp.
    eapply wp_consequence;
      [apply wp_conj;
       [apply (performSearch_presents w searchQuery options fp);
        split; [apply Hnil|exact Hfp]
       |apply (performSearch_stands w searchQuery options _ _ _ _
                 (written_stages w options fp Hsave Hpersist));
        split; [exact Hst|exact Hfp]]|].
    cbv beta. intros r' s2 [Hk Hw]. split; [exact Hk|].
    destruct r' as [response|e|]; cbn in Hw; [apply Hw| |exact I].
    destruct Hw as [[[_ Hw] _]|[[Hobj _] [Hsite|[Hprim _]]]];
      [now left|now right|].
    destruct Hobj as (fields & Hobj & _). rewrite Hobj in Hprim. discriminate. }
  destruct (whenTruthy (fingerprint (savedState s1))) as [fp|] eqn:Hfp.
  - destruct Hr as [-> | ->]; wp_run; exists fp; apply Hrun; now left.
  - destruct Hr as [-> | ->]; wp_run;
      exists (fingerprintJson (freshIdentity w options)); apply Hrun;
      right; now split.
Qed.

End Contexts.

(* --------------------------------------------------------------------- *)
(** ** How many activations and browsers a search uses *)
(* --------------------------------------------------------------------- *)

Module Activations.
Import JsValue Search Wp Outcomes.
Local Open Scope search_scope.

Definition isLaunch (e : Event) : bool :=
  match e with Launch _ => true | _ => false end.

(** How many browsers were launched so far. *)
Definition launches (s : RunState) : nat :=
  length (List.filter isLaunch (events s)).

Lemma launches_event e s :
  launches (addEvent e s) = launches s + (if isLaunch e then 1 else 0).
Proof.
  unfold launches. cbn. rewrite List.filter_app, length_app. cbn.
  destruct (isLaunch e); reflexivity.
Qed.

Lemma launches_launch mode s : launches (withLaunch mode s) = launches s + 1.
Proof. unfold launches. cbn. now rewrite List.filter_app, length_app. Qed.

Section Facts.
Variable w : World.
Variable searchQuery : string.
Variable options : CommandOptions.

(** At most [k] more launches than in [s0]. *)
Definition upTo (s0 : RunState) (k : nat) {A} : Outcome A -> RunState -> Prop :=
  fun _ s => launches s <= launches s0 + k.

Ltac count_leaf :=
  unfold upTo, launches in *; cbn in *;
  rewrite ?List.filter_app, ?length_app in *; cbn in *; lia.

Lemma saveBrowserState_count headless sp s :
  wp (saveBrowserState w options headless sp) (upTo s 0) s.
Proof. unfold saveBrowserState. wp_run; count_leaf. Qed.

Lemma findSearchInput_count headless selectors s :
  wp (findSearchInput w headless selectors) (upTo s 0) s.
Proof.
  wp_apply findSearchInput_frame. destruct H as [-> _]. count_leaf.
Qed.

(** What a restart adds: the temporary browser, when the session borrows
    the caller's. *)
Definition restartCost (ses : Session) : nat :=
  if browserWasProvided ses then 1 else 0.

Lemma restartHeaded_count {A} cp ses headless s :
  wp (@restartHeaded w A cp ses headless) (upTo s (restartCost ses)) s.
Proof.
  unfold restartHeaded, restartCost.
  destruct (browserWasProvided ses); wp_run; count_leaf.
Qed.

Lemma extractAndFinish_count ses headless s :
  wp (extractAndFinish w searchQuery options ses headless) (upTo s 0) s.
Proof.
  unfold extractAndFinish, evaluateExtraction, releaseBrowser.
  wp_run; try count_leaf.
  wp_apply saveBrowserState_count.
  destruct r as [[]|?|]; wp_run; count_leaf.
Qed.

(** What the [try] block of an activation in mode [headless] can add. *)
Definition bodyCost (ses : Session) (headless : bool) : nat :=
  if headless then restartCost ses else 0.

Lemma awaitResults_count ses headless s :
  wp (awaitResults w searchQuery options ses headless)
     (upTo s (bodyCost ses headless)) s.
Proof.
  unfold awaitResults, waitForVerification, bodyCost.
  wp_run; try count_leaf.
  all: first [ apply restartHeaded_count
             | wp_apply extractAndFinish_count; count_leaf
             | wp_apply (@restartHeaded_count SearchResponse); count_leaf ].
Qed.

Lemma submitQuery_count ses headless s :
  wp (submitQuery w searchQuery options ses headless)
     (upTo s (bodyCost ses headless)) s.
Proof.
  unfold submitQuery, waitForVerification. wp_run.
  wp_apply findSearchInput_count.
  destruct r as [found|e|]; wp_run; try count_leaf.
  all: first [ wp_apply awaitResults_count; unfold bodyCost in *; count_leaf
             | wp_apply (@restartHeaded_count SearchResponse); unfold bodyCost in *; count_leaf ].
Qed.

Lemma searchBody_count ses headless s :
  wp (searchBody w searchQuery options ses headless)
     (upTo s (bodyCost ses headless)) s.
Proof.
  unfold searchBody, waitForVerification. wp_run.
  apply selectDomain_frame; [|intros; count_leaf]. intros d s' _ Hev _ _ _.
  assert (Hl : launches s' = launches s) by (unfold launches; now rewrite Hev).
  wp_run; try (unfold upTo; rewrite ?launches_event; cbn; lia).
  all: first [ wp_apply submitQuery_count
             | wp_apply (@restartHeaded_count SearchResponse) ];
    unfold upTo, bodyCost in *; rewrite ?launches_event in *; cbn in *; lia.
Qed.

Lemma searchFailed_count ses headless e s :
  wp (searchFailed w searchQuery options ses headless e) (upTo s 0) s.
Proof.
  unfold searchFailed, releaseBrowser. wp_run.
  wp_apply saveBrowserState_count.
  destruct r as [[]|?|]; wp_run; count_leaf.
Qed.

Section PerformSearch.
Variable existingBrowser : option Browser.
Variable storage : option string.

(** What opening the session adds: the browser of the search, unless the
    caller gave one. *)
Definition openCost : nat :=
  match existingBrowser with Some _ => 0 | None => 1 end.

Lemma openSession_count headless s :
  wp (openSession w options existingBrowser storage headless)
     (fun r s' =>
        launches s' <= launches s + openCost
        /\ match r with
           | Ok ses => browserWasProvided ses = bool_decide (is_Some existingBrowser)
           | _ => True
           end) s.
Proof.
  unfold openSession, openCost.
  destruct existingBrowser as [b|]; wp_run;
    try (split; [count_leaf|first [exact I|reflexivity]]).
  all: apply buildContextOptions_raises;
    [intros opts s' _ _ Hev _; wp_run
    |intros _; wp_run];
    (split; [unfold launches in *; cbn in *; rewrite ?Hev;
             rewrite ?List.filter_app, ?length_app; cbn; lia
            |first [exact I|reflexivity]]).
Qed.

(** One activation launches at most one browser. *)
Definition attemptCost (headless : bool) : nat :=
  match existingBrowser with
  | Some _ => if headless then 1 else 0
  | None => 1
  end.

Lemma attempt_count headless s :
  wp (attempt w searchQuery options existingBrowser storage headless)
     (upTo s (attemptCost headless)) s.
Proof.
  unfold attempt. wp_run.
  wp_apply openSession_count. destruct H as [Hopen Hses].
  destruct r as [ses|e|]; wp_run;
    try (unfold upTo, attemptCost, openCost in *;
         destruct existingBrowser, headless; lia).
  wp_apply searchBody_count.
  destruct r as [step|e|]; wp_run;
    try (wp_apply searchFailed_count);
    unfold upTo, attemptCost, openCost, bodyCost, restartCost in *;
    rewrite Hses in *; destruct existingBrowser, headless; cbn in *; lia.
Qed.

(** A search: two activations at most, the second one headed. *)
Definition searchCost : nat :=
  match existingBrowser with Some _ => 1 | None => 2 end.

Lemma performSearch_count s :
  wp (performSearch w searchQuery options existingBrowser storage 2 true)
     (upTo s searchCost) s.
Proof.
  rewrite performSearch_S. wp_run.
  eapply wp_consequence;
    [apply wp_conj; [apply attempt_count|apply attempt_post]|].
  cbv beta. intros r s1 [H1 _].
  destruct r as [[response|]|e|]; wp_run;
    try (unfold upTo, attemptCost, searchCost in *;
         destruct existingBrowser; lia).
  rewrite performSearch_S. wp_run.
  eapply wp_consequence;
    [apply wp_conj; [apply attempt_count|apply attempt_post]|].
  cbv beta. intros r s2 [H2 Hpost].
  destruct r as [[response|]|e|]; wp_run;
    try (unfold upTo, attemptCost, searchCost in *;
         destruct existingBrowser; lia).
  destruct Hpost; discriminate.
Qed.

End PerformSearch.
Lemma googleSearchM_count existingBrowser s :
  wp (googleSearchM w searchQuery options existingBrowser)
     (upTo s (searchCost existingBrowser)) s.
Proof.
  unfold googleSearchM. wp_run.
  wp_apply Lifecycle.loadSavedState_events.
  assert (Hl : launches s' = launches s) by (unfold launches; now rewrite H).
  destruct r as [storage|e|]; wp_run; try (unfold upTo; lia).
  wp_apply performSearch_count. unfold upTo in *. lia.
Qed.

(** Two levels of recursion are all a search ever uses. *)
Lemma performSearch_depth existingBrowser storage fuel s :
  performSearch w searchQuery options existingBrowser storage (S (S fuel)) true s
  = performSearch w searchQuery options existingBrowser storage 2 true s.
Proof.
  rewrite !performSearch_S. unfold bind.
  destruct (attempt w searchQuery options existingBrowser storage true s)
    as [[[response|]|e|] s1]; try reflexivity.
  cbv beta match.
  pose proof (attempt_post w searchQuery options existingBrowser storage false s1)
    as H.
  unfold wp in H.
  destruct (attempt w searchQuery options existingBrowser storage false s1)
    as [[[response|]|e|] s2]; try reflexivity.
  destruct H; discriminate.
Qed.

(** Neither does the markup fetch use more. *)
Lemma performSearchAndGetHtml_depth saveToFile outputPath storage fuel s :
  performSearchAndGetHtml w searchQuery options saveToFile outputPath storage
                          (S (S fuel)) true s
  = performSearchAndGetHtml w searchQuery options saveToFile outputPath storage
                            2 true s.
Proof.
  rewrite !performSearchAndGetHtml_S. unfold bind.
  destruct (htmlAttempt w searchQuery options saveToFile outputPath storage
                        true s)
    as [[[response|]|e|] s1]; try reflexivity.
  cbv beta match.
  pose proof (htmlAttempt_post w searchQuery options saveToFile outputPath
                storage false s1) as H.
  unfold wp in H.
  destruct (htmlAttempt w searchQuery options saveToFile outputPath storage
                        false s1)
    as [[[response|]|e|] s2]; try reflexivity.
  destruct H; discriminate.
Qed.

End Facts.
End Activations.


(* --------------------------------------------------------------------- *)
(** ** What the markup fetch returns *)
(* --------------------------------------------------------------------- *)

Module HtmlFetch.
Import JsString JsValue Search Wp Outcomes.
Local Open Scope search_scope.

Ltac saved_returns lem :=
  wp_apply lem;
  match goal with H : _ = Ok tt /\ _ |- _ => destruct H as [-> ?] end.

Section Facts.
Variable w : World.
Variable searchQuery : string.
Variable options : CommandOptions.
Variable saveToFile : bool.
Variable outputPath : option string.

(** The file the markup goes to when it is saved. *)
Definition target : string :=
  match orElse outputPath None with
  | Some p => p
  | None => autoOutputPath w
  end.

(** The response of an activation that ran in mode [headless]. *)
Definition shaped (headless : bool) (r : HtmlResponse) : Prop :=
  htmlQuery r = searchQuery
  /\ html r = Markup.stripStyleAndScript (pageContent w headless)
  /\ url r = finalUrl w headless
  /\ originalHtmlLength r = jsLength (pageContent w headless)
  /\ if saveToFile
     then savedPath r = Some target
          /\ screenshotPath r = Some (replaceHtmlSuffix target)
     else savedPath r = None /\ screenshotPath r = None.

Definition bodyShaped (headless : bool)
  : Outcome (Step HtmlResponse) -> RunState -> Prop :=
  fun r _ =>
    match r with
    | Ok (Done response) => shaped headless response
    | _ => True
    end.

Lemma saveHtml_paths headless html s :
  wp (saveHtml w saveToFile outputPath headless html)
     (fun r _ =>
        match r with
        | Ok (saved, shot) =>
            if saveToFile
            then saved = Some target /\ shot = Some (replaceHtmlSuffix target)
            else saved = None /\ shot = None
        | _ => True
        end) s.
Proof.
  unfold saveHtml, target. destruct saveToFile; [|wp_run; now split].
  destruct (orElse outputPath None) as [p|]; wp_run; try exact I; now split.
Qed.

Lemma captureHtml_shaped ses headless s :
  wp (captureHtml w searchQuery options saveToFile outputPath ses headless)
     (bodyShaped headless) s.
Proof.
  unfold captureHtml. wp_run; try exact I.
  wp_apply saveHtml_paths.
  destruct r as [[saved shot]|e|]; wp_run; try exact I.
  saved_returns saveBrowserState_returns.
  wp_run; try exact I.
  unfold shaped. cbn. repeat split; destruct saveToFile; tauto.
Qed.

Lemma restartHeadedHtml_shaped cp ses headless s :
  wp (restartHeadedHtml w cp ses headless) (bodyShaped headless) s.
Proof. unfold restartHeadedHtml. wp_run; exact I. Qed.

Lemma submitQueryHtml_shaped ses headless s :
  wp (submitQueryHtml w searchQuery options saveToFile outputPath ses headless)
     (bodyShaped headless) s.
Proof.
  unfold submitQueryHtml. wp_run.
  wp_apply findSearchInput_frame. destruct H as [-> Hr].
  destruct r as [found| |]; [|exact I|exact I].
  wp_run; try exact I;
    solve [apply captureHtml_shaped|apply restartHeadedHtml_shaped].
Qed.

Lemma htmlBody_shaped ses headless s :
  wp (htmlBody w searchQuery options saveToFile outputPath ses headless)
     (bodyShaped headless) s.
Proof.
  unfold htmlBody. wp_run.
  apply selectDomain_frame; [|intros; exact I]. intros d s' _ _ _ _ _.
  wp_run; try exact I;
    solve [apply submitQueryHtml_shaped|apply restartHeadedHtml_shaped].
Qed.

Lemma htmlFailed_throws ses headless e s :
  wp (htmlFailed w options ses headless e)
     (fun r _ => match r with Ok _ => False | _ => True end) s.
Proof.
  unfold htmlFailed. wp_run.
  saved_returns saveBrowserState_returns. wp_run; exact I.
Qed.

Section Run.
Variable storage : option string.

Lemma htmlAttempt_shaped headless s :
  wp (htmlAttempt w searchQuery options saveToFile outputPath storage headless)
     (bodyShaped headless) s.
Proof.
  unfold htmlAttempt. wp_run.
  apply openHtmlSession_raises; [|intros e s' _; exact I].
  intros ses s' _. wp_run.
  wp_apply htmlBody_shaped.
  destruct r as [[response|]|e|]; wp_run; try exact I; try assumption.
  wp_apply htmlFailed_throws.
  destruct r as [[response|]|e'|]; first [contradiction|exact I].
Qed.

Definition runShaped : Outcome HtmlResponse -> RunState -> Prop :=
  fun r _ =>
    match r with
    | Ok response => exists headless, shaped headless response
    | _ => True
    end.

Lemma performSearchAndGetHtml_shaped fuel headless s :
  wp (performSearchAndGetHtml w searchQuery options saveToFile outputPath
                              storage fuel headless) runShaped s.
Proof.
  revert headless s. induction fuel as [|fuel IH]; intros headless s.
  - exact I.
  - rewrite performSearchAndGetHtml_S. wp_run. wp_apply htmlAttempt_shaped.
    destruct r as [[response|]|e|]; wp_run; try exact I.
    + cbn in H. now exists headless.
    + apply IH.
Qed.

End Run.

Lemma getGoogleSearchPageHtmlM_shaped s :
  wp (getGoogleSearchPageHtmlM w searchQuery options saveToFile outputPath)
     runShaped s.
Proof.
  unfold getGoogleSearchPageHtmlM. wp_run.
  unfold loadSavedState.
  wp_run; try exact I; apply performSearchAndGetHtml_shaped.
Qed.

End Facts.
End HtmlFetch.


(* --------------------------------------------------------------------- *)
(** ** Which calls of the file system a search makes *)
(* --------------------------------------------------------------------- *)

Module Footprint.
Import JsValue Search Wp Outcomes.
Local Open Scope search_scope.

#[local] Arguments dirname : simpl never.

Section Facts.
Variable w : World.
Variable searchQuery : string.
Variable options : CommandOptions.
















Section PerformSearch.
Variable existingBrowser : option Browser.
Variable storage : option string.




End PerformSearch.




End Facts.
End Footprint.

(* --------------------------------------------------------------------- *)
(** ** The saved state in memory during a run *)
(* --------------------------------------------------------------------- *)

Module Memory.
Import JsValue Search Wp JsonFacts Outcomes Protocol.
Local Open Scope search_scope.

Section Facts.
Variable w : World.
Variable searchQuery : string.
Variable options : CommandOptions.
Variable loaded : Json.

(** The saved state is the loaded value as long as nothing was assigned to
    it, and what was assigned to can only be an object or an array. *)
Definition kept (s : RunState) : Prop :=
  savedState s = loaded \/ isPrimitive (savedState s) = false.



End Facts.




End Memory.


(* ===================================================================== *)
(** * The claims *)
(* ===================================================================== *)

Section FingerprintClaims.
Local Open Scope Z_scope.

(** C2. The zone is that of the first range, in source order, that the
    offset satisfies.  At the host offset of -540 minutes (UTC+9) the offset
    table is not mutually exclusive: the offset satisfies the first range,
    written for UTC+8, and the second, written for UTC+9; the first one wins
    and the generated identity gets the UTC+8 zone, not [Asia/Seoul]. *)
Theorem offset_540_maps_to_shanghai :
  forall hr lang plat userLocale,
    timezoneId (getHostMachineConfig
                  {| timezoneOffset := -540; hour := hr;
                     envLANG := lang; platform := plat |} userLocale)
    = "Asia/Shanghai"
    /\ matchingRanges (-540) = ["Asia/Shanghai"; "Asia/Seoul"]
    /\ (forall o, inferTimezone o
                  = default "Asia/Seoul" (firstMatch offsetRanges o)).
Proof.
  intros. split; [reflexivity|]. split; [reflexivity|].
  apply FingerprintFacts.inferTimezone_firstMatch.
Qed.

(** C9. For every host wall-clock hour [h] (0 to 23) the generated identity
    is dark exactly when [h] is in [19,24) or [0,7), and light otherwise;
    hour 2 gives dark and hour 14 gives light. *)
Theorem colorScheme_by_hour (host : Host) (userLocale : option string) :
  0 <= hour host < 24 ->
  (colorScheme (getHostMachineConfig host userLocale) = dark
   <-> (19 <= hour host < 24 \/ 0 <= hour host < 7))
  /\ (colorScheme (getHostMachineConfig host userLocale) = light
      <-> 7 <= hour host < 19)
  /\ (forall off lang plat,
        colorScheme (getHostMachineConfig
                       {| timezoneOffset := off; hour := 2;
                          envLANG := lang; platform := plat |} userLocale) = dark)
  /\ (forall off lang plat,
        colorScheme (getHostMachineConfig
                       {| timezoneOffset := off; hour := 14;
                          envLANG := lang; platform := plat |} userLocale) = light).
Proof.
  intros Hh. unfold getHostMachineConfig, inferColorScheme. cbn [colorScheme hour].
  destruct (hour host >=? 19) eqn:E1; destruct (hour host <? 7) eqn:E2; cbn;
    repeat split; intros; try discriminate; try reflexivity; try lia.
Qed.

Lemma colorScheme_by_hour_witness :
  0 <= hour Scenarios.nightHost < 24
  /\ (colorScheme (getHostMachineConfig Scenarios.nightHost None) = dark
      <-> (19 <= hour Scenarios.nightHost < 24 \/ 0 <= hour Scenarios.nightHost < 7)).
Proof.
  split; [cbn; lia|].
  apply (colorScheme_by_hour Scenarios.nightHost None). cbn. lia.
Defined.

End FingerprintClaims.


Section ExtractionClaims.
Import JsString JsStringFacts JsValue NumberFacts Extract ExtractFacts ExtractMore.

(** A link that starts with an HTTP(S) scheme, as the specification words
    it. *)
Definition httpScheme (link : string) : bool :=
  startsWith "http://" link || startsWith "https://" link.

(** C3, counterexample. A result that links to [httpx://gateway.example/]
    and an anchor that resolves to an [ftp:] address are both returned:
    neither link starts with an HTTP(S) scheme, and the second does not
    even start with the four letters. *)
Lemma returned_link_of_another_scheme :
  extract Cases.schemePage (ofZ 10)
  = Some [ {| title := "Gateway"; link := "httpx://gateway.example/";
              snippet := "" |};
           {| title := "Read me"; link := "ftp://files.example/httpdocs/readme";
              snippet := "" |} ]
  /\ httpScheme "httpx://gateway.example/" = false
  /\ httpScheme "ftp://files.example/httpdocs/readme" = false
  /\ startsWith "http" "ftp://files.example/httpdocs/readme" = false.
Proof. repeat split; vm_compute; reflexivity. Qed.

(** C3, amended. Whenever the extraction returns, the list holds no two
    records with the same link, and every record has a non-empty title and
    a non-empty link.  The first occurrence of a link wins: the list is
    what remains of the records offered by the containers and the anchors,
    in visiting order, when every record whose link was offered before is
    dropped and the first [maxResults] are kept.  A record of the primary
    pass has a link that begins with the four letters [http]; a record of
    the anchor scan has the resolved [href] of an HTML anchor of the page as
    its link, so that its link begins with [http] whenever the resolved
    links of the anchors do. *)
Theorem extract_unique_wellformed
        (page : Page) (maxResults : JsNumber) (rs : list SearchResult) :
  extract page maxResults = Some rs ->
  NoDup (map link rs)
  /\ Forall (fun r => title r <> "" /\ link r <> "") rs
  /\ rs = takeUpTo (kept maxResults) (keepFirst [] (candidates page))
  /\ Forall (fun r =>
               (startsWith "http" (link r) = true
                /\ exists selectors c t,
                    selectors ∈ selectorSets
                    /\ c ∈ querySelectorAll page (container selectors)
                    /\ queryTitle c (titleSel selectors) = Some t
                    /\ findLink t c = HrefString (link r))
               \/ (exists el,
                      el ∈ anchorElements page
                      /\ isHTMLAnchor el = true
                      /\ link r = href el)) rs
  /\ (anchorsAbsolute page ->
      Forall (fun r => startsWith "http" (link r) = true) rs).
Proof.
  intros Hrs.
  assert (Hcand : forall r, r ∈ rs ->
            (exists selectors c t,
                selectors ∈ selectorSets
                /\ c ∈ querySelectorAll page (container selectors)
                /\ queryTitle c (titleSel selectors) = Some t
                /\ findLink t c = HrefString (link r)
                /\ startsWith "http" (link r) = true
                /\ title r <> "")
            \/ (exists el,
                   el ∈ anchorElements page
                   /\ isHTMLAnchor el = true
                   /\ href el <> ""
                   /\ trim (anchorTextContent el) <> ""
                   /\ r = recordOfAnchor el)).
  { intros r Hr. apply (extract_candidates page maxResults rs r Hrs) in Hr.
    unfold candidates in Hr. apply elem_of_app in Hr as [Hr|Hr].
    - apply elem_of_primaryCandidates in Hr
        as (selectors & c & t & Hs & Hc & Ht & Hl & Hp & Hti & _).
      left. exists selectors, c, t. repeat split; assumption.
    - apply elem_of_anchorCandidates in Hr
        as (el & Hel & Ha & Hh & _ & Ht & ->).
      right. exists el. repeat split; assumption. }
  split; [exact (extract_nodup page maxResults rs Hrs)|].
  split; [|split; [exact (extract_closed_form page maxResults rs Hrs)|split]].
  - apply Forall_forall. intros r Hr.
    destruct (Hcand r Hr)
      as [(selectors & c & t & _ & _ & _ & _ & Hp & Hti)
         |(el & _ & _ & Hh & Ht & ->)].
    + split; [exact Hti|]. intros Hl. rewrite Hl in Hp. discriminate.
    + split; assumption.
  - apply Forall_forall. intros r Hr.
    destruct (Hcand r Hr)
      as [(selectors & c & t & Hs & Hc & Ht & Hl & Hp & _)
         |(el & Hel & Ha & _ & _ & ->)].
    + left. split; [exact Hp|]. exists selectors, c, t.
      repeat split; assumption.
    + right. exists el. repeat split; assumption.
  - intros Habs. apply Forall_forall. intros r Hr.
    destruct (Hcand r Hr)
      as [(selectors & c & t & _ & _ & _ & _ & Hp & _)
         |(el & Hel & _ & _ & _ & ->)]; [exact Hp|].
    unfold anchorsAbsolute in Habs. rewrite Forall_forall in Habs.
    exact (Habs el Hel).
Qed.

Lemma extract_unique_wellformed_witness :
  extract Scenarios.samplePage (ofZ 10)
  = Some [ {| title := "Rocq"; link := "https://rocq-prover.org/";
              snippet := "" |};
           {| title := "Example"; link := "https://example.org/a";
              snippet := "Example: a page about many things, long enough" |} ]
  /\ NoDup ["https://rocq-prover.org/"; "https://example.org/a"].
Proof.
  assert (H : extract Scenarios.samplePage (ofZ 10)
              = Some [ {| title := "Rocq"; link := "https://rocq-prover.org/";
                          snippet := "" |};
                       {| title := "Example"; link := "https://example.org/a";
                          snippet :=
                            "Example: a page about many things, long enough" |} ])
    by (vm_compute; reflexivity).
  split; [exact H|].
  exact (proj1 (extract_unique_wellformed Scenarios.samplePage (ofZ 10) _ H)).
Defined.

(** A limit of one leaves no room for the anchor scan; a negative limit, and
    one that is no number, return nothing; half a record more than two is
    two records. *)
Example extract_samplePage_limits :
  extract Scenarios.samplePage (ofZ 1)
  = Some [ {| title := "Rocq"; link := "https://rocq-prover.org/"; snippet := "" |} ]
  /\ extract Scenarios.samplePage (ofZ (-1)) = Some []
  /\ extract Scenarios.samplePage NaN = Some []
  /\ (exists rs, extract Scenarios.samplePage (Num (5 # 2)) = Some rs
                 /\ length rs = 2).
Proof.
  split; [vm_compute; reflexivity|].
  split; [vm_compute; reflexivity|].
  split; [vm_compute; reflexivity|].
  eexists. split; [vm_compute; reflexivity|reflexivity].
Qed.

(** C5. The page of the third domain of the list at the limit 10: the
    primary pass finds nothing, the anchor scan runs, skips the settings
    link under [google.com/] and appends the very same settings link of the
    domain the search went to, [google.co.uk], which is one of the four
    domains of the provider the search picks from. *)
Theorem fallback_keeps_regional_provider_links :
  extract Cases.regionalPage (ofZ 10)
  = Some [ {| title := "Settings";
              link := "https://www.google.co.uk/preferences?hl=en";
              snippet := "" |};
           {| title := "Rocq"; link := "https://rocq-prover.org/";
              snippet := "" |} ]
  /\ excludedLink "https://www.google.com/preferences?hl=en" = true
  /\ excludedLink "https://www.google.co.uk/preferences?hl=en" = false
  /\ "https://www.google.co.uk" ∈ Search.googleDomains
  /\ startsWith "https://www.google.co.uk"
                "https://www.google.co.uk/preferences?hl=en" = true
  /\ (forall d, d ∈ Search.googleDomains ->
                excludedLink (d ++ "/preferences?hl=en")
                = String.eqb d "https://www.google.com").
Proof.
  repeat split; try (vm_compute; reflexivity).
  - unfold Search.googleDomains. apply elem_of_cons. right.
    apply elem_of_cons. now left.
  - intros d Hd. unfold Search.googleDomains in Hd.
    repeat (apply elem_of_cons in Hd as [->|Hd]; [vm_compute; reflexivity|]).
    inversion Hd.
Qed.

End ExtractionClaims.

Section OrchestratorClaims.
Import JsValue Search Wp Outcomes Protocol SaveAttempt Independence Identity
       Persistence Scenarios Cases.

(** C1. A challenge met in headless mode with a browser supplied by the
    caller (launched headless, as the MCP server does): the supplied browser
    is not closed and a new headed browser is launched, but that browser is
    closed at once and the restarted activation opens its context and
    navigates in the supplied, headless browser again.  Whatever the runtime
    answers, a supplied browser is never closed and every navigation of the
    call happens in it. *)
Theorem restart_runs_in_supplied_browser :
  (let run := googleSearch challengedWorld "rocq" noOptions
                           (Some (Provided true)) emptyDisk in
   lifecycle (events run.2)
   = [ Goto (Provided true) (JString "https://www.google.com");
       Launch (Launched 0 false);
       CloseBrowser (Launched 0 false);
       Goto (Provided true) (JString "https://www.google.com") ]
   /\ isHeadless (Provided true) = true
   /\ exists response, run.1 = Ok response)
  /\ (forall w searchQuery options mode disk,
        let evs := events (googleSearch w searchQuery options
                                        (Some (Provided mode)) disk).2 in
        (CloseBrowser (Provided mode) ∉ evs)
        /\ forall b target, Goto b target ∈ evs -> b = Provided mode).
Proof.
  split.
  - cbv zeta. split; [vm_compute; reflexivity|].
    split; [reflexivity|]. eexists. vm_compute. reflexivity.
  - intros w searchQuery options mode disk.
    apply Borrowed.supplied_browser_kept_and_reused.
Qed.

(** C4. A result whose title holds an SVG anchor: the callback throws where
    it calls [startsWith] on the link, and the search reports the error of
    the evaluation as its one synthetic record.  On a page whose containers
    have no SVG anchor where the link is looked for, the callback returns,
    and no more records than the limit rounded down. *)
Theorem extract_throws_on_svg_anchor :
  Extract.extract svgPage (ofZ 10) = None
  /\ (googleSearch svgWorld "rocq" noOptions None emptyDisk).1
     = Ok {| query := "rocq";
             results := [failureRecord (callbackError svgWorld true)] |}
  /\ (forall page N,
        Extract.htmlLinksOnly page ->
        exists rs,
          Extract.extract page N = Some rs
          /\ match Extract.kept N with
             | Some k => length rs <= k
             | None => True
             end)
  /\ (forall n : nat, Extract.kept (ofZ (Z.of_nat n)) = Some n).
Proof.
  split; [vm_compute; reflexivity|]. split; [vm_compute; reflexivity|]. split.
  - intros page N Hpage.
    destruct (ExtractFacts.extract_returns page N Hpage) as [rs Hrs].
    exists rs. split; [exact Hrs|].
    exact (ExtractMore.extract_length page N rs Hrs).
  - intros n. unfold ofZ. rewrite NumberFacts.kept_num, NumberFacts.floor_inject.
    now rewrite Nat2Z.id.
Qed.




(** A session file next to a fingerprint file whose text is [null]: the
    search launches its browser, raises the [TypeError] of the set-up and
    leaves the browser open; nothing is written. *)
Example null_identity_file_raises :
  let run := googleSearch quietWorld "rocq" noOptions None nullIdentityDisk in
  run.1 = Throw (typeErrorMessage quietWorld JNull)
  /\ events run.2 = [Launch (Launched 0 true)]
  /\ fs run.2 = nullIdentityDisk
  /\ loadedState quietWorld noOptions nullIdentityDisk = JNull.
Proof. cbv zeta. repeat split; vm_compute; reflexivity. Qed.

(** C7. With [noSaveState = true] the disk after the run is the disk before
    it, for every answer of the runtime and so whether the run succeeds,
    fails or raises: in particular neither the session state file nor the
    fingerprint file is created or modified.  The same holds for the markup
    fetch that is not asked to save its output. *)
Theorem no_save_state_keeps_disk
        (w : World) (searchQuery : string) (options : CommandOptions)
        (disk : gmap string FileContent) :
  noSaveState options = true ->
  (forall existingBrowser,
      fs (googleSearch w searchQuery options existingBrowser disk).2 = disk)
  /\ (forall outputPath,
      fs (getGoogleSearchPageHtml w searchQuery options false outputPath disk).2
      = disk).
Proof.
  intros Hno. split.
  - intros existingBrowser.
    exact (DiskFrame.googleSearchM_keeps w searchQuery options disk Hno
             existingBrowser (initialState disk) eq_refl).
  - intros outputPath.
    exact (DiskFrame.getGoogleSearchPageHtmlM_keeps w searchQuery options disk
             Hno outputPath (initialState disk) eq_refl).
Qed.

Lemma no_save_state_keeps_disk_witness :
  noSaveState noSaveOptions = true
  /\ (forall existingBrowser,
        fs (googleSearch inputMissing "rocq" noSaveOptions existingBrowser
                         identityOnlyDisk).2 = identityOnlyDisk)
  /\ (forall outputPath,
        fs (getGoogleSearchPageHtml inputMissing "rocq" noSaveOptions false
                                    outputPath identityOnlyDisk).2
        = identityOnlyDisk).
Proof.
  split; [reflexivity|].
  exact (no_save_state_keeps_disk inputMissing "rocq" noSaveOptions
                                  identityOnlyDisk eq_refl).
Defined.




(** The world in which the session write fails returns the very records of
    the world in which it succeeds. *)
Example failed_session_write_same_result :
  (googleSearch sessionWriteFails "rocq" noOptions None emptyDisk).1
  = (googleSearch quietWorld "rocq" noOptions None emptyDisk).1
  /\ Some (googleSearch quietWorld "rocq" noOptions None emptyDisk).1
     = (fun rs => Ok {| query := "rocq"; results := rs |})
         <$> Extract.extract samplePage (ofZ 10).
Proof. split; vm_compute; reflexivity. Qed.

(** A state file two directories down: the block creates both. *)
Example nested_state_directory_created :
  let options := {| opt_limit := None; opt_timeout := None;
                    opt_stateFile := Some "./data/session/state.json";
                    opt_noSaveState := None; opt_locale := None |} in
  let after := fs (saveBrowserState quietWorld options true OnSuccess
                                    (initialState emptyDisk)).2 in
  after !! "./data" = Some Directory
  /\ after !! "./data/session" = Some Directory
  /\ is_Some (after !! "./data/session/state.json")
  /\ is_Some (after !! "./data/session/state-fingerprint.json").
Proof.
  cbv zeta. repeat split; try (vm_compute; reflexivity);
    eexists; vm_compute; reflexivity.
Qed.

(** C10, counterexample. No session file, persistence enabled, a stored
    identity on the disk; the search succeeds but the session write fails:
    the stored identity is still there at the end of the run, not the fresh
    one. *)
Lemma failed_session_write_keeps_old_identity :
  let run := googleSearch sessionWriteFails "rocq" noOptions None
                          identityOnlyDisk in
  identityOnlyDisk !! stateFile noOptions = None
  /\ noSaveState noOptions = false
  /\ (exists response, run.1 = Ok response)
  /\ fs run.2 !! fingerprintFile noOptions = Some (JsonFile oldSaved)
  /\ fingerprint oldSaved
     <> Some (fingerprintJson (freshIdentity sessionWriteFails noOptions)).
Proof.
  cbv zeta. split; [vm_compute; reflexivity|]. split; [reflexivity|].
  split; [eexists; vm_compute; reflexivity|].
  split; [vm_compute; reflexivity|]. vm_compute. discriminate.
Qed.

(** C10, amended. Without a session state file the prologue reads nothing:
    a stored identity is ignored, the run starts from an empty memory, and
    the first activation generates the identity from the host; with a
    session state file a readable fingerprint file is loaded.  With
    persistence enabled and persistence calls that go through, the fresh
    identity is what the fingerprint file holds at the end of every run
    that reached a persistence block: every run that returns, and every run
    that raises because the release of the browser failed in a [catch]
    block.  The only other runs raise what a call of the set-up threw
    before a [try] block, and they leave the disk as it was. *)
Theorem identity_reuse_needs_session_file
        (w : World) (searchQuery : string) (options : CommandOptions)
        (disk : gmap string FileContent) :
  disk !! stateFile options = None ->
  noSaveState options = false ->
  (forall headless site,
      persistenceSite site = true -> throwsAt w headless site = None) ->
  loadSavedState w options (initialState disk) = (Ok None, initialState disk)
  /\ (forall existingBrowser,
      googleSearch w searchQuery options existingBrowser disk
      = performSearch w searchQuery options existingBrowser None 2 true
                      (initialState disk))
  /\ (forall saveToFile outputPath,
      getGoogleSearchPageHtml w searchQuery options saveToFile outputPath disk
      = performSearchAndGetHtml w searchQuery options saveToFile outputPath
                                None 2 true (initialState disk))
  /\ (forall headless s fields,
      savedState s = JObject fields ->
      whenTruthy (assoc "fingerprint" fields) = None ->
      buildContextOptions w options headless s
      = (Ok (optionsOf (JString (deviceName (freshIdentity w options)))
                       (fingerprintJson (freshIdentity w options))),
         withSaved (JObject (setField "fingerprint"
                                      (fingerprintJson (freshIdentity w options))
                                      fields)) s))
  /\ (forall existingBrowser,
      let run := googleSearch w searchQuery options existingBrowser disk in
      let written :=
        exists fields,
          fs run.2 !! fingerprintFile options = Some (JsonFile (JObject fields))
          /\ assoc "fingerprint" fields
             = Some (fingerprintJson (freshIdentity w options)) in
      match run.1 with
      | Ok _ => written
      | Throw e =>
          (written /\ exists headless, throwsAt w headless SCloseOnError = Some e)
          \/ (fs run.2 = disk
              /\ exists headless site,
                  beforeTry site = true /\ throwsAt w headless site = Some e)
      | OutOfFuel => False
      end)
  /\ (forall saveToFile outputPath,
      let run := getGoogleSearchPageHtml w searchQuery options saveToFile
                                         outputPath disk in
      let written :=
        exists fields,
          fs run.2 !! fingerprintFile options = Some (JsonFile (JObject fields))
          /\ assoc "fingerprint" fields
             = Some (fingerprintJson (freshIdentity w options)) in
      match run.1 with
      | Ok _ => written
      | Throw e =>
          (written
           /\ ((exists headless, throwsAt w headless SCloseOnError = Some e)
               \/ exists m, e = wrapHtmlError m))
          \/ (fs run.2 = disk
              /\ exists headless site,
                  beforeTry site = true /\ throwsAt w headless site = Some e)
      | OutOfFuel => False
      end)
  /\ (forall disk' session value,
      disk' !! stateFile options = Some session ->
      disk' !! fingerprintFile options = Some (JsonFile value) ->
      throwsAt w true SReadFingerprint = None ->
      loadSavedState w options (initialState disk')
      = (Ok (Some (stateFile options)), withSaved value (initialState disk'))).
Proof.
  intros Habsent Hsave Hpersist.
  assert (Hload : loadSavedState w options (initialState disk)
                  = (Ok None, initialState disk))
    by (apply loadSavedState_absent; exact Habsent).
  split; [exact Hload|].
  split; [|split; [|split; [|split; [|split]]]].
  - intros existingBrowser. unfold googleSearch, googleSearchM, bind.
    now rewrite Hload.
  - intros saveToFile outputPath.
    unfold getGoogleSearchPageHtml, getGoogleSearchPageHtmlM, bind.
    now rewrite Hload.
  - intros headless s fields Hs Hnone. now apply buildContextOptions_fresh.
  - intros existingBrowser. cbv zeta.
    pose proof (googleSearch_writes_fresh w searchQuery options disk Hsave
                  Hpersist existingBrowser Habsent) as H.
    pose proof (googleSearchM_post w searchQuery options existingBrowser disk)
      as Hfuel.
    unfold wp, searchPost in Hfuel. cbv zeta in H. unfold googleSearch in *.
    destruct (googleSearchM w searchQuery options existingBrowser
                            (initialState disk)) as [[response|e|] s];
      cbn in *; [exact H|exact H|contradiction].
  - intros saveToFile outputPath. cbv zeta.
    pose proof (getGoogleSearchPageHtml_writes_fresh w searchQuery options disk
                  Hsave Hpersist saveToFile outputPath Habsent) as H.
    pose proof (getGoogleSearchPageHtmlM_post w searchQuery options saveToFile
                  outputPath disk) as Hfuel.
    unfold wp, htmlPost in Hfuel. cbv zeta in H.
    unfold getGoogleSearchPageHtml in *.
    destruct (getGoogleSearchPageHtmlM w searchQuery options saveToFile
                outputPath (initialState disk)) as [[response|e|] s];
      cbn in *; [exact H|exact H|contradiction].
  - intros disk' session value Hs Hf Hr.
    now apply (loadSavedState_present w options (initialState disk') session value).
Qed.

Lemma identity_reuse_needs_session_file_witness :
  identityOnlyDisk !! stateFile noOptions = None
  /\ noSaveState noOptions = false
  /\ exists fields,
      fs (googleSearch quietWorld "rocq" noOptions None identityOnlyDisk).2
         !! fingerprintFile noOptions = Some (JsonFile (JObject fields))
      /\ assoc "fingerprint" fields
         = Some (fingerprintJson (freshIdentity quietWorld noOptions)).
Proof.
  split; [reflexivity|]. split; [reflexivity|].
  pose proof (proj1 (proj2 (proj2 (proj2 (proj2
                (identity_reuse_needs_session_file quietWorld "rocq" noOptions
                   identityOnlyDisk eq_refl eq_refl (fun _ _ _ => eq_refl))))))
                None) as H.
  cbv zeta in H.
  destruct (googleSearch quietWorld "rocq" noOptions None identityOnlyDisk).1
    as [response|e|] eqn:Hrun; [exact H| |contradiction].
  vm_compute in Hrun. discriminate Hrun.
Defined.

(** On the quiet world the stored London identity is replaced by the one
    generated from the host. *)
Example fresh_identity_replaces_stored :
  fs (googleSearch quietWorld "rocq" noOptions None identityOnlyDisk).2
     !! fingerprintFile noOptions
  = Some (JsonFile
            (JObject
               [ ("fingerprint",
                  fingerprintJson (freshIdentity quietWorld noOptions));
                 ("googleDomain", JString "https://www.google.com") ]))
  /\ freshIdentity quietWorld noOptions
     = {| deviceName := "Desktop Chrome"; locale := "ko-KR";
          timezoneId := "Asia/Shanghai"; colorScheme := dark;
          reducedMotion := no_preference; forcedColors := none |}.
Proof. split; vm_compute; reflexivity. Qed.

(** A challenge in headless mode and a headed browser that cannot be
    started: the run was inside a [try] block, yet it raises from the
    set-up of the second activation and the stored identity stays. *)
Example failed_relaunch_keeps_old_identity :
  let run := googleSearch relaunchFails "rocq" noOptions None identityOnlyDisk in
  run.1 = Throw "browserType.launch: Missing X server"
  /\ fs run.2 = identityOnlyDisk.
Proof. cbv zeta. split; vm_compute; reflexivity. Qed.

End OrchestratorClaims.

(* ===================================================================== *)
(** * Further properties of the code *)
(* ===================================================================== *)

Section FingerprintProperties.
Import JsValue Search Wp JsonFacts Outcomes Identity Scenarios.
Local Open Scope Z_scope.

(** X1. The zone of the generated identity, for every host offset: each of
    the five effective ranges and, for every other offset, the default
    [Asia/Seoul]. *)
Theorem timezone_by_offset (host : Host) (userLocale : option string) :
  let o := timezoneOffset host in
  let tz := timezoneId (getHostMachineConfig host userLocale) in
  (tz = "Asia/Shanghai" <-> -600 < o <= -480)
  /\ (tz = "Asia/Bangkok" <-> -480 < o <= -420)
  /\ (tz = "Europe/London" <-> -60 < o <= 0)
  /\ (tz = "Europe/Berlin" <-> 0 < o <= 60)
  /\ (tz = "America/New_York" <-> 240 < o <= 300)
  /\ (tz = "Asia/Seoul"
      <-> (o <= -600 \/ -420 < o <= -60 \/ 60 < o <= 240 \/ 300 < o)).
Proof.
  cbv zeta. unfold getHostMachineConfig, inferTimezone. cbn [timezoneId].
  generalize (timezoneOffset host). intros o.
  rewrite !Z.gtb_ltb.
  repeat match goal with
         | |- context [(?a <=? ?b)] => destruct (Z.leb_spec a b)
         | |- context [(?a <? ?b)] => destruct (Z.ltb_spec a b)
         end; cbn [andb];
    repeat split; intros; first [discriminate|lia|reflexivity].
Qed.

(** X2. The locale of the generated identity is never empty: it is the
    caller's locale if that is a non-empty string, else the environment's
    [LANG] if that is set and non-empty, else [ko-KR]. *)
Theorem generated_locale_precedence (host : Host) (userLocale : option string) :
  let l := locale (getHostMachineConfig host userLocale) in
  l <> ""
  /\ l = match orElse userLocale None with
         | Some u => u
         | None => match orElse (envLANG host) None with
                   | Some v => v
                   | None => "ko-KR"
                   end
         end.
Proof.
  cbv zeta. unfold getHostMachineConfig. cbn [locale]. unfold orElse.
  destruct userLocale as [[|a u]|]; destruct (envLANG host) as [[|b v]|];
    cbn; split; first [discriminate|reflexivity].
Qed.

(** X3. When the saved state in memory is an object without a truthy
    identity, the context options an operation builds do not depend on the
    platform, on [LANG] or on the random device draw: the device is
    [Desktop Chrome] and, unless the caller passed the empty string, the
    locale is the caller's or [ko-KR]. *)
Theorem fresh_context_ignores_environment
        (w : World) (options : CommandOptions) (headless : bool) (s : RunState) :
  isPrimitive (savedState s) = false ->
  whenTruthy (fingerprint (savedState s)) = None ->
  opt_locale options <> Some ""%string ->
  exists o s',
    buildContextOptions w options headless s = (Ok o, s')
    /\ device o = JString "Desktop Chrome"
    /\ co_locale o = Some (JString (default "ko-KR"%string (opt_locale options)))
    /\ co_isMobile o = false /\ co_hasTouch o = false
    /\ fingerprint (savedState s')
       = Some (fingerprintJson
                 (getHostMachineConfig (host w) (Some (userLocale options)))).
Proof.
  intros Hobj Hnone Hloc. rewrite buildContextOptions_eq, Hnone.
  destruct (setProp "fingerprint" (fingerprintJson (freshIdentity w options))
                    (savedState s)) as [saved'|] eqn:Hset.
  - eexists _, _. split; [reflexivity|].
    split; [reflexivity|]. split; [|split; [reflexivity|split; [reflexivity|]]].
    + cbn. unfold userLocale.
      destruct (opt_locale options) as [[|a l]|]; cbn;
        first [reflexivity|congruence].
    + cbn. unfold fingerprint.
      exact (getProp_setProp_eq _ _ _ _ Hset).
  - apply setProp_None in Hset. congruence.
Qed.

Lemma fresh_context_ignores_environment_witness :
  exists o s',
    buildContextOptions quietWorld noOptions true (initialState emptyDisk)
    = (Ok o, s')
    /\ device o = JString "Desktop Chrome"
    /\ co_locale o = Some (JString "ko-KR").
Proof.
  destruct (fresh_context_ignores_environment quietWorld noOptions true
              (initialState emptyDisk) eq_refl eq_refl)
    as (o & s' & H & Hd & Hl & _).
  - discriminate.
  - exists o, s'. auto.
Defined.

End FingerprintProperties.

Section ExtractionProperties.
Import JsString JsStringFacts JsValue NumberFacts Extract ExtractFacts ExtractMore
       AnchorScan Scenarios.

(** X4. Raising the limit only appends records: whenever the extraction
    returns for a limit, it returns for every smaller limit, and what it
    returns then is the beginning of the list returned for the larger
    one. *)
Theorem extract_prefix_stable
        (page : Page) (n m : Z) (rs : list SearchResult) :
  (n <= m)%Z ->
  extract page (ofZ m) = Some rs ->
  extract page (ofZ n) = Some (take (Z.to_nat n) rs).
Proof.
  intros Hle Hm.
  assert (Hstop : forall a, full (ofZ m) a = true -> full (ofZ n) a = true).
  { intros a. unfold full, ofZ. rewrite !lengthGe_num, !ceiling_inject. lia. }
  destruct (extract_earlier (ofZ n) (ofZ m) page Hstop) as [rn Hn];
    [rewrite Hm; eauto|].
  rewrite Hn. f_equal.
  apply extract_closed_form in Hm, Hn. subst rs rn.
  unfold ofZ. rewrite !kept_num, !floor_inject. cbn [takeUpTo].
  rewrite take_take. f_equal. lia.
Qed.

Lemma extract_prefix_stable_witness :
  (1 <= 10)%Z
  /\ exists rs,
      extract samplePage (ofZ 10) = Some rs
      /\ extract samplePage (ofZ 1) = Some (take (Z.to_nat 1) rs).
Proof.
  split; [lia|]. eexists. split; [vm_compute; reflexivity|].
  apply (extract_prefix_stable samplePage 1 10); [lia|].
  vm_compute; reflexivity.
Defined.

(** X5. When the extraction returns fewer records than the limit rounded
    down, nothing the page offers was missed: the link of every container
    with a title, a link that begins with [http] and a title text that is
    not empty once trimmed, and the link of every HTML anchor outside the
    excluded sites with a non-empty link and text, is among the returned
    links. *)
Theorem extraction_misses_nothing
        (page : Page) (N : JsNumber) (rs : list SearchResult) :
  extract page N = Some rs ->
  match kept N with Some k => length rs < k | None => True end ->
  (forall selectors c t l,
      selectors ∈ selectorSets ->
      c ∈ querySelectorAll page (container selectors) ->
      queryTitle c (titleSel selectors) = Some t ->
      findLink t c = HrefString l ->
      startsWith "http" l = true ->
      trim (titleTextContent t) <> "" ->
      l ∈ map link rs)
  /\ (forall el,
      el ∈ anchorElements page ->
      isHTMLAnchor el = true -> href el <> "" ->
      excludedLink (href el) = false ->
      trim (anchorTextContent el) <> "" ->
      href el ∈ map link rs).
Proof.
  intros Hrs Hlen. apply extract_closed_form in Hrs.
  assert (Hall : rs = keepFirst [] (candidates page)).
  { rewrite Hrs. destruct (kept N) as [k|]; [|reflexivity]. cbn [takeUpTo].
    apply take_ge. rewrite Hrs in Hlen. cbn [takeUpTo] in Hlen.
    rewrite length_take in Hlen. lia. }
  assert (Hin : forall r, r ∈ candidates page -> link r ∈ map link rs).
  { intros r Hr. rewrite Hall.
    destruct (keepFirst_covers [] _ _ Hr) as [H|H]; [inversion H|exact H]. }
  split.
  - intros selectors c t l Hs Hc Ht Hl Hp Hti.
    exact (Hin _ (container_offers page selectors c t l Hs Hc Ht Hl Hp Hti)).
  - intros el Hel Ha Hh Hx Ht.
    exact (Hin _ (anchor_offers page el Hel Ha Hh Hx Ht)).
Qed.

Lemma extraction_misses_nothing_witness :
  exists rs,
    extract samplePage (ofZ 10) = Some rs
    /\ "https://example.org/a" ∈ map link rs.
Proof.
  eexists. split; [vm_compute; reflexivity|].
  refine (proj2 (extraction_misses_nothing samplePage (ofZ 10) _ _ _)
                {| isHTMLAnchor := true; href := "https://example.org/a";
                   anchorTextContent := "Example";
                   parentTexts :=
                     [ "Example";
                       "Example: a page about many things, long enough" ] |}
                _ eq_refl _ eq_refl _).
  - vm_compute; reflexivity.
  - vm_compute. lia.
  - simpl. apply elem_of_cons. right. apply elem_of_cons. right.
    apply elem_of_cons. now left.
  - discriminate.
  - vm_compute. discriminate.
Defined.

(** X6. Nothing is invented: every returned record is made from one
    container of a selector set (its title text trimmed, the link found for
    its title, its snippet) or from one HTML anchor outside the excluded
    sites (its text trimmed, its [href], the text found around it). *)
Theorem extract_provenance
        (page : Page) (N : JsNumber) (rs : list SearchResult) :
  extract page N = Some rs ->
  forall r, r ∈ rs ->
    (exists selectors c t,
        selectors ∈ selectorSets
        /\ c ∈ querySelectorAll page (container selectors)
        /\ queryTitle c (titleSel selectors) = Some t
        /\ findLink t c = HrefString (link r)
        /\ r = {| title := trim (titleTextContent t); link := link r;
                  snippet := findSnippet selectors c |})
    \/ (exists el,
           el ∈ anchorElements page
           /\ isHTMLAnchor el = true
           /\ excludedLink (href el) = false
           /\ r = {| title := trim (anchorTextContent el); link := href el;
                     snippet := surroundingText 3 (trim (anchorTextContent el))
                                                (parentTexts el) |}).
Proof.
  intros Hrs r Hr. apply (extract_candidates page N rs r Hrs) in Hr.
  unfold candidates in Hr. apply elem_of_app in Hr as [Hr|Hr].
  - apply elem_of_primaryCandidates in Hr
      as (selectors & c & t & Hs & Hc & Ht & Hl & _ & _ & Heq).
    left. exists selectors, c, t. repeat split; assumption.
  - apply elem_of_anchorCandidates in Hr as (el & Hel & Ha & _ & Hx & _ & ->).
    right. exists el. repeat split; assumption.
Qed.

Lemma extract_provenance_witness :
  let r := {| title := "Rocq"; link := "https://rocq-prover.org/";
              snippet := "" |} in
  (exists selectors c t,
      selectors ∈ selectorSets
      /\ c ∈ querySelectorAll samplePage (container selectors)
      /\ queryTitle c (titleSel selectors) = Some t
      /\ findLink t c = HrefString (link r)
      /\ r = {| title := trim (titleTextContent t); link := link r;
                snippet := findSnippet selectors c |})
  \/ (exists el,
         el ∈ anchorElements samplePage
         /\ isHTMLAnchor el = true
         /\ excludedLink (href el) = false
         /\ r = {| title := trim (anchorTextContent el); link := href el;
                   snippet := surroundingText 3 (trim (anchorTextContent el))
                                              (parentTexts el) |}).
Proof.
  cbv zeta.
  refine (extract_provenance samplePage (ofZ 10) _ _ _ _).
  - vm_compute; reflexivity.
  - apply elem_of_cons. now left.
Defined.

(** X7. Whatever the anchor scan appends to the records it is given is made
    from anchors of the page in document order; each appended record has
    the anchor's [href] as link and its trimmed text as title, and its
    snippet is empty, or it is longer than 20 code units, differs from the
    title and is the trimmed text of one of the three nearest ancestors of
    the anchor. *)
Theorem anchor_scan_snippets (page : Page) (N : JsNumber) (primary : Acc) :
  exists picked : list AnchorElement,
    results (fallbackPass N page primary)
    = (results primary ++ map recordOfAnchor picked)%list
    /\ picked `sublist_of` anchorElements page
    /\ Forall (fun el =>
                 let r := recordOfAnchor el in
                 link r = href el
                 /\ title r = trim (anchorTextContent el)
                 /\ (snippet r = ""
                     \/ (20 < jsLength (snippet r)
                         /\ snippet r <> title r
                         /\ exists p, p ∈ take 3 (parentTexts el)
                                      /\ snippet r = trim p))) picked.
Proof.
  unfold fallbackPass. destruct (lengthLt _ _).
  - eexists. split; [apply anchorLoop_firstPerLink|]. split.
    + etransitivity; [apply takeUpTo_sublist|apply firstPerLink_sublist].
    + apply Forall_forall. intros el _. cbv zeta.
      cbn [recordOfAnchor link title snippet].
      split; [reflexivity|]. split; [reflexivity|].
      apply surroundingText_spec.
  - exists []. split; [now rewrite app_nil_r|].
    split; [apply sublist_nil_l|constructor].
Qed.

(** X28. On a page whose containers have no SVG anchor where the link is
    looked for, the extraction returns, for every limit; whenever it
    returns, it returns no more records than the limit rounded down (none
    for a limit below one or one that is no number), and for an integer
    limit [n] at most [n]. *)
Theorem extract_returns_at_most (page : Page) (N : JsNumber) :
  (htmlLinksOnly page -> exists rs, extract page N = Some rs)
  /\ (forall rs, extract page N = Some rs ->
        match kept N with Some k => length rs <= k | None => N = PosInfinity end)
  /\ (forall n : Z, kept (ofZ n) = Some (Z.to_nat n))
  /\ (extract page N = None <-> primaryPass N page = None).
Proof.
  split; [apply extract_returns|]. split; [|split; [|apply extract_None]].
  - intros rs Hrs. pose proof (extract_length page N rs Hrs) as H.
    destruct N; cbn in *; auto.
  - intros n. unfold ofZ. now rewrite kept_num, floor_inject.
Qed.

(** X29. The anchor scan after a primary pass that returned: it appends
    records exactly when the primary pass collected fewer than [maxResults];
    what it appends is, in document order, the records of HTML anchors with
    a non-empty link that is not a link of the primary pass and contains
    none of [google.com/], [accounts.google], [support.google], and with a
    text that is not empty once trimmed, one record per link, and no more
    than are missing to reach the limit rounded up. *)
Theorem fallback_pass_spec (page : Page) (maxResults : JsNumber) (primary : Acc) :
  primaryPass maxResults page = Some primary ->
  let appended :=
    if lengthLt (length (results primary)) maxResults
    then fallbackRecords maxResults page primary else [] in
  results (fallbackPass maxResults page primary)
  = (results primary ++ appended)%list
  /\ extract page maxResults
     = Some (slice0 (results primary ++ appended) maxResults)
  /\ (forall c, cap maxResults = Some c ->
                length appended <= c - length (results primary))
  /\ exists picked : list AnchorElement,
       appended = map recordOfAnchor picked
       /\ picked `sublist_of` anchorElements page
       /\ NoDup (map href picked)
       /\ Forall (fun el =>
                    isHTMLAnchor el = true
                    /\ href el <> ""
                    /\ (href el ∉ map link (results primary))
                    /\ includes "google.com/" (href el) = false
                    /\ includes "accounts.google" (href el) = false
                    /\ includes "support.google" (href el) = false
                    /\ trim (anchorTextContent el) <> "") picked.
Proof.
  intros Hprim appended.
  destruct (primaryPass_spec maxResults page primary Hprim) as [Hcons _].
  assert (Hpass : results (fallbackPass maxResults page primary)
                  = (results primary ++ appended)%list).
  { unfold fallbackPass, appended, fallbackRecords.
    destruct (lengthLt _ _); [apply anchorLoop_firstPerLink|now rewrite app_nil_r]. }
  split; [exact Hpass|]. split; [|split].
  - unfold extract. rewrite Hprim. now rewrite Hpass.
  - intros c Hc. unfold appended. destruct (lengthLt _ _); [|cbn; lia].
    unfold fallbackRecords, room. rewrite Hc. cbn [fmap option_fmap option_map takeUpTo].
    rewrite length_map, length_take. lia.
  - unfold appended. destruct (lengthLt _ _).
    + eexists. split; [reflexivity|].
      pose proof (firstPerLink_nodup (seenUrls primary) (anchorElements page))
        as [Hnd _].
      split; [|split].
      * etransitivity; [apply takeUpTo_sublist|apply firstPerLink_sublist].
      * eapply sublist_NoDup; [exact Hnd|apply (fmap_sublist _), takeUpTo_sublist].
      * apply Forall_forall. intros el Hel.
        eapply elem_of_sublist in Hel; [|apply takeUpTo_sublist].
        apply firstPerLink_eligible in Hel as (_ & H1 & Hh & H2 & H3 & H4).
        unfold excludedLink in H3.
        apply orb_false_iff in H3 as [H3 H3c].
        apply orb_false_iff in H3 as [H3a H3b].
        repeat split; try assumption.
        intros Hin. apply H2. apply Hcons. exact Hin.
    + exists []. split; [reflexivity|]. split; [apply sublist_nil_l|].
      split; constructor.
Qed.

Lemma fallback_pass_spec_witness :
  exists primary,
    primaryPass (ofZ 10) samplePage = Some primary
    /\ results (fallbackPass (ofZ 10) samplePage primary)
       = (results primary
          ++ (if lengthLt (length (results primary)) (ofZ 10)
              then fallbackRecords (ofZ 10) samplePage primary else []))%list.
Proof.
  destruct (primaryPass (ofZ 10) samplePage) as [primary|] eqn:Hprim.
  - exists primary. split; [reflexivity|].
    exact (proj1 (fallback_pass_spec samplePage (ofZ 10) primary Hprim)).
  - exfalso. apply extract_None in Hprim. vm_compute in Hprim. discriminate Hprim.
Defined.

End ExtractionProperties.

Section PathProperties.
Import JsString JsValue Search Wp PathFacts Persistence Identity Scenarios Cases.
Import CodeUnits CodeUnitsFacts.

(** X8. The fingerprint file is a file of its own exactly when the state
    file name contains [.json]: then its name is 12 characters longer;
    otherwise the two paths are the same path. *)
Theorem fingerprint_path_coincides_iff (options : CommandOptions) :
  (fingerprintFile options = stateFile options
   <-> includes ".json" (stateFile options) = false)
  /\ (includes ".json" (stateFile options) = true ->
      String.length (fingerprintFile options)
      = String.length (stateFile options) + 12).
Proof.
  unfold fingerprintFile.
  assert (Hlen : includes ".json" (stateFile options) = true ->
                 String.length (replace ".json" "-fingerprint.json"
                                        (stateFile options))
                 = String.length (stateFile options) + 12).
  { intros E. apply (replace_length ".json" "-fingerprint.json") in E.
    cbn [String.length] in E. lia. }
  split; [split|exact Hlen].
  - intros Heq. destruct (includes ".json" (stateFile options)) eqn:E;
      [|reflexivity].
    specialize (Hlen eq_refl). rewrite Heq in Hlen. lia.
  - apply replace_absent.
Qed.

(** X9. With a state file name that has no [.json] in it, a persistence
    block whose calls all succeed leaves the saved state, not the session,
    in the state file; the next run finds the state file, hands it to the
    browser context as the stored session and loads its saved state from
    it. *)
Theorem session_file_overwritten_without_json
        (w : World) (options : CommandOptions) (headless : bool) (sp : SavePath)
        (s : RunState) :
  noSaveState options = false ->
  includes ".json" (stateFile options) = false ->
  throwsAt w headless (SMkdir sp) = None ->
  throwsAt w headless (SStorageState sp) = None ->
  throwsAt w headless (SWriteFingerprint sp) = None ->
  let s' := (saveBrowserState w options headless sp s).2 in
  fs s' !! stateFile options = Some (JsonFile (stringified (savedState s)))
  /\ forall w2 s2,
       fs s2 = fs s' ->
       throwsAt w2 true SReadFingerprint = None ->
       loadSavedState w2 options s2
       = (Ok (Some (stateFile options)),
          withSaved (stringified (savedState s)) s2).
Proof.
  intros Hsave Hplain Hmk Hst Hwr. cbv zeta.
  assert (Hsame : fingerprintFile options = stateFile options)
    by (apply replace_absent; exact Hplain).
  assert (Hfile : fs (saveBrowserState w options headless sp s).2
                  !! stateFile options
                  = Some (JsonFile (stringified (savedState s)))).
  { rewrite <- Hsame.
    exact (proj1 (saveBrowserState_effect w options Hsave headless sp s
                    Hmk Hst Hwr)). }
  split; [exact Hfile|].
  intros w2 s2 Hfs Hread.
  apply (loadSavedState_present w2 options s2
           (JsonFile (stringified (savedState s)))
           (stringified (savedState s))).
  - now rewrite Hfs.
  - now rewrite Hsame, Hfs.
  - exact Hread.
Qed.

Lemma session_file_overwritten_without_json_witness :
  fs (saveBrowserState quietWorld plainStateOptions true OnSuccess
                       (initialState emptyDisk)).2
     !! stateFile plainStateOptions
  = Some (JsonFile (stringified emptySavedState)).
Proof.
  exact (proj1 (session_file_overwritten_without_json quietWorld
                  plainStateOptions true OnSuccess (initialState emptyDisk)
                  eq_refl eq_refl eq_refl eq_refl eq_refl)).
Defined.

(** X10. Of the five challenge markers three decide: a location is taken
    for a challenge exactly when it contains [google.com/sorry], [captcha]
    or [unusual traffic]; after the first navigation the location of the
    response is tested in the same way. *)
Theorem challenge_test_three_markers (url : string) (response : option string) :
  isBlocked url
  = includes "google.com/sorry" url || includes "captcha" url
    || includes "unusual traffic" url
  /\ isBlockedPage url response
     = isBlocked url
       || match response with Some r => isBlocked r | None => false end.
Proof.
  split.
  - unfold isBlocked, sorryPatterns. cbn [existsb]. rewrite orb_false_r.
    destruct (includes "google.com/sorry/index" url) eqn:E1.
    { apply (includes_app_l "google.com/sorry" "/index") in E1. now rewrite E1. }
    destruct (includes "recaptcha" url) eqn:E2.
    { do 2 apply includes_tail in E2. rewrite E2.
      cbn. now rewrite orb_true_r. }
    cbn. now rewrite orb_assoc.
  - unfold isBlockedPage, isBlocked. rewrite existsb_orb.
    destruct response as [r|]; reflexivity.
Qed.

(** X11. Saving the markup to a given, non-empty output path, once the
    directory is there: the markup is written to that path and the
    screenshot is asked for next, at the path with a final [.html] replaced
    by [.png]; if that call goes through too, both paths are returned.  For
    a path that does not end in [.html] the screenshot is asked for at the
    very path of the markup. *)
Theorem screenshot_path_of_saved_markup
        (w : World) (p : string) (headless : bool) (html : string) (s : RunState) :
  p <> "" ->
  throwsAt w headless SMkdirFileDir = None ->
  throwsAt w headless SWriteHtml = None ->
  let run := saveHtml w true (Some p) headless html s in
  (exists evs,
      events run.2
      = (events s ++ evs ++ [WriteFile p; WriteFile (replaceHtmlSuffix p)])%list
      /\ (evs = [] \/ evs = [Mkdir (dirname p)]))
  /\ run.1 = match throwsAt w headless SScreenshot with
             | None => Ok (Some p, Some (replaceHtmlSuffix p))
             | Some e => Throw e
             end
  /\ (forall q, p = q ++ ".html" -> replaceHtmlSuffix p = q ++ ".png")
  /\ ((forall q, p <> q ++ ".html") -> replaceHtmlSuffix p = p).
Proof.
  intros Hp Hmk Hwr. cbv zeta.
  split; [|split; [|split]].
  - change (wp (saveHtml w true (Some p) headless html)
               (fun _ s' =>
                  exists evs,
                    events s'
                    = (events s ++ evs
                       ++ [WriteFile p; WriteFile (replaceHtmlSuffix p)])%list
                    /\ (evs = [] \/ evs = [Mkdir (dirname p)])) s).
    unfold saveHtml, orElse. apply JsStringFacts.truthy_true in Hp. rewrite Hp.
    wp_run; try congruence; cbn.
    all: first [ exists [Mkdir (dirname p)]; split;
                 [now rewrite <- !app_assoc|now right]
               | exists []; split; [now rewrite <- !app_assoc|now left] ].
  - change (wp (saveHtml w true (Some p) headless html)
               (fun r _ => r = match throwsAt w headless SScreenshot with
                               | None => Ok (Some p, Some (replaceHtmlSuffix p))
                               | Some e => Throw e
                               end) s).
    unfold saveHtml, orElse. apply JsStringFacts.truthy_true in Hp. rewrite Hp.
    wp_run; try congruence;
      match goal with H : throwsAt w headless SScreenshot = _ |- _ => now rewrite H end.
  - intros q ->. apply replaceHtmlSuffix_html.
  - apply replaceHtmlSuffix_other.
Qed.

Lemma screenshot_path_of_saved_markup_witness :
  (saveHtml quietWorld true (Some "./out/page.html") true "<html></html>"
            (initialState emptyDisk)).1
  = Ok (Some "./out/page.html", Some "./out/page.png").
Proof.
  assert (Hp : "./out/page.html" <> "") by discriminate.
  destruct (screenshot_path_of_saved_markup quietWorld "./out/page.html" true
              "<html></html>" (initialState emptyDisk) Hp eq_refl eq_refl)
    as (_ & H1 & _).
  rewrite H1. reflexivity.
Defined.

(** X12. The query part of a generated file name has the length of the
    query, capped at 50, and consists of ASCII letters, digits and
    underscores only: it holds no path separator, dot, colon or NUL.
    Sanitizing it again changes nothing. *)
Theorem sanitized_query_is_a_safe_name (query : list N) :
  length (sanitizedQuery query) = min 50 (length query)
  /\ Forall (fun u => isAlnum u = true \/ u = 95%N) (sanitizedQuery query)
  /\ Forall (fun u => u <> 47 /\ u <> 92 /\ u <> 46 /\ u <> 58 /\ u <> 0)%N
            (sanitizedQuery query)
  /\ sanitizedQuery (sanitizedQuery query) = sanitizedQuery query.
Proof.
  split; [apply sanitizedQuery_length|].
  split; [apply sanitizedQuery_safe|].
  split; [|apply sanitizedQuery_idem].
  eapply Forall_impl; [apply sanitizedQuery_safe|].
  intros u Hu. now apply safeUnit_not_separator.
Qed.

(** X13. The preview the command line prints never holds more than 503 code
    units: markup of up to 500 units is shown whole, longer markup is cut to
    its first 500 units followed by three dots. *)
Theorem html_preview_bounds (html : list N) :
  length (htmlPreview html) <= 503
  /\ take 500 (htmlPreview html) = take 500 html
  /\ (length html <= 500 -> htmlPreview html = html)
  /\ (500 < length html ->
      htmlPreview html = (take 500 html ++ [46; 46; 46]%N)%list
      /\ length (htmlPreview html) = 503).
Proof.
  split; [|split; [apply htmlPreview_prefix|split; [apply htmlPreview_short|]]].
  - rewrite htmlPreview_length.
    destruct (Nat.leb_spec (length html) 500); lia.
  - intros H. split.
    + unfold htmlPreview. destruct (Nat.ltb_spec 500 (length html)); [reflexivity|lia].
    + rewrite htmlPreview_length.
      destruct (Nat.leb_spec (length html) 500); lia.
Qed.

End PathProperties.

Section OrchestratorProperties.
Import JsString JsValue Search Wp Outcomes Navigation Lifecycle Scenarios Cases.

(** X14. All page navigations of one search, the ones of a restarted
    activation included, go to one and the same domain; it is one of the
    four of the list, or else the domain stored in the fingerprint file that
    was loaded because the state file exists. *)
Theorem one_domain_per_run
        (w : World) (searchQuery : string) (options : CommandOptions)
        (existingBrowser : option Browser) (disk : gmap string FileContent) :
  let run := googleSearch w searchQuery options existingBrowser disk in
  exists d,
    (forall b t, Goto b t ∈ events run.2 -> t = d)
    /\ ((exists name, d = JString name /\ name ∈ googleDomains)
        \/ is_Some (disk !! stateFile options)
           /\ exists saved,
               disk !! fingerprintFile options = Some (JsonFile saved)
               /\ googleDomain saved = Some d).
Proof.
  cbv zeta. unfold googleSearch.
  pose proof (googleSearchM_oneDomain w searchQuery options existingBrowser disk)
    as (stored & [Hc Hv] & Hor).
  destruct (googleDomain
              (savedState (googleSearchM w searchQuery options existingBrowser
                                         (initialState disk)).2))
    as [t|] eqn:Ht.
  - exists t. split.
    + intros b t' Hin. destruct (Hv b t' Hin) as [H1 _]. congruence.
    + destruct Hc as [Hc|(d & Hd & Hin)].
      * destruct Hor as [->|(Hs & saved & Hf & ->)]; [congruence|].
        right. split; [exact Hs|]. exists saved. split; [exact Hf|congruence].
      * left. exists d. split; [congruence|exact Hin].
  - exists (JString "https://www.google.com"). split.
    + intros b t Hin. destruct (Hv b t Hin) as [H1 _]. congruence.
    + left. eexists. split; [reflexivity|].
      unfold googleDomains. apply elem_of_cons. now left.
Qed.




(** X17. What a search returns, on pages whose anchors are absolute, is
    either the one synthetic record of a failed search or a list of at most
    [limit] well-formed records with distinct links; the two are told apart
    by the link: only the synthetic record has an empty one. *)
Theorem response_is_records_or_one_failure
        (w : World) (searchQuery : string) (options : CommandOptions)
        (existingBrowser : option Browser) (disk : gmap string FileContent)
        (response : SearchResponse) :
  (forall headless, Extract.anchorsAbsolute (renderedPage w headless)) ->
  (googleSearch w searchQuery options existingBrowser disk).1 = Ok response ->
  query response = searchQuery
  /\ ((exists e, results response = [failureRecord e])
      \/ (NoDup (map link (results response))
          /\ Forall (fun r => title r <> "" /\ startsWith "http" (link r) = true)
                    (results response)
          /\ match Extract.kept (limit options) with
             | Some k => length (results response) <= k
             | None => True
             end))
  /\ ((exists r, r ∈ results response /\ link r = "")
      <-> exists e, results response = [failureRecord e]).
Proof.
  intros Hpages Hrun.
  pose proof (googleSearchM_post w searchQuery options existingBrowser disk) as H.
  unfold wp, searchPost in H. unfold googleSearch in Hrun. rewrite Hrun in H.
  destruct H as [Hq [(headless & extracted & Hx & Hr)|[e Hr]]];
    (split; [exact Hq|]).
  - pose proof (ExtractMore.extract_wellformed _ _ _ (Hpages headless) Hx) as Hwf.
    pose proof (ExtractMore.extract_nodup _ _ _ Hx) as Hnd.
    pose proof (ExtractMore.extract_length _ _ _ Hx) as Hlen.
    rewrite <- Hr in Hwf, Hnd, Hlen.
    split.
    + right. split; [exact Hnd|]. split; [exact Hwf|exact Hlen].
    + split.
      * intros (r & Hin & Hl).
        rewrite Forall_forall in Hwf. destruct (Hwf r Hin) as [_ Hp].
        rewrite Hl in Hp. discriminate.
      * intros [e He]. rewrite He in Hwf.
        inversion Hwf as [|? ? [_ Hp] _]. discriminate.
  - split; [left; eauto|]. split; [eauto|].
    intros _. exists (failureRecord e). rewrite Hr.
    split; [apply elem_of_cons; now left|reflexivity].
Qed.

Lemma response_is_records_or_one_failure_witness :
  exists response,
    (googleSearch quietWorld "rocq" noOptions None emptyDisk).1 = Ok response
    /\ query response = "rocq"
    /\ ((exists e, results response = [failureRecord e])
        \/ (NoDup (map link (results response))
            /\ Forall (fun r => title r <> ""
                                /\ startsWith "http" (link r) = true)
                      (results response)
            /\ match Extract.kept (limit noOptions) with
               | Some k => length (results response) <= k
               | None => True
               end)).
Proof.
  assert (Hpages : forall headless,
             Extract.anchorsAbsolute (renderedPage quietWorld headless))
    by (intros headless; repeat constructor).
  eexists. split; [vm_compute; reflexivity|].
  destruct (response_is_records_or_one_failure quietWorld "rocq" noOptions None
              emptyDisk _ Hpages ltac:(vm_compute; reflexivity))
    as (Hq & Hshape & _).
  split; [exact Hq|exact Hshape].
Defined.


(** X19. A search launches at most two browsers, and at most one (the
    temporary headed one of a restart) when the caller supplied a browser. *)
Theorem search_launches_at_most_two_browsers
        (w : World) (searchQuery : string) (options : CommandOptions)
        (existingBrowser : option Browser) (disk : gmap string FileContent) :
  let run := googleSearch w searchQuery options existingBrowser disk in
  length (List.filter Activations.isLaunch (events run.2))
  <= match existingBrowser with Some _ => 1 | None => 2 end.
Proof.
  cbv zeta.
  pose proof (Activations.googleSearchM_count w searchQuery options
                existingBrowser (initialState disk)) as H.
  unfold wp, Activations.upTo, Activations.searchCost, Activations.launches in H.
  cbn in H. exact H.
Qed.

(** X20. The self-call of [performSearch], and of [performSearchAndGetHtml],
    is taken at most once: a headed activation never asks for another one.
    So two levels of recursion give the result of any deeper unfolding, and
    that result is a response or an error. *)
Theorem restart_depth_is_two
        (w : World) (searchQuery : string) (options : CommandOptions)
        (existingBrowser : option Browser) (storage : option string)
        (saveToFile : bool) (outputPath : option string)
        (fuel : nat) (s : RunState) :
  (performSearch w searchQuery options existingBrowser storage (S (S fuel)) true s
   = performSearch w searchQuery options existingBrowser storage 2 true s
   /\ (performSearch w searchQuery options existingBrowser storage 2 true s).1
      <> OutOfFuel)
  /\ (performSearchAndGetHtml w searchQuery options saveToFile outputPath
                              storage (S (S fuel)) true s
      = performSearchAndGetHtml w searchQuery options saveToFile outputPath
                                storage 2 true s
      /\ (performSearchAndGetHtml w searchQuery options saveToFile outputPath
                                  storage 2 true s).1 <> OutOfFuel).
Proof.
  split; split.
  - apply Activations.performSearch_depth.
  - pose proof (performSearch_post w searchQuery options existingBrowser
                  storage 0 true s) as H.
    unfold wp, searchPost in H. intros Hout. rewrite Hout in H. exact H.
  - apply Activations.performSearchAndGetHtml_depth.
  - pose proof (performSearchAndGetHtml_post w searchQuery options saveToFile
                  outputPath storage 0 true s) as H.
    unfold wp, htmlPost in H. intros Hout. rewrite Hout in H. exact H.
Qed.

End OrchestratorProperties.

Section IdentityProperties.
Import JsString JsValue Search Wp Outcomes Identity Contexts Scenarios Cases.

(** X21. Every browser context one search opens, the ones of a restarted
    activation and the temporary one of the restart included, presents one
    and the same identity (locale, time zone, colour scheme, motion and
    colour preferences, desktop mode): the one generated from the host, or
    else the one stored in the fingerprint file that was loaded because the
    state file exists. *)
Theorem contexts_share_one_identity
        (w : World) (searchQuery : string) (options : CommandOptions)
        (existingBrowser : option Browser) (disk : gmap string FileContent) :
  let run := googleSearch w searchQuery options existingBrowser disk in
  exists fp,
    (forall b o, NewContext b o ∈ events run.2 -> carries fp o)
    /\ (fp = fingerprintJson
               (getHostMachineConfig (host w) (Some (userLocale options)))
        \/ is_Some (disk !! stateFile options)
           /\ exists saved,
               disk !! fingerprintFile options = Some (JsonFile saved)
               /\ fingerprint saved = Some fp).
Proof.
  exact (googleSearchM_presents w searchQuery options existingBrowser disk).
Qed.

(** X22. The identity survives to the next search: when what a search
    loads is an object that is written back as it is, and its set-up and
    persistence calls go through, a later search that uses the same options
    and can read the fingerprint file presents, in every context it opens,
    the identity the contexts of the first search presented, whatever its
    own host and clock say. *)
Theorem identity_survives_to_next_run
        (w1 w2 : World) (query1 query2 : string) (options : CommandOptions)
        (browser1 browser2 : option Browser) (disk : gmap string FileContent) :
  noSaveState options = false ->
  (exists fields, loadedState w1 options disk = JObject fields) ->
  stringified (loadedState w1 options disk) = loadedState w1 options disk ->
  (forall headless site, beforeTry site = true -> throwsAt w1 headless site = None) ->
  (forall headless site,
      persistenceSite site = true -> throwsAt w1 headless site = None) ->
  throwsAt w2 true SReadFingerprint = None ->
  let first := googleSearch w1 query1 options browser1 disk in
  let second := googleSearch w2 query2 options browser2 (fs first.2) in
  exists fp,
    (forall b o, NewContext b o ∈ events first.2 -> carries fp o)
    /\ (forall b o, NewContext b o ∈ events second.2 -> carries fp o)
    /\ exists saved,
        fs first.2 !! fingerprintFile options = Some (JsonFile saved)
        /\ fingerprint saved = Some fp.
Proof.
  intros Hsave Hobj Hstable Hsetup Hpersist Hread. cbv zeta.
  pose proof (googleSearchM_identity_written w1 query1 options browser1 disk
                Hsave Hpersist Hobj Hstable) as H.
  pose proof (googleSearchM_post w1 query1 options browser1 disk) as Hfuel.
  unfold wp, searchPost in H, Hfuel. unfold googleSearch at 1 2 3.
  destruct H as (fp & Hcarry & Hwritten).
  assert (Hw : written options fp
                 (googleSearchM w1 query1 options browser1 (initialState disk)).2).
  { destruct (googleSearchM w1 query1 options browser1 (initialState disk))
      as [[response|e|] s]; cbn in *; [assumption| |contradiction].
    destruct Hwritten as [Hw|(headless & site & Hb & Ht)]; [exact Hw|].
    rewrite (Hsetup headless site Hb) in Ht. discriminate. }
  destruct Hw as ([session Hsession] & saved & Hfile & Hfp).
  exists fp. split; [exact Hcarry|]. split.
  - exact (googleSearch_presents_loaded w2 query2 options browser2 _ session
             saved fp Hsession Hfile Hfp Hread).
  - exists saved. split; [exact Hfile|].
    now apply JsonFacts.whenTruthy_Some in Hfp.
Qed.

Lemma identity_survives_to_next_run_witness :
  let first := googleSearch quietWorld "rocq" noOptions None emptyDisk in
  let second := googleSearch dayWorld "stdpp" noOptions None (fs first.2) in
  exists fp,
    (forall b o, NewContext b o ∈ events first.2 -> carries fp o)
    /\ (forall b o, NewContext b o ∈ events second.2 -> carries fp o)
    /\ exists saved,
        fs first.2 !! fingerprintFile noOptions = Some (JsonFile saved)
        /\ fingerprint saved = Some fp.
Proof.
  exact (identity_survives_to_next_run quietWorld dayWorld "rocq" "stdpp"
           noOptions None None emptyDisk eq_refl
           (ex_intro _ [] eq_refl) eq_refl
           (fun _ _ _ => eq_refl) (fun _ _ _ => eq_refl) eq_refl).
Defined.

(** On these two hosts: the second search, run in London by day, still
    presents the night-time identity of the first. *)
Example second_run_presents_first_identity :
  let first := googleSearch quietWorld "rocq" noOptions None emptyDisk in
  let second := googleSearch dayWorld "stdpp" noOptions None (fs first.2) in
  match events second.2 with
  | Launch _ :: NewContext _ o :: _ =>
      co_timezoneId o = Some (JString "Asia/Shanghai")
      /\ co_colorScheme o = Some (JString "dark")
      /\ co_storageState o = Some "./browser-state.json"
  | _ => False
  end
  /\ colorScheme (getHostMachineConfig (host dayWorld) (Some "ko-KR")) = light.
Proof. vm_compute. repeat split. Qed.

(** A fingerprint file that holds an array: the first search stores the
    identity as a property that is not written, and the second search
    generates its own. *)
Example identity_lost_in_array_file :
  let disk := <["./browser-state-fingerprint.json" := JsonFile (JArray [] [])]>
                (<["./browser-state.json" := JsonFile (sessionJson quietWorld true)]>
                   emptyDisk) in
  let first := googleSearch quietWorld "rocq" noOptions None disk in
  (exists response, first.1 = Ok response)
  /\ fs first.2 !! fingerprintFile noOptions = Some (JsonFile (JArray [] [])).
Proof. cbv zeta. split; [eexists|]; vm_compute; reflexivity. Qed.

End IdentityProperties.

Section MarkupProperties.
Import JsString JsValue Search Wp Outcomes Lifecycle HtmlFetch Scenarios Cases.

(** X23. A response of the markup fetch comes from one activation: it holds
    the query, that activation's page markup with the style elements, the
    style sheet links and the script elements taken out, its page location
    and the length of the untouched markup in code units.  The saved path
    and the screenshot path are set exactly when saving was asked for: to
    the given output path (the generated one if none or an empty one was
    given) and to that path with a final [.html] replaced by [.png]. *)
Theorem markup_response_shape
        (w : World) (searchQuery : string) (options : CommandOptions)
        (saveToFile : bool) (outputPath : option string)
        (disk : gmap string FileContent) (response : HtmlResponse) :
  (getGoogleSearchPageHtml w searchQuery options saveToFile outputPath disk).1
  = Ok response ->
  exists headless,
    htmlQuery response = searchQuery
    /\ html response = Markup.stripStyleAndScript (pageContent w headless)
    /\ url response = finalUrl w headless
    /\ originalHtmlLength response = jsLength (pageContent w headless)
    /\ if saveToFile
       then savedPath response = Some (target w outputPath)
            /\ screenshotPath response
               = Some (replaceHtmlSuffix (target w outputPath))
       else savedPath response = None /\ screenshotPath response = None.
Proof.
  intros Hrun.
  pose proof (getGoogleSearchPageHtmlM_shaped w searchQuery options saveToFile
                outputPath (initialState disk)) as H.
  unfold wp, runShaped in H. unfold getGoogleSearchPageHtml in Hrun.
  rewrite Hrun in H. exact H.
Qed.

Lemma markup_response_shape_witness :
  exists response,
    (getGoogleSearchPageHtml quietWorld "rocq" noOptions true None emptyDisk).1
    = Ok response
    /\ savedPath response = Some "./google-search-html/rocq-2026.html"
    /\ screenshotPath response = Some "./google-search-html/rocq-2026.png".
Proof.
  eexists. split; [vm_compute; reflexivity|].
  destruct (markup_response_shape quietWorld "rocq" noOptions true None emptyDisk
              _ eq_refl) as (headless & _ & _ & _ & _ & Hsaved & Hshot).
  split; [exact Hsaved|exact Hshot].
Defined.

(** What the three replacements take out, and how the length is counted:
    a style element, a style sheet link and a script element go, the text
    stays; three Korean syllables are three code units. *)
Example strip_and_count :
  Markup.stripStyleAndScript
    "<p>a</p><STYLE type='x'>p{}</style><link  rel='stylesheet' href='s.css'><script>1</script><b>c</b>"
  = "<p>a</p><b>c</b>"
  /\ Markup.stripStyleAndScript "<link rel='icon' href='i.png'><styles>x</styles>"
     = "<link rel='icon' href='i.png'><styles>x</styles>"
  /\ jsLength "검색 a" = 4
  /\ String.length "검색 a" = 8.
Proof. repeat split; vm_compute; reflexivity. Qed.


End MarkupProperties.

Section ServerProperties.
Import JsString JsValue Search Wp Outcomes McpServer Scenarios Cases.


(** X26. After a [close()] that succeeded the clean-up has dropped the
    handle, so running it again, as the signal and the exit handlers do,
    issues no second [close()]. *)
Theorem cleanup_closes_once (closeThrows : nat -> bool) (server : Server) :
  closeThrows (length (closeCalls server)) = false ->
  let once := cleanupBrowser closeThrows server in
  globalBrowser once = None
  /\ cleanupBrowser closeThrows once = once
  /\ closeCalls once
     = (closeCalls server
        ++ match globalBrowser server with Some b => [b] | None => [] end)%list.
Proof.
  destruct server as [[b|] calls]; cbn; intros Hok.
  - unfold cleanupBrowser. cbn. rewrite Hok. cbn. repeat split.
  - unfold cleanupBrowser. cbn. rewrite app_nil_r. repeat split.
Qed.

Lemma cleanup_closes_once_witness :
  let server := {| globalBrowser := Some (Launched 0 true); closeCalls := [] |} in
  let once := cleanupBrowser (fun _ => false) server in
  globalBrowser once = None
  /\ cleanupBrowser (fun _ => false) once = once
  /\ closeCalls once = [Launched 0 true].
Proof.
  exact (cleanup_closes_once (fun _ => false)
           {| globalBrowser := Some (Launched 0 true); closeCalls := [] |}
           eq_refl).
Defined.

(** X27. After a [close()] that threw, the clean-up has kept the handle: the
    next clean-up calls [close()] again. *)
Theorem cleanup_retries_after_failure (closeThrows : nat -> bool)
        (server : Server) (b : Browser) :
  globalBrowser server = Some b ->
  closeThrows (length (closeCalls server)) = true ->
  let once := cleanupBrowser closeThrows server in
  globalBrowser once = Some b
  /\ closeCalls (cleanupBrowser closeThrows once)
     = (closeCalls server ++ [b; b])%list.
Proof.
  destruct server as [gb calls]; cbn. intros -> Hfail.
  unfold cleanupBrowser. cbn. rewrite Hfail. cbn.
  split; [reflexivity|].
  match goal with
  | |- context [if ?c then _ else _] => destruct c
  end; cbn; rewrite <- ?app_assoc; reflexivity.
Qed.

Lemma cleanup_retries_after_failure_witness :
  let server := {| globalBrowser := Some (Launched 0 true); closeCalls := [] |} in
  let once := cleanupBrowser (fun n => Nat.eqb n 0) server in
  globalBrowser once = Some (Launched 0 true)
  /\ closeCalls (cleanupBrowser (fun n => Nat.eqb n 0) once)
     = [Launched 0 true; Launched 0 true].
Proof.
  exact (cleanup_retries_after_failure (fun n => Nat.eqb n 0)
           {| globalBrowser := Some (Launched 0 true); closeCalls := [] |}
           (Launched 0 true) eq_refl eq_refl).
Defined.

End ServerProperties.
